(** * MCPlace: the canvas state and event-log engine of [lib/canvas]

    A shallow embedding of the canvas library (pixel codec, palette,
    canvas store, event log and the service operations built on them)
    and the properties its specification states about it.

    Modelling conventions.
    - A JavaScript string is a [string]: a sequence of code units in the
      range U+0000..U+00FF.  [trim] and [toLowerCase] follow ECMAScript on
      that range (white space 9..13, 32 and 160; upper case A..Z and the
      Latin-1 capitals 192..222 without 215).
    - A finite JavaScript number is a rational [Q]; the arithmetic of the
      code ([y * width + x], [length - limit]) is exact on the integers and
      small dyadic fractions the claims range over.  NaN and the infinities
      are not represented.
    - A [Uint8Array] is a [list byte]; writing at an index that is not an
      integer inside the array leaves it unchanged, as a typed array does,
      and creating one longer than [2^53 - 1] throws a [RangeError].
    - The Redis backend is a record holding the value of the canvas key and
      the list at the event key; every operation is a function from backend
      to result and backend, so a failure keeps the writes made before it.
    - [Date.now()] is an argument [now] of the operations that read it. *)

From Stdlib Require Import ZArith QArith Strings.String Strings.Ascii Strings.Byte Lia.
From Stdlib Require Import Numbers.DecimalString.
From stdpp Require Import base option list strings.

Local Open Scope string_scope.
Local Open Scope Z_scope.
Local Set Warnings "-register-all".

(** ** Results and errors *)

(** The failures of the library, one constructor per [throw new Error]
    site (named as in the specification's taxonomy), one for the
    [RangeError] of a typed array that cannot be created and one for a
    command the backend refuses. *)
Inductive Error : Type :=
| OutOfBounds
| InvalidColor
| PaletteFull
| LengthMismatch
| EmptyBatch
| InvalidDimensions
| RangeError
| BackendError.

Inductive Result (A : Type) : Type :=
| Ok (a : A)
| Err (e : Error).

Arguments Ok {A} a.
Arguments Err {A} e.

Definition isOk {A} (r : Result A) : bool :=
  match r with Ok _ => true | Err _ => false end.

(** ** Numbers *)

Definition Qltb (a b : Q) : bool := negb (Qle_bool b a).

(** [Number.isInteger] on a finite number. *)
Definition isInteger (q : Q) : bool := Qnum q mod Zpos (Qden q) =? 0.

(** The integer a number denotes when [isInteger] holds (its floor otherwise). *)
Definition toInteger (q : Q) : Z := Qnum q / Zpos (Qden q).

(** ** JavaScript values, as far as the event log needs them *)

Inductive JsValue : Type :=
| JUndefined
| JNull
| JBool (b : bool)
| JNum (q : Q)
| JStr (s : string)
| JArr (items : list JsValue)
| JObj (fields : list (string * JsValue)).

(** Property read [value.name]; [JUndefined] when the property is missing. *)
Fixpoint getField (name : string) (fields : list (string * JsValue)) : JsValue :=
  match fields with
  | [] => JUndefined
  | (k, v) :: rest => if String.eqb k name then v else getField name rest
  end.

(** ** Data model *)

Record CanvasMetadata : Type := {
  width : Z;
  height : Z;
  palette : list string
}.

Record CanvasState : Type := {
  meta : CanvasMetadata;
  pixelsBase64 : string
}.

Inductive PixelSource : Type := mcp | api | script | system.

Definition sourceName (s : PixelSource) : string :=
  match s with
  | mcp => "mcp"
  | api => "api"
  | script => "script"
  | system => "system"
  end.

Definition DEFAULT_PALETTE : list string :=
  [ "#FFFFFF"; "#E4E4E4"; "#888888"; "#222222";
    "#FFA7D1"; "#E50000"; "#E59500"; "#A06A42";
    "#E5D900"; "#94E044"; "#02BE01"; "#00D3DD";
    "#0083C7"; "#0000EA"; "#CF6EE4"; "#820080" ].

(** ** The runtime's base64 codec ([Buffer.from(..).toString("base64")]
       and [Buffer.from(text, "base64")]) *)

(** Six bits, most significant first. *)
Definition sextet : Type := (bool * bool * bool * bool * bool * bool)%type.

Definition sextetIndex (s : sextet) : nat :=
  let '(b5, b4, b3, b2, b1, b0) := s in
  let w (b : bool) (n : nat) : nat := if b then n else 0%nat in
  (w b5 32 + w b4 16 + w b3 8 + w b2 4 + w b1 2 + w b0 1)%nat.

Definition sextetOfN (n : N) : sextet :=
  (N.testbit n 5, N.testbit n 4, N.testbit n 3,
   N.testbit n 2, N.testbit n 1, N.testbit n 0).

Definition base64Alphabet : string :=
  "ABCDEFGHIJKLMNOPQRSTUVWXYZabcdefghijklmnopqrstuvwxyz0123456789+/".

Definition base64Char (s : sextet) : ascii :=
  match String.get (sextetIndex s) base64Alphabet with
  | Some c => c
  | None => "="%char
  end.

(** The decoder's table: both the standard and the URL-safe alphabet. *)
Definition unbase64 (c : ascii) : option sextet :=
  let n := N_of_ascii c in
  (if (65 <=? n) && (n <=? 90) then Some (sextetOfN (n - 65))
   else if (97 <=? n) && (n <=? 122) then Some (sextetOfN (n - 71))
   else if (48 <=? n) && (n <=? 57) then Some (sextetOfN (n + 4))
   else if (n =? 43) || (n =? 45) then Some (sextetOfN 62)
   else if (n =? 47) || (n =? 95) then Some (sextetOfN 63)
   else None)%N.

Definition byteBits (x : byte) : bool * bool * bool * bool * bool * bool * bool * bool :=
  let '(x0, (x1, (x2, (x3, (x4, (x5, (x6, x7))))))) := Byte.to_bits x in
  (x7, x6, x5, x4, x3, x2, x1, x0).

Definition bitsByte (b : bool * bool * bool * bool * bool * bool * bool * bool) : byte :=
  let '(x7, x6, x5, x4, x3, x2, x1, x0) := b in
  Byte.of_bits (x0, (x1, (x2, (x3, (x4, (x5, (x6, x7))))))).

(** Three bytes are four sextets; a final group of one or two bytes is
    filled with zero bits and padded with [=]. *)
Definition encodeGroup3 (x y z : byte) : string :=
  let '(x7, x6, x5, x4, x3, x2, x1, x0) := byteBits x in
  let '(y7, y6, y5, y4, y3, y2, y1, y0) := byteBits y in
  let '(z7, z6, z5, z4, z3, z2, z1, z0) := byteBits z in
  String (base64Char (x7, x6, x5, x4, x3, x2))
    (String (base64Char (x1, x0, y7, y6, y5, y4))
      (String (base64Char (y3, y2, y1, y0, z7, z6))
        (String (base64Char (z5, z4, z3, z2, z1, z0)) EmptyString))).

Definition encodeGroup2 (x y : byte) : string :=
  let '(x7, x6, x5, x4, x3, x2, x1, x0) := byteBits x in
  let '(y7, y6, y5, y4, y3, y2, y1, y0) := byteBits y in
  String (base64Char (x7, x6, x5, x4, x3, x2))
    (String (base64Char (x1, x0, y7, y6, y5, y4))
      (String (base64Char (y3, y2, y1, y0, false, false))
        (String "="%char EmptyString))).

Definition encodeGroup1 (x : byte) : string :=
  let '(x7, x6, x5, x4, x3, x2, x1, x0) := byteBits x in
  String (base64Char (x7, x6, x5, x4, x3, x2))
    (String (base64Char (x1, x0, false, false, false, false))
      (String "="%char (String "="%char EmptyString))).

Fixpoint bufferToBase64 (bs : list byte) : string :=
  match bs with
  | x :: y :: z :: rest => encodeGroup3 x y z ++ bufferToBase64 rest
  | [x; y] => encodeGroup2 x y
  | [x] => encodeGroup1 x
  | [] => EmptyString
  end.

(** The decoder skips every character outside its table and stops at the
    first [=]. *)
Fixpoint base64Sextets (s : string) : list sextet :=
  match s with
  | EmptyString => []
  | String c rest =>
      match unbase64 c with
      | Some v => v :: base64Sextets rest
      | None => if Ascii.eqb c "=" then [] else base64Sextets rest
      end
  end.

Definition decodeByte1 (a b : sextet) : byte :=
  let '(a5, a4, a3, a2, a1, a0) := a in
  let '(b5, b4, _, _, _, _) := b in
  bitsByte (a5, a4, a3, a2, a1, a0, b5, b4).

Definition decodeByte2 (b c : sextet) : byte :=
  let '(_, _, b3, b2, b1, b0) := b in
  let '(c5, c4, c3, c2, _, _) := c in
  bitsByte (b3, b2, b1, b0, c5, c4, c3, c2).

Definition decodeByte3 (c d : sextet) : byte :=
  let '(_, _, _, _, c1, c0) := c in
  let '(d5, d4, d3, d2, d1, d0) := d in
  bitsByte (c1, c0, d5, d4, d3, d2, d1, d0).

Fixpoint sextetsToBytes (l : list sextet) : list byte :=
  match l with
  | a :: b :: c :: d :: rest =>
      decodeByte1 a b :: decodeByte2 b c :: decodeByte3 c d :: sextetsToBytes rest
  | [a; b; c] => [decodeByte1 a b; decodeByte2 b c]
  | [a; b] => [decodeByte1 a b]
  | _ => []
  end.

Definition bufferFromBase64 (s : string) : list byte :=
  sextetsToBytes (base64Sextets s).

(** ** PixelCodec *)

Definition encodePixelsToBase64 (pixels : list byte) : string :=
  bufferToBase64 pixels.

Definition decodePixelsFromBase64 (base64 : string) (expectedLength : Z) : Result (list byte) :=
  let decoded := bufferFromBase64 base64 in
  if negb (Z.of_nat (List.length decoded) =? expectedLength)
  then Err LengthMismatch
  else Ok decoded.

(** Conversion of a number to an array element (modulo 256). *)
Definition toUint8 (n : Z) : byte :=
  match Byte.of_N (Z.to_N (n mod 256)) with
  | Some b => b
  | None => x00
  end.

(** [new Uint8Array(total)] throws a [RangeError] for a length that is
    negative or above [2^53 - 1], the bound of ECMAScript's ToIndex.  An
    engine may refuse a shorter array as well, for lack of memory; like a
    backend that fails, that is outside this model. *)
Definition maxTypedArrayLength : Z := 2 ^ 53 - 1.

Definition createEmptyPixels (width height : Z) (fillIndex : Z) : Result (list byte) :=
  let total := width * height in
  if (total <? 0) || (maxTypedArrayLength <? total) then Err RangeError
  else Ok (replicate (Z.to_nat total) (toUint8 fillIndex)).

Definition indexFor (x y : Q) (width : Z) : Q :=
  (y * inject_Z width + x)%Q.

(** [pixels[k] = v] on a typed array: only an integer index inside the
    array is written. *)
Definition typedArraySet (pixels : list byte) (k : Q) (v : Z) : list byte :=
  if isInteger k && Qle_bool 0 k
  then <[Z.to_nat (toInteger k) := toUint8 v]> pixels
  else pixels.

(** ** PaletteManager *)

(** ECMAScript WhiteSpace and LineTerminator code units below U+0100. *)
Definition isWhiteSpace (c : ascii) : bool :=
  let n := N_of_ascii c in
  (((9 <=? n) && (n <=? 13)) || (n =? 32) || (n =? 160))%N.

Definition toLowerChar (c : ascii) : ascii :=
  let n := N_of_ascii c in
  if (((65 <=? n) && (n <=? 90))
      || ((192 <=? n) && (n <=? 222) && negb (n =? 215)))%N
  then ascii_of_N (n + 32)
  else c.

(** The class [[0-9a-f]] under the [i] flag. *)
Definition isHexDigit (c : ascii) : bool :=
  let n := N_of_ascii c in
  (((48 <=? n) && (n <=? 57)) || ((97 <=? n) && (n <=? 102))
   || ((65 <=? n) && (n <=? 70)))%N.

Fixpoint toLowerCase (s : string) : string :=
  match s with
  | EmptyString => EmptyString
  | String c r => String (toLowerChar c) (toLowerCase r)
  end.

Fixpoint trimStart (s : string) : string :=
  match s with
  | EmptyString => EmptyString
  | String c r => if isWhiteSpace c then trimStart r else s
  end.

Fixpoint trimEnd (s : string) : string :=
  match s with
  | EmptyString => EmptyString
  | String c r =>
      match trimEnd r with
      | EmptyString => if isWhiteSpace c then EmptyString else String c EmptyString
      | r' => String c r'
      end
  end.

Definition trim (s : string) : string := trimEnd (trimStart s).

(** [trimmed.match(/^#([0-9a-f]{3})$/i)]; the three digits of the group. *)
Definition shortHexMatch (s : string) : option (ascii * ascii * ascii) :=
  match s with
  | String h (String r (String g (String b EmptyString))) =>
      if Ascii.eqb h "#" && isHexDigit r && isHexDigit g && isHexDigit b
      then Some (r, g, b)
      else None
  | _ => None
  end.

Definition normalizeColorString (input : string) : string :=
  let trimmed := toLowerCase (trim input) in
  match shortHexMatch trimmed with
  | Some (r, g, b) =>
      String "#" (String r (String r (String g (String g (String b (String b EmptyString))))))
  | None => trimmed
  end.

(** [palette.findIndex(pred)]: [None] stands for -1. *)
Definition findIndex {A} (P : A -> Prop) `{forall a, Decision (P a)} (l : list A) : option nat :=
  fst <$> list_find P l.

Definition ensureColorInPalette (palette : list string) (color : string)
  : Result (list string * nat) :=
  let normalized := normalizeColorString color in
  match findIndex (fun c => normalizeColorString c = normalized) palette with
  | Some existingIndex => Ok (palette, existingIndex)
  | None =>
      if (256 <=? List.length palette)%nat
      then Err PaletteFull
      else
        let updatedPalette := (palette ++ [normalized])%list in
        Ok (updatedPalette, (List.length updatedPalette - 1)%nat)
  end.

(** ** The backend and the monad of the operations *)

(** The value at [canvas:v1] and the list at [canvas:events:v1].  An entry
    of the list is held as the client's [lrange] hands it back: the JSON
    text that [appendEventToLog] pushes comes back as the object it
    denotes, while an entry pushed by another writer may come back as a
    string (JSON text encoded once more) or as any other value. *)
Record Backend : Type := {
  canvasKey : option CanvasState;
  eventsList : list JsValue
}.

Definition M (A : Type) : Type := Backend -> Result A * Backend.

Definition ret {A} (a : A) : M A := fun b => (Ok a, b).

Definition throw {A} (e : Error) : M A := fun b => (Err e, b).

Definition bind {A B} (m : M A) (k : A -> M B) : M B :=
  fun b =>
    match m b with
    | (Ok a, b') => k a b'
    | (Err e, b') => (Err e, b')
    end.

Declare Scope canvas_scope.
Delimit Scope canvas_scope with canvas.
Notation "x <- m ;; k" := (bind m (fun x => k))
  (at level 100, m at next level, right associativity) : canvas_scope.
Notation "m ;; k" := (bind m (fun _ => k))
  (at level 100, right associativity) : canvas_scope.

(** A pure computation that may throw, run inside an operation. *)
Definition lift {A} (r : Result A) : M A :=
  match r with
  | Ok a => ret a
  | Err e => throw e
  end.

Definition redis_get : M (option CanvasState) :=
  fun b => (Ok (canvasKey b), b).

Definition redis_set (value : CanvasState) : M unit :=
  fun b => (Ok tt, {| canvasKey := Some value; eventsList := eventsList b |}).

Definition redis_rpush (value : JsValue) : M unit :=
  fun b => (Ok tt, {| canvasKey := canvasKey b; eventsList := (eventsList b ++ [value])%list |}).

Definition redis_llen : M Z :=
  fun b => (Ok (Z.of_nat (List.length (eventsList b))), b).

(** Redis LRANGE: inclusive bounds, negative offsets count from the tail,
    out-of-range bounds are clamped. *)
Definition listRange {A} (l : list A) (start stop : Z) : list A :=
  let llen := Z.of_nat (List.length l) in
  let start := if start <? 0 then llen + start else start in
  let stop := if stop <? 0 then llen + stop else stop in
  let start := if start <? 0 then 0 else start in
  if (stop <? start) || (llen <=? start) then []
  else
    let stop := if llen <=? stop then llen - 1 else stop in
    take (Z.to_nat (stop - start + 1)) (drop (Z.to_nat start) l).

(** The command is refused when a bound is not an integer. *)
Definition redis_lrange (start stop : Q) : M (list JsValue) :=
  fun b =>
    if isInteger start && isInteger stop
    then (Ok (listRange (eventsList b) (toInteger start) (toInteger stop)), b)
    else (Err BackendError, b).

(** ** EventLog *)

(** The entry that the text [JSON.stringify(event)] leaves in the list:
    the object that the text denotes, in which a property of [event] whose
    value is [undefined] is absent. *)
Definition definedField (field : string * JsValue) : bool :=
  match snd field with
  | JUndefined => false
  | _ => true
  end.

Definition stringifiedEvent (event : JsValue) : JsValue :=
  match event with
  | JObj fields => JObj (List.filter definedField fields)
  | value => value
  end.

Definition appendEventToLog (event : JsValue) : M unit :=
  redis_rpush (stringifiedEvent event).

(** The object literal of a [PixelSetEvent].  [color] is [palette[index]],
    which is [undefined] outside the palette. *)
Definition paletteAt (pal : list string) (index : nat) : JsValue :=
  match pal !! index with
  | Some c => JStr c
  | None => JUndefined
  end.

Definition pixelSetEvent (x y : Q) (color : JsValue) (colorIndex : nat)
    (timestampMs : Z) (source : option PixelSource) : JsValue :=
  JObj [ ("type", JStr "pixel_set");
         ("x", JNum x);
         ("y", JNum y);
         ("color", color);
         ("colorIndex", JNum (inject_Z (Z.of_nat colorIndex)));
         ("timestampMs", JNum (inject_Z timestampMs));
         ("source", JStr (sourceName (default system source))) ].

Definition truthy (v : JsValue) : bool :=
  match v with
  | JUndefined | JNull => false
  | JBool b => b
  | JNum q => negb (Qeq_bool q 0)
  | JStr s => negb (String.eqb s EmptyString)
  | JArr _ | JObj _ => true
  end.

(** [typeof v === "object"]. *)
Definition isObjectType (v : JsValue) : bool :=
  match v with
  | JNull | JArr _ | JObj _ => true
  | _ => false
  end.

(** [v === s] for a string literal [s]. *)
Definition strictEqString (v : JsValue) (s : string) : bool :=
  match v with
  | JStr t => String.eqb t s
  | _ => false
  end.

Definition Qmax (a b : Q) : Q := if Qle_bool a b then b else a.

Section EventLogReader.

(** [JSON.parse]: [None] when it throws. *)
Variable JSON_parse : string -> option JsValue.

(** The loop [for (let i = 0; i < 2; i++)] of the reader: a string is
    parsed and the loop continues; a string that does not parse, or any
    other value, ends it. *)
Fixpoint unwrapEncoded (rounds : nat) (value : JsValue) : JsValue :=
  match rounds with
  | O => value
  | S rounds' =>
      match value with
      | JStr s =>
          match JSON_parse s with
          | Some parsed => unwrapEncoded rounds' parsed
          | None => value
          end
      | _ => value
      end
  end.

(** The callback of [values.map]: [None] stands for [undefined]. *)
Definition parseLogEntry (raw : JsValue) : option JsValue :=
  let value := unwrapEncoded 2 raw in
  if negb (truthy value) || negb (isObjectType value) then None
  else
    let type :=
      match value with
      | JObj fields => getField "type" fields
      | _ => JUndefined
      end in
    if strictEqString type "pixel_set" then Some value
    else if strictEqString type "tool_used" then Some value
    else None.

Definition getCanvasEvents (limit : JsValue) : M (list JsValue) :=
  (let readAll : M (list JsValue) :=
     all <- redis_lrange 0 (-1) ;;
     ret (omap parseLogEntry all) in
   match limit with
   | JNum l =>
       if Qltb 0 l then
         len <- redis_llen ;;
         let start := Qmax 0 (inject_Z len - l) in
         values <- redis_lrange start (inject_Z len - 1) ;;
         ret (omap parseLogEntry values)
       else readAll
   | _ => readAll
   end)%canvas.

End EventLogReader.

(** ** CanvasStore and CanvasService *)

Definition getCanvas : M CanvasState :=
  (state <- redis_get ;;
   match state with
   | Some s => ret s
   | None =>
       let m := {| width := 64; height := 64; palette := DEFAULT_PALETTE |} in
       pixels <- lift (createEmptyPixels (width m) (height m) 0) ;;
       let initial := {| meta := m; pixelsBase64 := encodePixelsToBase64 pixels |} in
       redis_set initial ;;
       ret initial
   end)%canvas.

(** [x < 0 || y < 0 || x >= width || y >= height]. *)
Definition outOfBounds (x y : Q) (w h : Z) : bool :=
  Qltb x 0 || Qltb y 0 || Qle_bool (inject_Z w) x || Qle_bool (inject_Z h) y.

(** [color.trim().length === 0]; the argument is a string by its type. *)
Definition emptyColor (color : string) : bool :=
  (String.length (trim color) =? 0)%nat.

Definition setPixel (x y : Q) (color : string) (source : option PixelSource) (now : Z)
  : M CanvasState :=
  (current <- getCanvas ;;
   let w := width (meta current) in
   let h := height (meta current) in
   let pal := palette (meta current) in
   if outOfBounds x y w h then throw OutOfBounds
   else if emptyColor color then throw InvalidColor
   else
     ensured <- lift (ensureColorInPalette pal color) ;;
     let pal := fst ensured in
     let indexToSet := snd ensured in
     pixels <- lift (decodePixelsFromBase64 (pixelsBase64 current) (w * h)) ;;
     let pixels := typedArraySet pixels (indexFor x y w) (Z.of_nat indexToSet) in
     let updated :=
       {| meta := {| width := w; height := h; palette := pal |};
          pixelsBase64 := encodePixelsToBase64 pixels |} in
     redis_set updated ;;
     let normalizedColor := paletteAt pal indexToSet in
     appendEventToLog (pixelSetEvent x y normalizedColor indexToSet now source) ;;
     ret updated)%canvas.

Record PixelUpdate : Type := {
  upd_x : Q;
  upd_y : Q;
  upd_color : string
}.

(** One turn of the first loop of [setPixels], on the palette and the
    decoded grid. *)
Definition applyUpdate (w h : Z) (acc : list string * list byte) (update : PixelUpdate)
  : Result (list string * list byte) :=
  let x := upd_x update in
  let y := upd_y update in
  let color := upd_color update in
  if negb (isInteger x) || negb (isInteger y) || outOfBounds x y w h
  then Err OutOfBounds
  else if emptyColor color then Err InvalidColor
  else
    match ensureColorInPalette (fst acc) color with
    | Err e => Err e
    | Ok ensured =>
        Ok (fst ensured,
            typedArraySet (snd acc) (indexFor x y w) (Z.of_nat (snd ensured)))
    end.

Fixpoint applyUpdates (w h : Z) (acc : list string * list byte) (updates : list PixelUpdate)
  : Result (list string * list byte) :=
  match updates with
  | [] => Ok acc
  | update :: rest =>
      match applyUpdate w h acc update with
      | Ok acc' => applyUpdates w h acc' rest
      | Err e => Err e
      end
  end.

(** The second loop of [setPixels]: one event per update, its index looked
    up again in the final palette. *)
Fixpoint appendPixelEvents (pal : list string) (source : option PixelSource) (now : Z)
    (updates : list PixelUpdate) : M unit :=
  match updates with
  | [] => ret tt
  | update :: rest =>
      (ensured <- lift (ensureColorInPalette pal (upd_color update)) ;;
       let colorIndex := snd ensured in
       let normalizedColor := paletteAt pal colorIndex in
       appendEventToLog
         (pixelSetEvent (upd_x update) (upd_y update) normalizedColor colorIndex now source) ;;
       appendPixelEvents pal source now rest)%canvas
  end.

Definition setPixels (updates : list PixelUpdate) (source : option PixelSource) (now : Z)
  : M CanvasState :=
  (if (List.length updates =? 0)%nat then throw EmptyBatch
   else
     current <- getCanvas ;;
     let w := width (meta current) in
     let h := height (meta current) in
     pixels <- lift (decodePixelsFromBase64 (pixelsBase64 current) (w * h)) ;;
     applied <- lift (applyUpdates w h (palette (meta current), pixels) updates) ;;
     let updated :=
       {| meta := {| width := w; height := h; palette := fst applied |};
          pixelsBase64 := encodePixelsToBase64 (snd applied) |} in
     redis_set updated ;;
     appendPixelEvents (fst applied) source now updates ;;
     ret updated)%canvas.

Definition resetCanvas (width' height' : option Q) (palette' : option (list string))
  : M CanvasState :=
  (existing <- getCanvas ;;
   let w := default (inject_Z (width (meta existing))) width' in
   let h := default (inject_Z (height (meta existing))) height' in
   let pal := default (palette (meta existing)) palette' in
   if negb (isInteger w) || negb (isInteger h) || Qle_bool w 0 || Qle_bool h 0
   then throw InvalidDimensions
   else
     let m := {| width := toInteger w; height := toInteger h; palette := pal |} in
     pixels <- lift (createEmptyPixels (toInteger w) (toInteger h) 0) ;;
     let updated := {| meta := m; pixelsBase64 := encodePixelsToBase64 pixels |} in
     redis_set updated ;;
     ret updated)%canvas.

(** The canvas a reader sees: the stored state, or the default canvas that
    [getCanvas] creates when the key is absent. *)
Definition initialCanvas : CanvasState :=
  {| meta := {| width := 64; height := 64; palette := DEFAULT_PALETTE |};
     pixelsBase64 := encodePixelsToBase64 (replicate 4096 x00) |}.

Definition currentCanvas (b : Backend) : CanvasState :=
  default initialCanvas (canvasKey b).

Definition emptyBackend : Backend :=
  {| canvasKey := None; eventsList := [] |}.

(** ** Vocabulary of the properties *)

(** A string that does not start with white space. *)
Definition cleanStart (s : string) : Prop :=
  match s with
  | EmptyString => True
  | String c _ => isWhiteSpace c = false
  end.

(** What [toLowerCase (trim _)] produces, and leaves alone. *)
Definition trimmedLower (s : string) : Prop :=
  trim s = s /\ toLowerCase s = s.


(** The index at which a palette holds a colour, compared after
    normalisation ([None] when it holds none). *)
Definition indexOfColor (pal : list string) (color : string) : option nat :=
  findIndex (fun c => normalizeColorString c = normalizeColorString color) pal.

(** The backend after the lazy initialisation of [getCanvas]: the canvas
    key holds the canvas a reader sees. *)
Definition initialised (b : Backend) : Backend :=
  {| canvasKey := Some (currentCanvas b); eventsList := eventsList b |}.

(** The checks of the first loop of [setPixels] on one update. *)
Definition failsValidation (w h : Z) (update : PixelUpdate) : bool :=
  negb (isInteger (upd_x update)) || negb (isInteger (upd_y update))
  || outOfBounds (upd_x update) (upd_y update) w h
  || emptyColor (upd_color update).

(** [typeof limit === "number" && limit > 0]. *)
Definition isPositiveNumber (limit : JsValue) : bool :=
  match limit with
  | JNum l => Qltb 0 l
  | _ => false
  end.

(** The operations of the service on the canvas, and the backend each
    leaves behind. *)
Inductive Operation : Type :=
| OpGetCanvas
| OpSetPixel (x y : Q) (color : string) (source : option PixelSource) (now : Z)
| OpSetPixels (updates : list PixelUpdate) (source : option PixelSource) (now : Z)
| OpResetCanvas (width' height' : option Q) (palette' : option (list string)).

Definition runOperation (op : Operation) (b : Backend) : Backend :=
  match op with
  | OpGetCanvas => snd (getCanvas b)
  | OpSetPixel x y color source now => snd (setPixel x y color source now b)
  | OpSetPixels updates source now => snd (setPixels updates source now b)
  | OpResetCanvas w h pal => snd (resetCanvas w h pal b)
  end.

Definition paletteOf (b : Backend) : list string :=
  palette (meta (currentCanvas b)).

(** The index a colour has in a palette that holds it. *)
Definition finalIndex (pal : list string) (color : string) : nat :=
  default 0%nat (indexOfColor pal color).

(** The write and the event of one update, with the index its colour has
    in the palette [pal]. *)
Definition writeUpdate (w : Z) (pal : list string) (pixels : list byte)
    (update : PixelUpdate) : list byte :=
  typedArraySet pixels (indexFor (upd_x update) (upd_y update) w)
    (Z.of_nat (finalIndex pal (upd_color update))).

Definition eventOfUpdate (pal : list string) (source : option PixelSource) (now : Z)
    (update : PixelUpdate) : JsValue :=
  let i := finalIndex pal (upd_color update) in
  pixelSetEvent (upd_x update) (upd_y update) (paletteAt pal i) i now source.

(** A palette of 256 distinct colours, the canvas that [resetCanvas] stores
    for it, and a batch whose first update brings a new colour and whose
    second lies outside the grid. *)
Definition hexDigitChar (n : nat) : ascii :=
  default "0"%char (String.get n "0123456789abcdef").

Definition palette256 : list string :=
  (fun n => String "#" (String "0" (String "0" (String "0" (String "0"
     (String (hexDigitChar (n / 16)) (String (hexDigitChar (n mod 16)) EmptyString)))))))
  <$> seq 0 256.

Definition fullPaletteBackend : Backend :=
  snd (resetCanvas None None (Some palette256) emptyBackend).

Definition overflowingBatch : list PixelUpdate :=
  [ {| upd_x := 0; upd_y := 0; upd_color := "#abcdef" |};
    {| upd_x := 64; upd_y := 0; upd_color := "#ffffff" |} ].

(** A small log for the examples: an event, an entry that is no event, an
    event stored as JSON text (which the stand-in for [JSON.parse] below
    decodes), and another event. *)
Definition sampleToolEvent : JsValue :=
  JObj [ ("type", JStr "tool_used"); ("toolName", JStr "get_canvas");
         ("argsJson", JStr "{}"); ("timestampMs", JNum 1700000000000) ].

Definition sampleParse (text : string) : option JsValue :=
  if String.eqb text "tool-event-text" then Some sampleToolEvent else None.

Definition sampleBackend : Backend :=
  {| canvasKey := None;
     eventsList :=
       [ pixelSetEvent 1 2 (JStr "#ff0000") 16 1700000000001 (Some mcp);
         JNum 7;
         JStr "tool-event-text";
         pixelSetEvent 3 4 (JStr "#FFFFFF") 0 1700000000002 None ] |}.

(** ** The audit entries of the tools *)

Inductive ToolName : Type := get_canvas | set_pixel | set_pixels | get_events.

Definition toolNameText (t : ToolName) : string :=
  match t with
  | get_canvas => "get_canvas"
  | set_pixel => "set_pixel"
  | set_pixels => "set_pixels"
  | get_events => "get_events"
  end.

(** What [JSON.stringify] gives: a text, [undefined] (for a value with no
    JSON form), or an exception. *)
Inductive Stringified : Type :=
| StringifiedText (text : string)
| StringifiedUndefined
| StringifyThrows.

(** The text ["[unserializable]"] with its two quotation marks. *)
Definition unserializableText : string :=
  String "034" ("[unserializable]" ++ String "034" EmptyString).

(** The object literal of a [ToolUsedEvent].  [appendEventToLog] stores
    what its JSON text denotes, which has no [argsJson] property when
    [argsJson] is [undefined]. *)
Definition toolUsedEvent (toolName : ToolName) (argsJson : JsValue) (timestampMs : Z)
  : JsValue :=
  JObj [ ("type", JStr "tool_used");
         ("toolName", JStr (toolNameText toolName));
         ("argsJson", argsJson);
         ("timestampMs", JNum (inject_Z timestampMs)) ].

Section ToolLog.

Variable JSON_stringify : JsValue -> Stringified.

Definition logToolUsed (toolName : ToolName) (args : JsValue) (now : Z) : M unit :=
  let argsJson :=
    match JSON_stringify args with
    | StringifiedText text => JStr text
    | StringifiedUndefined => JUndefined
    | StringifyThrows => JStr unserializableText
    end in
  appendEventToLog (toolUsedEvent toolName argsJson now).

End ToolLog.

(** The error an operation ends with, if any. *)
Definition resultError {A} (r : Result A) : option Error :=
  match r with
  | Ok _ => None
  | Err e => Some e
  end.

Definition operationError (op : Operation) (b : Backend) : option Error :=
  match op with
  | OpGetCanvas => resultError (fst (getCanvas b))
  | OpSetPixel x y color source now => resultError (fst (setPixel x y color source now b))
  | OpSetPixels updates source now => resultError (fst (setPixels updates source now b))
  | OpResetCanvas w h pal => resultError (fst (resetCanvas w h pal b))
  end.

(** The grid a stored state decodes to, whatever its length. *)
Definition gridOf (st : CanvasState) : list byte :=
  bufferFromBase64 (pixelsBase64 st).

(** The cell of the grid for integer coordinates. *)
Definition cellIndex (x y w : Z) : nat := Z.to_nat (y * w + x).

(** A caller that issues the updates of a batch one [setPixel] at a time. *)
Fixpoint setPixelEach (updates : list PixelUpdate) (source : option PixelSource) (now : Z)
  : M unit :=
  match updates with
  | [] => ret tt
  | update :: rest =>
      (_ <- setPixel (upd_x update) (upd_y update) (upd_color update) source now ;;
       setPixelEach rest source now)%canvas
  end.

(** The cell an update addresses in a grid of width [w]. *)
Definition updateCell (w : Z) (update : PixelUpdate) : nat :=
  Z.to_nat (toInteger (indexFor (upd_x update) (upd_y update) w)).

(** The state the service stores for a palette and a grid. *)
Definition storedCanvas (w h : Z) (pal : list string) (grid : list byte) : CanvasState :=
  {| meta := {| width := w; height := h; palette := pal |};
     pixelsBase64 := encodePixelsToBase64 grid |}.


(** The invariants of the data model: positive dimensions, a grid of
    exactly [width * height] cells, every cell an index into the palette,
    and at most 256 colours. *)
Definition canvasInvariant (st : CanvasState) : Prop :=
  0 < width (meta st) /\ 0 < height (meta st)
  /\ Z.of_nat (List.length (gridOf st)) = width (meta st) * height (meta st)
  /\ Forall (fun cell => (N.to_nat (Byte.to_N cell) < List.length (palette (meta st)))%nat)
       (gridOf st)
  /\ (List.length (palette (meta st)) <= 256)%nat.

(** The operations that keep them: all but a reset that brings a palette
    which is empty or longer than 256 entries. *)
Definition keepsPalette (op : Operation) : Prop :=
  match op with
  | OpResetCanvas _ _ (Some pal) => pal <> [] /\ (List.length pal <= 256)%nat
  | _ => True
  end.

(** A history of operations, run from a backend. *)
Definition runOperations (ops : list Operation) (b : Backend) : Backend :=
  fold_left (fun b' op => runOperation op b') ops b.

(** An object whose [type] property is one of the two event tags. *)
Definition isEventObject (v : JsValue) : Prop :=
  exists fields,
    v = JObj fields
    /\ (getField "type" fields = JStr "pixel_set"
        \/ getField "type" fields = JStr "tool_used").

(** ** The page: validating and showing events *)

(** [value.name] on any value. *)
Definition getProperty (value : JsValue) (name : string) : JsValue :=
  match value with
  | JObj fields => getField name fields
  | _ => JUndefined
  end.

Definition isArray (v : JsValue) : bool :=
  match v with JArr _ => true | _ => false end.

(** [typeof v === "number"] and [typeof v === "string"]. *)
Definition isNumberType (v : JsValue) : bool :=
  match v with JNum _ => true | _ => false end.

Definition isStringType (v : JsValue) : bool :=
  match v with JStr _ => true | _ => false end.

Definition isRecord (value : JsValue) : bool :=
  truthy value && isObjectType value && negb (isArray value).

Definition isCanvasEvent (value : JsValue) : bool :=
  if negb (isRecord value) then false
  else
    let type := getProperty value "type" in
    if strictEqString type "pixel_set" then
      isNumberType (getProperty value "x")
      && isNumberType (getProperty value "y")
      && isStringType (getProperty value "color")
      && isNumberType (getProperty value "colorIndex")
      && isNumberType (getProperty value "timestampMs")
      && (strictEqString (getProperty value "source") "mcp"
          || strictEqString (getProperty value "source") "api"
          || strictEqString (getProperty value "source") "script"
          || strictEqString (getProperty value "source") "system")
    else if strictEqString type "tool_used" then
      (strictEqString (getProperty value "toolName") "get_canvas"
       || strictEqString (getProperty value "toolName") "set_pixel"
       || strictEqString (getProperty value "toolName") "set_pixels"
       || strictEqString (getProperty value "toolName") "get_events")
      && isStringType (getProperty value "argsJson")
      && isNumberType (getProperty value "timestampMs")
    else false.

(** The decimal text of an integer, as a template literal prints it. *)
Definition numberText (n : Z) : string :=
  NilZero.string_of_int (Z.to_int n).

(** [formatTimeAgo], with the reading of [Date.now()] as an argument; times
    are integer milliseconds. *)
Definition formatTimeAgo (now timestampMs : Z) : string :=
  let diff := now - timestampMs in
  if diff <? 0 then "now"
  else
    let sec := diff / 1000 in
    if sec <? 5 then "just now"
    else if sec <? 60 then numberText sec ++ "s ago"
    else
      let min := sec / 60 in
      if min <? 60 then numberText min ++ "m ago"
      else
        let hr := min / 60 in
        if hr <? 24 then numberText hr ++ "h ago"
        else
          let day := hr / 24 in
          numberText day ++ "d ago".

(** [text.replace(/\/+$/, "")]: the text without its final run of
    slashes. *)
Fixpoint stripTrailingSlashes (text : string) : string :=
  match text with
  | EmptyString => EmptyString
  | String c rest =>
      match stripTrailingSlashes rest with
      | EmptyString => if Ascii.eqb c "/" then EmptyString else String c EmptyString
      | rest' => String c rest'
      end
  end.

(** [getMcpUrl]; the argument is [window.location.href], or [None] where
    there is no [window]. *)
Definition getMcpUrl (href : option string) : string :=
  match href with
  | None => "/mcp"
  | Some location => stripTrailingSlashes location ++ "/mcp"
  end.

(** A run of [k] slashes. *)
Fixpoint slashes (k : nat) : string :=
  match k with
  | O => EmptyString
  | S k' => String "/" (slashes k')
  end.

(** ** The tools of the MCP route *)

(** The handlers, up to the rendering of their answer: each returns the
    value it serialises.  The arguments have passed the schema of the tool;
    the two clock readings are the one of the audit entry and the one of
    the operation. *)
Section Tools.

Variable JSON_stringify : JsValue -> Stringified.
Variable JSON_parse : string -> option JsValue.

Definition updateObject (update : PixelUpdate) : JsValue :=
  JObj [ ("x", JNum (upd_x update)); ("y", JNum (upd_y update));
         ("color", JStr (upd_color update)) ].

Definition getCanvasTool (showUI : bool) (logTime : Z) : M CanvasState :=
  (logToolUsed JSON_stringify get_canvas (JObj [ ("showUI", JBool showUI) ]) logTime ;;
   getCanvas)%canvas.

Definition setPixelTool (x y : Q) (color : string) (logTime now : Z) : M CanvasState :=
  (logToolUsed JSON_stringify set_pixel
     (JObj [ ("x", JNum x); ("y", JNum y); ("color", JStr color) ]) logTime ;;
   setPixel x y color (Some mcp) now)%canvas.

Definition setPixelsTool (updates : list PixelUpdate) (logTime now : Z) : M CanvasState :=
  (logToolUsed JSON_stringify set_pixels
     (JObj [ ("updates", JArr (updateObject <$> updates)) ]) logTime ;;
   setPixels updates (Some mcp) now)%canvas.

Definition getEventsTool (limit : JsValue) (logTime : Z) : M (list JsValue) :=
  (logToolUsed JSON_stringify get_events (JObj [ ("limit", limit) ]) logTime ;;
   getCanvasEvents JSON_parse limit)%canvas.

End Tools.

(** The schema of [get_events]: the limit is omitted or a positive
    integer. *)
Definition limitInSchema (limit : JsValue) : Prop :=
  limit = JUndefined \/ exists n, 0 < n /\ limit = JNum (inject_Z n).

(** ** The HTTP route and the script that list events *)

Section Listing.

(** [Number(text)] when it is finite; [None] for NaN and the infinities. *)
Variable finiteNumber : string -> option Q.
Variable JSON_parse : string -> option JsValue.

(** [GET /api/canvas/events]; the argument is the [limit] parameter of the
    query, [None] when absent.  Returns the list it puts in the answer. *)
Definition eventsRoute (limitParam : option string) : M (list JsValue) :=
  let limit :=
    match limitParam with
    | Some text =>
        if String.eqb text EmptyString then None else finiteNumber text
    | None => None
    end in
  getCanvasEvents JSON_parse
    (match limit with Some q => JNum q | None => JUndefined end).

(** [scripts/get-events]; the argument is [Number(process.argv[2])] when
    it is finite.  Returns the list it prints. *)
Definition getEventsScript (arg : option Q) : M (list JsValue) :=
  let limit :=
    match arg with
    | Some q => if Qltb 0 q then q else 100%Q
    | None => 100%Q
    end in
  getCanvasEvents JSON_parse (JNum limit).

End Listing.

(** ** The page: decoding and painting the grid *)

(** The browser's [atob] (forgiving base64): ASCII white space is removed;
    when the length is a multiple of four, one or two final [=] are
    removed; a length one more than a multiple of four, or a character
    outside the standard alphabet, makes it throw ([None]); the remaining
    characters give six bits each and the bits left over are dropped. *)
Definition isAsciiWhitespace (c : ascii) : bool :=
  let n := N_of_ascii c in
  ((n =? 9) || (n =? 10) || (n =? 12) || (n =? 13) || (n =? 32))%N.

Fixpoint removeWhitespace (s : string) : string :=
  match s with
  | EmptyString => EmptyString
  | String c rest =>
      if isAsciiWhitespace c then removeWhitespace rest
      else String c (removeWhitespace rest)
  end.

Fixpoint removeFinalEquals (s : string) : string :=
  match s with
  | EmptyString => EmptyString
  | String c EmptyString => if Ascii.eqb c "=" then EmptyString else s
  | String c rest => String c (removeFinalEquals rest)
  end.

Definition standardSextet (c : ascii) : option sextet :=
  let n := N_of_ascii c in
  (if (65 <=? n) && (n <=? 90) then Some (sextetOfN (n - 65))
   else if (97 <=? n) && (n <=? 122) then Some (sextetOfN (n - 71))
   else if (48 <=? n) && (n <=? 57) then Some (sextetOfN (n + 4))
   else if n =? 43 then Some (sextetOfN 62)
   else if n =? 47 then Some (sextetOfN 63)
   else None)%N.

Fixpoint standardSextets (s : string) : option (list sextet) :=
  match s with
  | EmptyString => Some []
  | String c rest =>
      match standardSextet c, standardSextets rest with
      | Some v, Some vs => Some (v :: vs)
      | _, _ => None
      end
  end.

Definition atob (data : string) : option (list byte) :=
  let data := removeWhitespace data in
  let data :=
    if (String.length data mod 4 =? 0)%nat
    then removeFinalEquals (removeFinalEquals data)
    else data in
  if (String.length data mod 4 =? 1)%nat then None
  else
    match standardSextets data with
    | Some values => Some (sextetsToBytes values)
    | None => None
    end.

(** [decodePixelsFromBase64] of the page: the character codes of
    [atob(base64)], or an empty array where there is no [window]. *)
Definition pageDecodePixels (hasWindow : bool) (base64 : string) : option (list byte) :=
  if negb hasWindow then Some [] else atob base64.

(** The fill style of the cell [(x, y)] in the drawing loop:
    [palette[pixels[y * width + x] ?? 0] ?? "#000000"]. *)
Definition paintedColor (st : CanvasState) (pixels : list byte) (x y : Z) : string :=
  let idx := y * width (meta st) + x in
  let colorIndex :=
    match (if idx <? 0 then None else pixels !! Z.to_nat idx) with
    | Some cell => N.to_nat (Byte.to_N cell)
    | None => 0%nat
    end in
  default "#000000" (palette (meta st) !! colorIndex).

(** The sextets of a byte sequence, without the padding, and their text. *)
Definition sextets3 (x y z : byte) : list sextet :=
  let '(x7, x6, x5, x4, x3, x2, x1, x0) := byteBits x in
  let '(y7, y6, y5, y4, y3, y2, y1, y0) := byteBits y in
  let '(z7, z6, z5, z4, z3, z2, z1, z0) := byteBits z in
  [ (x7, x6, x5, x4, x3, x2); (x1, x0, y7, y6, y5, y4);
    (y3, y2, y1, y0, z7, z6); (z5, z4, z3, z2, z1, z0) ].

Definition sextets2 (x y : byte) : list sextet :=
  let '(x7, x6, x5, x4, x3, x2, x1, x0) := byteBits x in
  let '(y7, y6, y5, y4, y3, y2, y1, y0) := byteBits y in
  [ (x7, x6, x5, x4, x3, x2); (x1, x0, y7, y6, y5, y4);
    (y3, y2, y1, y0, false, false) ].

Definition sextets1 (x : byte) : list sextet :=
  let '(x7, x6, x5, x4, x3, x2, x1, x0) := byteBits x in
  [ (x7, x6, x5, x4, x3, x2); (x1, x0, false, false, false, false) ].

Fixpoint bytesToSextets (bs : list byte) : list sextet :=
  match bs with
  | x :: y :: z :: rest => (sextets3 x y z ++ bytesToSextets rest)%list
  | [x; y] => sextets2 x y
  | [x] => sextets1 x
  | [] => []
  end.

Fixpoint sextetText (values : list sextet) : string :=
  match values with
  | [] => EmptyString
  | v :: rest => String (base64Char v) (sextetText rest)
  end.

Fixpoint paddingOf (bs : list byte) : string :=
  match bs with
  | _ :: _ :: _ :: rest => paddingOf rest
  | [_; _] => "="
  | [_] => "=="
  | [] => EmptyString
  end.

(** What the encoder produces, three bytes at a time: the text of the
    sextets, then the padding; with the shape of each. *)
Definition encodedShape (bs : list byte) : Prop :=
  bufferToBase64 bs = sextetText (bytesToSextets bs) ++ paddingOf bs
  /\ sextetsToBytes (bytesToSextets bs) = bs
  /\ exists k,
       (List.length (bytesToSextets bs) = 4 * k /\ paddingOf bs = EmptyString)%nat
       \/ (List.length (bytesToSextets bs) = 4 * k + 3 /\ paddingOf bs = "=")%nat
       \/ (List.length (bytesToSextets bs) = 4 * k + 2 /\ paddingOf bs = "==")%nat.


(** A string made of white space only (the empty string included). *)
Fixpoint allWhiteSpace (s : string) : bool :=
  match s with
  | EmptyString => true
  | String c rest => isWhiteSpace c && allWhiteSpace rest
  end.

(** * Properties *)

(** ** PixelCodec: the base64 round trip *)

Section Base64.

Lemma unbase64_base64Char (s : sextet) : unbase64 (base64Char s) = Some s.
Proof.
  destruct s as [[[[[b5 b4] b3] b2] b1] b0].
  destruct b5, b4, b3, b2, b1, b0; reflexivity.
Qed.

Lemma bitsByte_byteBits (x : byte) : bitsByte (byteBits x) = x.
Proof.
  unfold bitsByte, byteBits.
  destruct (Byte.to_bits x) as (x0 & x1 & x2 & x3 & x4 & x5 & x6 & x7) eqn:E.
  rewrite <- E. apply Byte.of_bits_to_bits.
Qed.

Ltac split_bits x E :=
  destruct (byteBits x) as [[[[[[[? ?] ?] ?] ?] ?] ?] ?] eqn:E.

Ltac read_sextets :=
  lazy beta iota delta [String.append];
  cbn [base64Sextets];
  rewrite ?unbase64_base64Char;
  cbn [base64Sextets].

Lemma decode_group3 (x y z : byte) (s : string) :
  sextetsToBytes (base64Sextets (encodeGroup3 x y z ++ s))
  = x :: y :: z :: sextetsToBytes (base64Sextets s).
Proof.
  unfold encodeGroup3.
  split_bits x Ex. split_bits y Ey. split_bits z Ez.
  read_sextets.
  cbn [sextetsToBytes decodeByte1 decodeByte2 decodeByte3].
  rewrite <- Ex, <- Ey, <- Ez, !bitsByte_byteBits.
  reflexivity.
Qed.

Lemma decode_group2 (x y : byte) :
  sextetsToBytes (base64Sextets (encodeGroup2 x y)) = [x; y].
Proof.
  unfold encodeGroup2.
  split_bits x Ex. split_bits y Ey.
  read_sextets.
  change (unbase64 "=") with (@None sextet).
  cbn [Ascii.eqb Bool.eqb sextetsToBytes decodeByte1 decodeByte2].
  rewrite <- Ex, <- Ey, !bitsByte_byteBits.
  reflexivity.
Qed.

Lemma decode_group1 (x : byte) :
  sextetsToBytes (base64Sextets (encodeGroup1 x)) = [x].
Proof.
  unfold encodeGroup1.
  split_bits x Ex.
  read_sextets.
  change (unbase64 "=") with (@None sextet).
  cbn [Ascii.eqb Bool.eqb sextetsToBytes decodeByte1].
  rewrite <- Ex, !bitsByte_byteBits.
  reflexivity.
Qed.

(** The encoder consumes three bytes per step, so the induction carries the
    statement for a list and for the list with one and two bytes in front. *)
Lemma base64_roundtrip_by3 (bs : list byte) :
  bufferFromBase64 (bufferToBase64 bs) = bs
  /\ (forall x, bufferFromBase64 (bufferToBase64 (x :: bs)) = x :: bs)
  /\ (forall x y, bufferFromBase64 (bufferToBase64 (x :: y :: bs)) = x :: y :: bs).
Proof.
  unfold bufferFromBase64.
  induction bs as [|z bs (IH0 & IH1 & IH2)].
  - split; [reflexivity|].
    split; intros; [apply decode_group1 | apply decode_group2].
  - split; [apply IH1|].
    split; [intros x; apply IH2|].
    intros x y.
    change (bufferToBase64 (x :: y :: z :: bs))
      with (encodeGroup3 x y z ++ bufferToBase64 bs).
    rewrite decode_group3, IH0. reflexivity.
Qed.

Lemma base64_roundtrip (bs : list byte) :
  bufferFromBase64 (bufferToBase64 bs) = bs.
Proof. apply base64_roundtrip_by3. Qed.

End Base64.

Lemma decodePixels_encodePixels (grid : list byte) :
  decodePixelsFromBase64 (encodePixelsToBase64 grid) (Z.of_nat (List.length grid)) = Ok grid.
Proof.
  unfold decodePixelsFromBase64, encodePixelsToBase64.
  rewrite base64_roundtrip, Z.eqb_refl. reflexivity.
Qed.

(** C7. For every pixel grid, decoding its encoding with the grid's own
    length as expected length gives the grid back; and for every text and
    expected length, decoding fails (with the length-mismatch error) exactly
    when the number of decoded bytes differs from the expected length, and
    returns the decoded bytes otherwise. *)
Theorem pixel_codec_roundtrip :
  (forall grid : list byte,
      decodePixelsFromBase64 (encodePixelsToBase64 grid) (Z.of_nat (List.length grid))
      = Ok grid)
  /\ (forall (text : string) (expectedLength : Z),
         (decodePixelsFromBase64 text expectedLength = Err LengthMismatch
          <-> Z.of_nat (List.length (bufferFromBase64 text)) <> expectedLength)
         /\ (Z.of_nat (List.length (bufferFromBase64 text)) = expectedLength
             -> decodePixelsFromBase64 text expectedLength = Ok (bufferFromBase64 text))
         /\ (forall e, decodePixelsFromBase64 text expectedLength = Err e
                       -> e = LengthMismatch)).
Proof.
  split; [exact decodePixels_encodePixels|].
  intros text n. unfold decodePixelsFromBase64.
  destruct (Z.eqb_spec (Z.of_nat (List.length (bufferFromBase64 text))) n) as [E|E];
    cbn [negb].
  - repeat split; intros; congruence.
  - repeat split; intros; congruence.
Qed.

(** ** PaletteManager: normalisation is idempotent *)

Section Normalisation.

Ltac each_char c := destruct c as [[] [] [] [] [] [] [] []].

Lemma isWhiteSpace_toLowerChar c : isWhiteSpace (toLowerChar c) = isWhiteSpace c.
Proof. each_char c; reflexivity. Qed.

Lemma toLowerChar_idemp c : toLowerChar (toLowerChar c) = toLowerChar c.
Proof. each_char c; reflexivity. Qed.

Lemma isHexDigit_not_space c : isHexDigit c = true -> isWhiteSpace c = false.
Proof. each_char c; intros H; first [reflexivity | discriminate H]. Qed.

Lemma toLowerCase_idemp s : toLowerCase (toLowerCase s) = toLowerCase s.
Proof.
  induction s as [|c s IH]; cbn [toLowerCase]; [reflexivity|].
  rewrite toLowerChar_idemp, IH. reflexivity.
Qed.

Lemma trimStart_toLowerCase s : trimStart (toLowerCase s) = toLowerCase (trimStart s).
Proof.
  induction s as [|c s IH]; cbn [toLowerCase trimStart]; [reflexivity|].
  rewrite isWhiteSpace_toLowerChar.
  destruct (isWhiteSpace c); [exact IH | reflexivity].
Qed.

Lemma trimEnd_toLowerCase s : trimEnd (toLowerCase s) = toLowerCase (trimEnd s).
Proof.
  induction s as [|c s IH]; cbn [toLowerCase trimEnd]; [reflexivity|].
  rewrite IH, isWhiteSpace_toLowerChar.
  destruct (trimEnd s) as [|d r]; cbn [toLowerCase].
  - destruct (isWhiteSpace c); reflexivity.
  - reflexivity.
Qed.

Lemma trim_toLowerCase s : trim (toLowerCase s) = toLowerCase (trim s).
Proof. unfold trim. rewrite trimStart_toLowerCase. apply trimEnd_toLowerCase. Qed.

Lemma trimStart_cleanStart s : cleanStart (trimStart s).
Proof.
  induction s as [|c s IH]; cbn [trimStart]; [exact I|].
  destruct (isWhiteSpace c) eqn:E; [exact IH | exact E].
Qed.

Lemma trimStart_fixed s : cleanStart s -> trimStart s = s.
Proof.
  destruct s as [|c s]; cbn [cleanStart trimStart]; [reflexivity|].
  intros ->. reflexivity.
Qed.

Lemma trimEnd_cleanStart s : cleanStart s -> cleanStart (trimEnd s).
Proof.
  destruct s as [|c s]; cbn [cleanStart trimEnd]; [trivial|].
  intros E. rewrite E. destruct (trimEnd s); exact E.
Qed.

Lemma trimEnd_idemp s : trimEnd (trimEnd s) = trimEnd s.
Proof.
  induction s as [|c s IH]; cbn [trimEnd]; [reflexivity|].
  destruct (trimEnd s) as [|d r] eqn:E.
  - destruct (isWhiteSpace c) eqn:Ec; cbn [trimEnd]; [reflexivity|].
    rewrite Ec. reflexivity.
  - cbn [trimEnd]. cbn [trimEnd] in IH.
    rewrite IH. reflexivity.
Qed.

Lemma trim_idemp s : trim (trim s) = trim s.
Proof.
  unfold trim.
  rewrite (trimStart_fixed (trimEnd (trimStart s))).
  - apply trimEnd_idemp.
  - apply trimEnd_cleanStart, trimStart_cleanStart.
Qed.

Lemma trimmedLower_intro s : trimmedLower (toLowerCase (trim s)).
Proof.
  split.
  - rewrite trim_toLowerCase, trim_idemp. reflexivity.
  - apply toLowerCase_idemp.
Qed.

Lemma shortHex_expansion_fixed h r g b :
  Ascii.eqb h "#" = true ->
  isHexDigit r = true -> isHexDigit g = true -> isHexDigit b = true ->
  toLowerCase (String h (String r (String g (String b EmptyString))))
  = String h (String r (String g (String b EmptyString))) ->
  let wide := String "#" (String r (String r (String g (String g (String b (String b EmptyString)))))) in
  toLowerCase (trim wide) = wide /\ shortHexMatch wide = None.
Proof.
  intros Hh Hr Hg Hb Hlow wide. subst wide.
  cbn [toLowerCase] in Hlow.
  injection Hlow as _ Lr Lg Lb.
  pose proof (isHexDigit_not_space _ Hr) as Wr.
  pose proof (isHexDigit_not_space _ Hg) as Wg.
  pose proof (isHexDigit_not_space _ Hb) as Wb.
  split; [|reflexivity].
  unfold trim. cbn [trimStart].
  change (isWhiteSpace "#") with false. cbn iota.
  cbn [trimEnd]. rewrite Wb. cbn [toLowerCase].
  rewrite Lr, Lg, Lb. reflexivity.
Qed.

Lemma normalizeColorString_idemp (color : string) :
  normalizeColorString (normalizeColorString color) = normalizeColorString color.
Proof.
  unfold normalizeColorString at 2 3.
  destruct (trimmedLower_intro color) as [Ht Hl].
  set (trimmed := toLowerCase (trim color)) in *.
  destruct (shortHexMatch trimmed) as [[[r g] b]|] eqn:E.
  - unfold shortHexMatch in E.
    destruct trimmed as [|h [|r' [|g' [|b' [|? ?]]]]]; try discriminate E.
    destruct (Ascii.eqb h "#") eqn:Hh; [|discriminate E].
    destruct (isHexDigit r') eqn:Hr; [|discriminate E].
    destruct (isHexDigit g') eqn:Hg; [|discriminate E].
    destruct (isHexDigit b') eqn:Hb; [|discriminate E].
    cbn in E. injection E as -> -> ->.
    destruct (shortHex_expansion_fixed h r g b Hh Hr Hg Hb Hl) as [Hfix Hno].
    unfold normalizeColorString. rewrite Hfix, Hno. reflexivity.
  - unfold normalizeColorString. rewrite Ht, Hl, E. reflexivity.
Qed.

End Normalisation.

(** ** PaletteManager: [ensureColorInPalette] *)

Section Palette.

Implicit Types (pal : list string) (color : string) (i : nat).

Lemma ensureColorInPalette_cases pal color :
  ensureColorInPalette pal color
  = match indexOfColor pal color with
    | Some i => Ok (pal, i)
    | None =>
        if (256 <=? List.length pal)%nat then Err PaletteFull
        else Ok ((pal ++ [normalizeColorString color])%list, List.length pal)
    end.
Proof.
  unfold ensureColorInPalette, indexOfColor.
  destruct (findIndex _ pal); [reflexivity|].
  destruct (256 <=? List.length pal)%nat; [reflexivity|].
  rewrite length_app. cbn [List.length].
  repeat f_equal. lia.
Qed.

Lemma indexOfColor_Some pal color i :
  indexOfColor pal color = Some i <->
  exists c, list_find (fun c => normalizeColorString c = normalizeColorString color) pal
            = Some (i, c).
Proof.
  unfold indexOfColor, findIndex.
  destruct (list_find _ pal) as [[j c]|]; cbn; split.
  - intros [= ->]. eauto.
  - intros [c' [= -> ->]]. reflexivity.
  - discriminate.
  - intros [c' [=]].
Qed.

Lemma indexOfColor_None pal color :
  indexOfColor pal color = None <->
  Forall (fun c => normalizeColorString c <> normalizeColorString color) pal.
Proof.
  unfold indexOfColor, findIndex.
  rewrite fmap_None. apply list_find_None.
Qed.

Lemma indexOfColor_lt pal color i :
  indexOfColor pal color = Some i -> (i < List.length pal)%nat.
Proof.
  rewrite indexOfColor_Some. intros [c Hc].
  apply list_find_Some in Hc as [Hc _].
  eapply lookup_lt_Some, Hc.
Qed.

Lemma indexOfColor_lookup pal color i :
  indexOfColor pal color = Some i ->
  exists c, pal !! i = Some c /\ normalizeColorString c = normalizeColorString color.
Proof.
  rewrite indexOfColor_Some. intros [c Hc].
  apply list_find_Some in Hc as (Hc & HP & _). eauto.
Qed.

(** The first match is not moved by appending. *)
Lemma indexOfColor_app pal ext color i :
  indexOfColor pal color = Some i -> indexOfColor (pal ++ ext) color = Some i.
Proof.
  rewrite !indexOfColor_Some. intros [c Hc]. exists c.
  apply list_find_app_l, Hc.
Qed.

Lemma indexOfColor_prefix pal pal' color i :
  pal `prefix_of` pal' -> indexOfColor pal color = Some i ->
  indexOfColor pal' color = Some i.
Proof. intros [ext ->]. apply indexOfColor_app. Qed.

Lemma indexOfColor_snoc pal color :
  indexOfColor pal color = None ->
  indexOfColor (pal ++ [normalizeColorString color]) color = Some (List.length pal).
Proof.
  intros Hnone. apply indexOfColor_Some.
  exists (normalizeColorString color).
  apply list_find_app_Some. right.
  split; [lia|]. split.
  - apply list_find_None, indexOfColor_None, Hnone.
  - rewrite Nat.sub_diag. cbn.
    rewrite decide_True by apply normalizeColorString_idemp.
    reflexivity.
Qed.

Lemma indexOfColor_normal_eq pal color color' :
  normalizeColorString color' = normalizeColorString color ->
  indexOfColor pal color' = indexOfColor pal color.
Proof. unfold indexOfColor. intros ->. reflexivity. Qed.

(** What a successful call returns: an extension of the palette by at most
    the normalised colour, and the index at which the result holds it. *)
Lemma ensureColorInPalette_Ok pal color pal' i :
  ensureColorInPalette pal color = Ok (pal', i) ->
  (pal' = pal \/ (indexOfColor pal color = None
                  /\ pal' = (pal ++ [normalizeColorString color])%list))
  /\ indexOfColor pal' color = Some i.
Proof.
  rewrite ensureColorInPalette_cases.
  destruct (indexOfColor pal color) as [j|] eqn:E.
  - intros [= <- <-]. auto.
  - destruct (256 <=? List.length pal)%nat; [discriminate|].
    intros [= <- <-]. split; [auto|].
    apply indexOfColor_snoc, E.
Qed.

Lemma ensureColorInPalette_prefix pal color pal' i :
  ensureColorInPalette pal color = Ok (pal', i) -> pal `prefix_of` pal'.
Proof.
  intros H. apply ensureColorInPalette_Ok in H as [[->|[_ ->]] _].
  - reflexivity.
  - apply prefix_app_r. reflexivity.
Qed.

Lemma ensureColorInPalette_length pal color pal' i :
  ensureColorInPalette pal color = Ok (pal', i) ->
  (List.length pal' <= List.length pal + 1)%nat.
Proof.
  intros H. apply ensureColorInPalette_Ok in H as [[->|[_ ->]] _].
  - lia.
  - rewrite length_app. cbn. lia.
Qed.

(** A colour the palette holds is resolved without touching the palette. *)
Lemma ensureColorInPalette_found pal color i :
  indexOfColor pal color = Some i -> ensureColorInPalette pal color = Ok (pal, i).
Proof. intros H. rewrite ensureColorInPalette_cases, H. reflexivity. Qed.

Lemma ensureColorInPalette_error pal color e :
  ensureColorInPalette pal color = Err e ->
  e = PaletteFull /\ (256 <= List.length pal)%nat.
Proof.
  rewrite ensureColorInPalette_cases.
  destruct (indexOfColor pal color); [discriminate|].
  destruct (256 <=? List.length pal)%nat eqn:E; [|discriminate].
  intros [= <-]. split; [reflexivity|]. apply Nat.leb_le, E.
Qed.

Lemma ensureColorInPalette_NoDup pal color pal' i :
  ensureColorInPalette pal color = Ok (pal', i) ->
  NoDup (normalizeColorString <$> pal) -> NoDup (normalizeColorString <$> pal').
Proof.
  intros H Hnd. apply ensureColorInPalette_Ok in H as [[->|[Hnone ->]] _]; [exact Hnd|].
  rewrite fmap_app. cbn [fmap list_fmap].
  rewrite normalizeColorString_idemp.
  apply NoDup_app. split; [exact Hnd|]. split.
  - intros x Hx Hin. apply list_elem_of_singleton in Hin as ->.
    apply list_elem_of_fmap in Hx as (c & Hc & Hel).
    apply indexOfColor_None in Hnone.
    rewrite Forall_forall in Hnone.
    apply (Hnone c); [exact Hel | congruence].
  - apply NoDup_singleton.
Qed.

End Palette.

(** C8. [ensureColorInPalette] is idempotent: after a call that returned a
    palette and an index, a second call on the returned palette with the same
    colour (or any colour with the same normal form) returns that palette
    unchanged and the same index; and a palette without two entries equal
    after normalisation stays so. *)
Theorem ensureColor_idempotent (pal : list string) (color : string)
    (pal' : list string) (i : nat) :
  ensureColorInPalette pal color = Ok (pal', i) ->
  (forall color', normalizeColorString color' = normalizeColorString color ->
                  ensureColorInPalette pal' color' = Ok (pal', i))
  /\ (NoDup (normalizeColorString <$> pal) -> NoDup (normalizeColorString <$> pal')).
Proof.
  intros H. split.
  - intros color' Heq. apply ensureColorInPalette_found.
    rewrite (indexOfColor_normal_eq _ _ _ Heq).
    apply ensureColorInPalette_Ok in H as [_ H]. exact H.
  - eapply ensureColorInPalette_NoDup, H.
Qed.

Lemma ensureColor_idempotent_witness :
  ensureColorInPalette DEFAULT_PALETTE "#123" = Ok ((DEFAULT_PALETTE ++ ["#112233"])%list, 16%nat)
  /\ ensureColorInPalette (DEFAULT_PALETTE ++ ["#112233"]) " #123 "
     = Ok ((DEFAULT_PALETTE ++ ["#112233"])%list, 16%nat).
Proof.
  assert (H : ensureColorInPalette DEFAULT_PALETTE "#123"
              = Ok ((DEFAULT_PALETTE ++ ["#112233"])%list, 16%nat))
    by (vm_compute; reflexivity).
  split; [exact H|].
  apply (ensureColor_idempotent _ _ _ _ H). reflexivity.
Defined.

(** ** Numbers *)

Section Numbers.

Lemma Qltb_lt (a b : Q) : Qltb a b = true <-> (a < b)%Q.
Proof.
  unfold Qltb. rewrite negb_true_iff, <- not_true_iff_false, Qle_bool_iff.
  split; [apply Qnot_le_lt | apply Qlt_not_le].
Qed.

Lemma Qltb_ge (a b : Q) : Qltb a b = false <-> (b <= a)%Q.
Proof. unfold Qltb. rewrite negb_false_iff. apply Qle_bool_iff. Qed.

Lemma Qle_bool_gt (a b : Q) : Qle_bool a b = false <-> (b < a)%Q.
Proof.
  rewrite <- not_true_iff_false, Qle_bool_iff.
  split; [apply Qnot_le_lt | apply Qlt_not_le].
Qed.

Lemma isInteger_inject_Z (z : Z) : isInteger (inject_Z z) = true.
Proof. unfold isInteger. cbn. rewrite Z.mod_1_r. reflexivity. Qed.

Lemma toInteger_inject_Z (z : Z) : toInteger (inject_Z z) = z.
Proof. unfold toInteger. cbn. apply Z.div_1_r. Qed.

Lemma Qminus_inject_Z (a b : Z) : (inject_Z a - inject_Z b)%Q = inject_Z (a - b).
Proof. unfold Qminus, Qplus, Qopp, inject_Z. cbn. f_equal. lia. Qed.

Lemma Qmax_inject_Z (a b : Z) : Qmax (inject_Z a) (inject_Z b) = inject_Z (Z.max a b).
Proof.
  unfold Qmax, Qle_bool, inject_Z. cbn.
  rewrite !Z.mul_1_r.
  destruct (Z.leb_spec a b); f_equal; lia.
Qed.

Lemma isInteger_exact (q : Q) :
  isInteger q = true -> Qnum q = toInteger q * Zpos (Qden q).
Proof.
  unfold isInteger, toInteger. intros H. apply Z.eqb_eq in H.
  rewrite Z.mul_comm. apply Z.div_exact; [lia | exact H].
Qed.

Lemma toInteger_positive (q : Q) : isInteger q = true -> (0 < q)%Q -> 0 < toInteger q.
Proof.
  intros Hint Hpos. apply isInteger_exact in Hint.
  unfold Qlt in Hpos. cbn in Hpos. nia.
Qed.

(** [Math.max(0, length - limit)] for an integer limit. *)
Lemma window_start_integer (len : Z) (q : Q) :
  isInteger q = true ->
  isInteger (Qmax 0 (inject_Z len - q)) = true
  /\ toInteger (Qmax 0 (inject_Z len - q)) = Z.max 0 (len - toInteger q).
Proof.
  intros Hint. apply isInteger_exact in Hint.
  destruct q as [p d]. cbn [Qnum Qden] in Hint.
  set (k := toInteger (p # d)) in *.
  unfold Qmax, Qle_bool, Qminus, Qplus, Qopp, inject_Z. cbn [Qnum Qden].
  change (1 * d)%positive with d.
  replace (len * Z.pos d + - p * 1) with ((len - k) * Z.pos d) by lia.
  destruct (Z.leb_spec (0 * Z.pos d) ((len - k) * Z.pos d * 1)) as [Hle|Hgt].
  - unfold isInteger, toInteger. cbn [Qnum Qden].
    rewrite Z.mod_mul, Z.div_mul by lia. split; [reflexivity | nia].
  - split; [reflexivity|]. change (toInteger (0 # 1)) with 0. nia.
Qed.



Lemma outOfBounds_true (x y : Q) (w h : Z) :
  outOfBounds x y w h = true
  <-> (x < 0 \/ y < 0 \/ inject_Z w <= x \/ inject_Z h <= y)%Q.
Proof.
  unfold outOfBounds.
  rewrite !orb_true_iff, !Qltb_lt, !Qle_bool_iff. tauto.
Qed.

Lemma outOfBounds_false (x y : Q) (w h : Z) :
  outOfBounds x y w h = false
  <-> (0 <= x /\ 0 <= y /\ x < inject_Z w /\ y < inject_Z h)%Q.
Proof.
  unfold outOfBounds.
  rewrite !orb_false_iff, !Qltb_ge, !Qle_bool_gt. tauto.
Qed.

End Numbers.

(** ** The operations, run on a backend *)

Section Service.

Implicit Types (b : Backend) (source : option PixelSource) (now : Z).

Lemma getCanvas_run b : getCanvas b = (Ok (currentCanvas b), initialised b).
Proof.
  unfold getCanvas, bind, redis_get, currentCanvas, initialised, currentCanvas.
  destruct b as [[s|] log]; reflexivity.
Qed.

Lemma initialised_stored b : is_Some (canvasKey b) -> initialised b = b.
Proof. destruct b as [[s|] log]; intros [s' [=]]. reflexivity. Qed.

Lemma currentCanvas_initialised b : currentCanvas (initialised b) = currentCanvas b.
Proof. reflexivity. Qed.

(** An event whose colour is a palette entry is stored as it is written:
    none of its properties is [undefined]. *)
Lemma stringifiedEvent_pixelSetEvent (x y : Q) (c : string) (i : nat) now source :
  stringifiedEvent (pixelSetEvent x y (JStr c) i now source)
  = pixelSetEvent x y (JStr c) i now source.
Proof. reflexivity. Qed.

Lemma paletteAt_indexOfColor (pal : list string) (color : string) (i : nat) :
  indexOfColor pal color = Some i -> exists c, paletteAt pal i = JStr c.
Proof.
  intros Hi. destruct (indexOfColor_lookup _ _ _ Hi) as (c & Hc & _).
  exists c. unfold paletteAt. rewrite Hc. reflexivity.
Qed.

Lemma setPixel_run x y color source now b :
  setPixel x y color source now b
  = let current := currentCanvas b in
    let w := width (meta current) in
    let h := height (meta current) in
    if outOfBounds x y w h then (Err OutOfBounds, initialised b)
    else if emptyColor color then (Err InvalidColor, initialised b)
    else
      match ensureColorInPalette (palette (meta current)) color with
      | Err e => (Err e, initialised b)
      | Ok (pal, i) =>
          match decodePixelsFromBase64 (pixelsBase64 current) (w * h) with
          | Err e => (Err e, initialised b)
          | Ok pixels =>
              let updated :=
                {| meta := {| width := w; height := h; palette := pal |};
                   pixelsBase64 :=
                     encodePixelsToBase64
                       (typedArraySet pixels (indexFor x y w) (Z.of_nat i)) |} in
              (Ok updated,
               {| canvasKey := Some updated;
                  eventsList :=
                    (eventsList b ++ [pixelSetEvent x y (paletteAt pal i) i now source])%list |})
          end
      end.
Proof.
  unfold setPixel, bind. rewrite getCanvas_run. cbv zeta.
  destruct (outOfBounds _ _ _ _); [reflexivity|].
  destruct (emptyColor color); [reflexivity|].
  destruct (ensureColorInPalette _ color) as [[pal i]|e] eqn:E; [|reflexivity].
  cbn [lift ret throw fst snd].
  destruct (decodePixelsFromBase64 _ _) as [pixels|e]; [|reflexivity].
  apply ensureColorInPalette_Ok in E as [_ Hi].
  destruct (paletteAt_indexOfColor _ _ _ Hi) as [c ->].
  reflexivity.
Qed.

Lemma setPixels_run (updates : list PixelUpdate) (source : option PixelSource)
    (now : Z) (b : Backend) :
  setPixels updates source now b
  = if (List.length updates =? 0)%nat then (Err EmptyBatch, b)
    else
      let current := currentCanvas b in
      let w := width (meta current) in
      let h := height (meta current) in
      match decodePixelsFromBase64 (pixelsBase64 current) (w * h) with
      | Err e => (Err e, initialised b)
      | Ok pixels =>
          match applyUpdates w h (palette (meta current), pixels) updates with
          | Err e => (Err e, initialised b)
          | Ok applied =>
              let updated :=
                {| meta := {| width := w; height := h; palette := fst applied |};
                   pixelsBase64 := encodePixelsToBase64 (snd applied) |} in
              match appendPixelEvents (fst applied) source now updates
                      {| canvasKey := Some updated; eventsList := eventsList b |} with
              | (Ok _, b') => (Ok updated, b')
              | (Err e, b') => (Err e, b')
              end
          end
      end.
Proof.
  unfold setPixels.
  destruct (List.length updates =? 0)%nat; [reflexivity|].
  unfold bind. rewrite getCanvas_run. cbv zeta.
  destruct (decodePixelsFromBase64 _ _) as [pixels|e]; [|reflexivity].
  cbn [lift ret throw].
  destruct (applyUpdates _ _ _ updates) as [applied|e]; [|reflexivity].
  cbn [lift ret throw redis_set initialised eventsList canvasKey].
  destruct (appendPixelEvents _ _ _ _ _) as [[[]|e] b']; reflexivity.
Qed.

(** The event of a successful [setPixel]: exactly one is appended; its
    [color] is the palette entry at the resolved index, which has the normal
    form of the input colour and is that normal form itself when every entry
    of the stored palette is in normal form. *)
Lemma setPixel_event_color x y color source now b st b' :
  setPixel x y color source now b = (Ok st, b') ->
  exists c i,
    eventsList b' = (eventsList b ++ [pixelSetEvent x y (JStr c) i now source])%list
    /\ palette (meta st) !! i = Some c
    /\ normalizeColorString c = normalizeColorString color
    /\ (Forall (fun entry => normalizeColorString entry = entry) (paletteOf b) ->
        c = normalizeColorString color).
Proof.
  rewrite setPixel_run. cbv zeta.
  destruct (outOfBounds _ _ _ _); [discriminate|].
  destruct (emptyColor color); [discriminate|].
  destruct (ensureColorInPalette _ color) as [[pal i]|e] eqn:E; [|discriminate].
  destruct (decodePixelsFromBase64 _ _) as [pixels|e]; [|discriminate].
  intros [= <- <-]. cbn [meta palette eventsList].
  apply ensureColorInPalette_Ok in E as [Hpal Hi].
  destruct (indexOfColor_lookup _ _ _ Hi) as (c & Hc & Hnorm).
  exists c, i. unfold paletteAt. rewrite Hc.
  split; [reflexivity|]. split; [reflexivity|]. split; [exact Hnorm|].
  intros Hall. rewrite <- Hnorm.
  assert (Hall' : Forall (fun entry => normalizeColorString entry = entry) pal).
  { destruct Hpal as [->|[_ ->]]; [exact Hall|].
    apply Forall_app. split; [exact Hall|].
    constructor; [apply normalizeColorString_idemp | constructor]. }
  rewrite Forall_forall in Hall'. symmetry. apply Hall'.
  eapply list_elem_of_lookup_2, Hc.
Qed.

End Service.

(** C1. On a fresh deployment, [setPixel(0, 0, "#FFF")] succeeds, leaves the
    palette and the grid as they were and appends exactly one [pixel_set]
    event with [colorIndex] 0; the [color] of that event is the palette
    entry ["#FFFFFF"] as stored, while the normal form of the input is
    ["#ffffff"]. *)
Theorem setPixel_default_white_event (source : option PixelSource) (now : Z) :
  setPixel 0 0 "#FFF" source now emptyBackend
  = (Ok initialCanvas,
     {| canvasKey := Some initialCanvas;
        eventsList := [pixelSetEvent 0 0 (JStr "#FFFFFF") 0 now source] |})
  /\ normalizeColorString "#FFF" = "#ffffff"
  /\ JStr "#FFFFFF" <> JStr (normalizeColorString "#FFF").
Proof.
  split; [vm_compute; reflexivity|].
  split; [reflexivity|].
  intros [=].
Qed.

(** ** [setPixel] at coordinates outside the grid *)

Lemma setPixel_rejects_outside (b : Backend) (x y : Q) (color : string)
    (source : option PixelSource) (now : Z) :
  outOfBounds x y (width (meta (currentCanvas b))) (height (meta (currentCanvas b))) = true ->
  setPixel x y color source now b = (Err OutOfBounds, initialised b).
Proof. intros H. rewrite setPixel_run. cbv zeta. rewrite H. reflexivity. Qed.

(** C6. For coordinates with [x == width], [x < 0], [y == height] or
    [y < 0], [setPixel] fails with the out-of-bounds error, whatever the
    colour; the canvas a reader sees is the one before the call, the event
    log is untouched, and a backend that already holds a canvas is left
    exactly as it was (on an empty backend the only write is the default
    canvas that reading creates). *)
Theorem setPixel_out_of_bounds (b : Backend) (x y : Q) (color : string)
    (source : option PixelSource) (now : Z) :
  (x == inject_Z (width (meta (currentCanvas b))) \/ x < 0
   \/ y == inject_Z (height (meta (currentCanvas b))) \/ y < 0)%Q ->
  exists b',
    setPixel x y color source now b = (Err OutOfBounds, b')
    /\ currentCanvas b' = currentCanvas b
    /\ eventsList b' = eventsList b
    /\ (is_Some (canvasKey b) -> b' = b).
Proof.
  intros H. exists (initialised b).
  split; [|split; [reflexivity|split; [reflexivity|apply initialised_stored]]].
  apply setPixel_rejects_outside, outOfBounds_true.
  destruct H as [H|[H|[H|H]]]; auto.
  - right; right; left. rewrite H. apply Qle_refl.
  - right; right; right. rewrite H. apply Qle_refl.
Qed.

Lemma setPixel_out_of_bounds_witness :
  exists b',
    setPixel 64 0 "#ff0000" (Some mcp) 1700000000000 emptyBackend = (Err OutOfBounds, b')
    /\ currentCanvas b' = currentCanvas emptyBackend
    /\ eventsList b' = eventsList emptyBackend
    /\ (is_Some (canvasKey emptyBackend) -> b' = emptyBackend).
Proof.
  apply (setPixel_out_of_bounds emptyBackend 64 0 "#ff0000" (Some mcp) 1700000000000).
  left. reflexivity.
Defined.

(** ** Coordinates that are not integers *)



(** ** The two loops of [setPixels] *)

Section Batch.

Variables (w h : Z).

Implicit Types (pal : list string) (pixels : list byte) (update : PixelUpdate)
  (updates : list PixelUpdate).

Lemma applyUpdate_Ok pal pixels update pal' pixels' :
  applyUpdate w h (pal, pixels) update = Ok (pal', pixels') ->
  failsValidation w h update = false
  /\ exists i, ensureColorInPalette pal (upd_color update) = Ok (pal', i)
               /\ pixels' = typedArraySet pixels
                              (indexFor (upd_x update) (upd_y update) w) (Z.of_nat i).
Proof.
  unfold applyUpdate, failsValidation. cbn [fst snd].
  destruct (negb (isInteger (upd_x update)) || negb (isInteger (upd_y update))
            || outOfBounds (upd_x update) (upd_y update) w h); [discriminate|].
  destruct (emptyColor (upd_color update)); [discriminate|].
  destruct (ensureColorInPalette pal (upd_color update)) as [[p i]|e]; [|discriminate].
  cbn [fst snd]. intros [= <- <-].
  split; [reflexivity|]. exists i. split; reflexivity.
Qed.

Lemma applyUpdate_invalid acc update :
  failsValidation w h update = true ->
  applyUpdate w h acc update = Err OutOfBounds
  \/ applyUpdate w h acc update = Err InvalidColor.
Proof.
  unfold applyUpdate, failsValidation.
  destruct (negb (isInteger (upd_x update)) || negb (isInteger (upd_y update))
            || outOfBounds (upd_x update) (upd_y update) w h); [auto|].
  cbn [orb]. intros ->. auto.
Qed.

Lemma applyUpdate_Err pal pixels update e :
  applyUpdate w h (pal, pixels) update = Err e ->
  e = OutOfBounds \/ e = InvalidColor
  \/ (e = PaletteFull /\ (256 <= List.length pal)%nat).
Proof.
  unfold applyUpdate. cbn [fst snd].
  destruct (negb (isInteger (upd_x update)) || negb (isInteger (upd_y update))
            || outOfBounds (upd_x update) (upd_y update) w h); [intros [= <-]; auto|].
  destruct (emptyColor (upd_color update)); [intros [= <-]; auto|].
  destruct (ensureColorInPalette pal (upd_color update)) as [[p i]|e'] eqn:E;
    [discriminate|].
  intros [= <-]. right; right. eapply ensureColorInPalette_error, E.
Qed.

(** The first loop: the palette only grows at its end, every colour of the
    batch is in the final palette, and the grid is the decoded grid with the
    updates written in input order, each with the index its colour has in
    the final palette. *)
Lemma applyUpdates_Ok updates : forall pal pixels pal' pixels',
  applyUpdates w h (pal, pixels) updates = Ok (pal', pixels') ->
  pal `prefix_of` pal'
  /\ Forall (fun u => is_Some (indexOfColor pal' (upd_color u))) updates
  /\ pixels' = fold_left (writeUpdate w pal') updates pixels.
Proof.
  induction updates as [|u us IH]; intros pal pixels pal' pixels'; cbn [applyUpdates].
  - intros [= <- <-]. split; [reflexivity|]. split; [constructor | reflexivity].
  - destruct (applyUpdate w h (pal, pixels) u) as [[pal1 pixels1]|e] eqn:E; [|discriminate].
    intros Hrest.
    apply applyUpdate_Ok in E as (_ & i & Hens & ->).
    apply IH in Hrest as (Hpre & Hall & ->).
    pose proof (ensureColorInPalette_prefix _ _ _ _ Hens) as Hpre1.
    apply ensureColorInPalette_Ok in Hens as [_ Hi].
    pose proof (indexOfColor_prefix _ _ _ _ Hpre Hi) as Hi'.
    split; [etrans; eassumption|]. split.
    + constructor; [rewrite Hi'; eauto | exact Hall].
    + cbn [fold_left]. unfold writeUpdate at 3, finalIndex.
      rewrite Hi'. reflexivity.
Qed.

Lemma applyUpdates_invalid updates :
  Exists (fun u => failsValidation w h u = true) updates ->
  forall acc, exists e, applyUpdates w h acc updates = Err e.
Proof.
  induction 1 as [u us Hu | u us _ IH]; intros acc; cbn [applyUpdates].
  - destruct (applyUpdate_invalid acc u Hu) as [-> | ->]; eauto.
  - destruct (applyUpdate w h acc u) as [acc'|e]; [apply IH | eauto].
Qed.

Lemma applyUpdates_Err updates : forall pal pixels e,
  applyUpdates w h (pal, pixels) updates = Err e ->
  e = OutOfBounds \/ e = InvalidColor
  \/ (e = PaletteFull /\ (256 < List.length pal + List.length updates)%nat).
Proof.
  induction updates as [|u us IH]; intros pal pixels e; cbn [applyUpdates List.length].
  - discriminate.
  - destruct (applyUpdate w h (pal, pixels) u) as [[pal1 pixels1]|e'] eqn:E.
    + intros Hrest. apply IH in Hrest as [?|[?|[? Hlen]]]; auto.
      apply applyUpdate_Ok in E as (_ & i & Hens & _).
      apply ensureColorInPalette_length in Hens.
      right; right. split; [assumption | lia].
    + intros [= <-]. apply applyUpdate_Err in E as [?|[?|[? Hlen]]]; auto.
      right; right. split; [assumption | lia].
Qed.

(** The second loop never fails on colours the palette holds, and appends
    one event per update, in input order. *)
Lemma appendPixelEvents_run pal source now updates : forall b,
  Forall (fun u => is_Some (indexOfColor pal (upd_color u))) updates ->
  appendPixelEvents pal source now updates b
  = (Ok tt,
     {| canvasKey := canvasKey b;
        eventsList := (eventsList b ++ (eventOfUpdate pal source now <$> updates))%list |}).
Proof.
  induction updates as [|u us IH]; intros b Hall; cbn [appendPixelEvents fmap list_fmap].
  - rewrite app_nil_r. destruct b; reflexivity.
  - apply Forall_cons in Hall as [[i Hi] Hall].
    unfold bind. rewrite (ensureColorInPalette_found _ _ _ Hi).
    cbn [lift ret appendEventToLog redis_rpush fst snd].
    rewrite IH by exact Hall. cbn [canvasKey eventsList].
    unfold eventOfUpdate at 2, finalIndex. rewrite Hi.
    change (default 0%nat (Some i)) with i.
    destruct (paletteAt_indexOfColor _ _ _ Hi) as [c ->].
    rewrite stringifiedEvent_pixelSetEvent.
    rewrite <- app_assoc. reflexivity.
Qed.

Lemma appendPixelEvents_canvasKey pal source now updates : forall b,
  canvasKey (snd (appendPixelEvents pal source now updates b)) = canvasKey b.
Proof.
  induction updates as [|u us IH]; intros b; cbn [appendPixelEvents]; [reflexivity|].
  unfold bind.
  destruct (ensureColorInPalette pal (upd_color u)) as [ens|e]; [|reflexivity].
  cbn [lift ret appendEventToLog redis_rpush].
  match goal with
  | |- context [appendPixelEvents pal source now us ?b1] =>
      specialize (IH b1); destruct (appendPixelEvents pal source now us b1) as [[[]|e] b2]
  end; exact IH.
Qed.

End Batch.

(** ** [setPixels] *)



(** C3, as stated, fails on the code: on a canvas whose palette holds 256
    colours, a batch whose first update brings a new colour and whose second
    update lies outside the grid is rejected with the palette-full error of
    the first update, not with the out-of-bounds error of the second. *)
Lemma setPixels_rejection_error_counterexample :
  Exists (fun u => failsValidation 64 64 u = true) overflowingBatch
  /\ width (meta (currentCanvas fullPaletteBackend)) = 64
  /\ height (meta (currentCanvas fullPaletteBackend)) = 64
  /\ fst (setPixels overflowingBatch (Some mcp) 1700000000000 fullPaletteBackend)
     = Err PaletteFull
  /\ Err PaletteFull <> @Err CanvasState OutOfBounds
  /\ Err PaletteFull <> @Err CanvasState InvalidColor.
Proof.
  split.
  - apply Exists_cons_tl, Exists_cons_hd. vm_compute. reflexivity.
  - repeat split; try (vm_compute; reflexivity); discriminate.
Qed.

(** C3, amended. If any update of a [setPixels] batch fails the coordinate
    or colour validation, the call fails, the canvas a reader sees is the
    one before the call (a backend that holds a canvas is left exactly as it
    was) and nothing is appended to the log.  The error is the out-of-bounds
    or invalid-colour error whenever the stored grid decodes and the palette
    has room for the colours of the batch; otherwise it can also be the
    length-mismatch error of the stored grid or the palette-full error of an
    earlier update. *)
Theorem setPixels_rejects_invalid_batch (b : Backend) (updates : list PixelUpdate)
    (source : option PixelSource) (now : Z) :
  let current := currentCanvas b in
  let w := width (meta current) in
  let h := height (meta current) in
  Exists (fun u => failsValidation w h u = true) updates ->
  exists e b',
    setPixels updates source now b = (Err e, b')
    /\ currentCanvas b' = currentCanvas b
    /\ eventsList b' = eventsList b
    /\ (is_Some (canvasKey b) -> b' = b)
    /\ (e = OutOfBounds \/ e = InvalidColor \/ e = PaletteFull \/ e = LengthMismatch)
    /\ (isOk (decodePixelsFromBase64 (pixelsBase64 current) (w * h)) = true ->
        (List.length (palette (meta current)) + List.length updates <= 256)%nat ->
        e = OutOfBounds \/ e = InvalidColor).
Proof.
  intros current w h Hbad.
  rewrite setPixels_run. cbv zeta. fold current w h.
  destruct updates as [|u us]; [inversion Hbad|].
  cbn [List.length Nat.eqb].
  destruct (decodePixelsFromBase64 (pixelsBase64 current) (w * h)) as [grid|e] eqn:Hgrid.
  - destruct (applyUpdates_invalid w h _ Hbad (palette (meta current), grid)) as [e He].
    rewrite He. exists e, (initialised b).
    split; [reflexivity|]. split; [reflexivity|]. split; [reflexivity|].
    split; [apply initialised_stored|].
    apply applyUpdates_Err in He. cbn [List.length] in He.
    split; [tauto|]. intros _ Hroom.
    destruct He as [?|[?|[_ Hlen]]]; auto. lia.
  - exists e, (initialised b).
    split; [reflexivity|]. split; [reflexivity|]. split; [reflexivity|].
    split; [apply initialised_stored|].
    unfold decodePixelsFromBase64 in Hgrid.
    destruct (negb _) in Hgrid; [|discriminate]. injection Hgrid as <-.
    split; [tauto|]. discriminate.
Qed.

Lemma setPixels_rejects_invalid_batch_witness :
  exists e b',
    setPixels [ {| upd_x := 1; upd_y := 1; upd_color := "#123456" |};
                {| upd_x := 2; upd_y := 64; upd_color := "#ffffff" |} ]
      (Some mcp) 1700000000000 emptyBackend = (Err e, b')
    /\ currentCanvas b' = currentCanvas emptyBackend
    /\ eventsList b' = eventsList emptyBackend
    /\ (is_Some (canvasKey emptyBackend) -> b' = emptyBackend)
    /\ (e = OutOfBounds \/ e = InvalidColor \/ e = PaletteFull \/ e = LengthMismatch)
    /\ (e = OutOfBounds \/ e = InvalidColor).
Proof.
  destruct (setPixels_rejects_invalid_batch emptyBackend
              [ {| upd_x := 1; upd_y := 1; upd_color := "#123456" |};
                {| upd_x := 2; upd_y := 64; upd_color := "#ffffff" |} ]
              (Some mcp) 1700000000000)
    as (e & b' & Hrun & Hsame & Hlog & Hkey & Hkind & Hroom).
  - apply Exists_cons_tl, Exists_cons_hd. vm_compute. reflexivity.
  - exists e, b'. repeat (split; [assumption|]).
    apply Hroom; [vm_compute; reflexivity | vm_compute; lia].
Defined.

(** ** The palette across operations *)

Lemma createEmptyPixels_run (w h : Z) :
  createEmptyPixels w h 0
  = if (w * h <? 0) || (maxTypedArrayLength <? w * h) then Err RangeError
    else Ok (replicate (Z.to_nat (w * h)) x00).
Proof. reflexivity. Qed.

Lemma resetCanvas_run (width' height' : option Q) (palette' : option (list string))
    (b : Backend) :
  resetCanvas width' height' palette' b
  = let existing := currentCanvas b in
    let w := default (inject_Z (width (meta existing))) width' in
    let h := default (inject_Z (height (meta existing))) height' in
    if negb (isInteger w) || negb (isInteger h) || Qle_bool w 0 || Qle_bool h 0
    then (Err InvalidDimensions, initialised b)
    else if maxTypedArrayLength <? toInteger w * toInteger h
    then (Err RangeError, initialised b)
    else
      let updated :=
        {| meta := {| width := toInteger w; height := toInteger h;
                      palette := default (palette (meta existing)) palette' |};
           pixelsBase64 :=
             encodePixelsToBase64
               (replicate (Z.to_nat (toInteger w * toInteger h)) x00) |} in
      (Ok updated, {| canvasKey := Some updated; eventsList := eventsList b |}).
Proof.
  unfold resetCanvas, bind. rewrite getCanvas_run. cbv zeta.
  set (w := default _ width'). set (h := default _ height').
  destruct (isInteger w) eqn:Hw; [|reflexivity].
  destruct (isInteger h) eqn:Hh; [|reflexivity].
  destruct (Qle_bool w 0) eqn:Hw0; [reflexivity|].
  destruct (Qle_bool h 0) eqn:Hh0; [reflexivity|].
  cbn [negb orb].
  apply Qle_bool_gt in Hw0, Hh0.
  pose proof (toInteger_positive _ Hw Hw0).
  pose proof (toInteger_positive _ Hh Hh0).
  rewrite createEmptyPixels_run.
  destruct (Z.ltb_spec (toInteger w * toInteger h) 0); [nia|]. cbn [orb].
  destruct (maxTypedArrayLength <? toInteger w * toInteger h); reflexivity.
Qed.

(** C2, as stated, fails on the code: [resetCanvas] with a palette argument
    stores that palette in place of the current one, so a one-colour palette
    replaces the sixteen default colours. *)
Lemma resetCanvas_shrinks_palette_counterexample :
  paletteOf emptyBackend = DEFAULT_PALETTE
  /\ paletteOf (runOperation (OpResetCanvas None None (Some ["#000000"])) emptyBackend)
     = ["#000000"]
  /\ ~ (List.length (paletteOf emptyBackend)
        <= List.length
             (paletteOf (runOperation (OpResetCanvas None None (Some ["#000000"]))
                           emptyBackend)))%nat.
Proof.
  split; [reflexivity|]. split; [vm_compute; reflexivity|].
  vm_compute. lia.
Qed.

(** C2, amended. After [getCanvas], [setPixel], [setPixels], and
    [resetCanvas] called without a palette, whether the call succeeds or
    fails, the palette a reader sees starts with the palette before the
    call: the length does not decrease, and every entry is still at its
    index.  [resetCanvas] called with a palette replaces the palette by
    its argument when it succeeds (the returned and the stored palette are
    the argument), and leaves the palette as it was when it fails. *)
Theorem palette_grows_except_reset_with_palette (op : Operation) (b : Backend) :
  match op with
  | OpResetCanvas w h (Some pal) =>
      match fst (resetCanvas w h (Some pal) b) with
      | Ok st => palette (meta st) = pal /\ paletteOf (runOperation op b) = pal
      | Err _ => paletteOf (runOperation op b) = paletteOf b
      end
  | _ =>
      paletteOf b `prefix_of` paletteOf (runOperation op b)
      /\ (List.length (paletteOf b) <= List.length (paletteOf (runOperation op b)))%nat
      /\ (forall i c, paletteOf b !! i = Some c ->
                      paletteOf (runOperation op b) !! i = Some c)
  end.
Proof.
  assert (Hlen : forall p q : list string,
             p `prefix_of` q ->
             p `prefix_of` q /\ (List.length p <= List.length q)%nat
             /\ (forall i c, p !! i = Some c -> q !! i = Some c)).
  { intros p q Hpq. split; [exact Hpq|]. split; [apply prefix_length, Hpq|].
    intros i c Hi. eapply prefix_lookup_Some; eassumption. }
  destruct op as [|x y color source now|updates source now|w h [pal|]];
    cbn [runOperation]; try apply Hlen.
  - rewrite getCanvas_run. reflexivity.
  - rewrite setPixel_run. cbv zeta.
    destruct (outOfBounds _ _ _ _); [reflexivity|].
    destruct (emptyColor color); [reflexivity|].
    destruct (ensureColorInPalette _ color) as [[pal i]|e] eqn:E; [|reflexivity].
    destruct (decodePixelsFromBase64 _ _); [|reflexivity].
    eapply ensureColorInPalette_prefix, E.
  - rewrite setPixels_run. cbv zeta.
    destruct (List.length updates =? 0)%nat; [reflexivity|].
    destruct (decodePixelsFromBase64 _ _) as [grid|e]; [|reflexivity].
    destruct (applyUpdates _ _ _ updates) as [[pal pixels]|e] eqn:E; [|reflexivity].
    apply applyUpdates_Ok in E as (Hpre & _ & _).
    match goal with
    | |- context [appendPixelEvents ?p ?s ?n ?us ?b0] =>
        pose proof (appendPixelEvents_canvasKey p s n us b0) as Hkey;
        destruct (appendPixelEvents p s n us b0) as [[[]|e] b1]
    end; cbn [snd canvasKey] in Hkey |- *;
      unfold paletteOf at 2, currentCanvas; rewrite Hkey; exact Hpre.
  - rewrite resetCanvas_run. cbv zeta.
    destruct (negb _ || negb _ || _ || _); [reflexivity|].
    destruct (maxTypedArrayLength <? _); [reflexivity|].
    split; reflexivity.
  - rewrite resetCanvas_run. cbv zeta.
    destruct (negb _ || negb _ || _ || _); [reflexivity|].
    destruct (maxTypedArrayLength <? _); reflexivity.
Qed.

(** ** EventLog: reading the tail *)

Section EventLogProperties.

Context {A : Type}.

Lemma listRange_all (l : list A) : listRange l 0 (-1) = l.
Proof.
  unfold listRange. cbv zeta. cbn [Z.ltb Z.compare].
  destruct l as [|a l]; [reflexivity|].
  set (len := Z.of_nat (List.length (a :: l))).
  assert (0 < len) by (subst len; cbn [List.length]; lia).
  destruct (Z.ltb_spec (len + -1) 0); [lia|].
  destruct (Z.leb_spec len 0); [lia|]. cbn [orb].
  destruct (Z.leb_spec len (len + -1)); [lia|].
  replace (Z.to_nat (len + -1 - 0 + 1)) with (List.length (a :: l)) by (subst len; lia).
  cbn [Z.to_nat drop]. apply firstn_all.
Qed.

(** The window [max(0, length - n) .. length - 1] is the last [n] entries. *)
Lemma listRange_tail (l : list A) (n : Z) :
  0 < n ->
  listRange l (Z.max 0 (Z.of_nat (List.length l) - n)) (Z.of_nat (List.length l) - 1)
  = drop (List.length l - Z.to_nat n) l.
Proof.
  intros Hn. unfold listRange. cbv zeta.
  destruct (decide (l = [])) as [->|Hne].
  { cbn [List.length Z.of_nat]. rewrite Z.max_l by lia. reflexivity. }
  set (len := Z.of_nat (List.length l)).
  set (start := Z.max 0 (len - n)).
  assert (0 < len) by (subst len; destruct l; [congruence | cbn [List.length]; lia]).
  assert (Hstart : 0 <= start < len) by (subst start; lia).
  assert (E1 : (start <? 0) = false) by (apply Z.ltb_ge; lia).
  assert (E2 : (len - 1 <? 0) = false) by (apply Z.ltb_ge; lia).
  assert (E3 : (len - 1 <? start) = false) by (apply Z.ltb_ge; lia).
  assert (E4 : (len <=? start) = false) by (apply Z.leb_gt; lia).
  assert (E5 : (len <=? len - 1) = false) by (apply Z.leb_gt; lia).
  rewrite E1. cbv iota. rewrite E1, E2. cbv iota. rewrite E3, E4, E5. cbn [orb].
  replace (Z.to_nat start) with (List.length l - Z.to_nat n)%nat
    by (subst start len; lia).
  apply take_ge. rewrite length_drop. subst start len. lia.
Qed.


End EventLogProperties.

Section EventLogReaderProperties.

Variable JSON_parse : string -> option JsValue.

Lemma readAll_run (b : Backend) :
  bind (redis_lrange 0 (-1)) (fun all => ret (omap (parseLogEntry JSON_parse) all)) b
  = (Ok (omap (parseLogEntry JSON_parse) (eventsList b)), b).
Proof.
  unfold bind, redis_lrange, ret.
  change (isInteger 0 && isInteger (-1)) with true. cbv iota.
  change (toInteger 0) with 0. change (toInteger (-1)) with (-1).
  rewrite listRange_all. reflexivity.
Qed.


(** C10. A limit that is not a number greater than 0 (omitted, zero,
    negative, or not a number at all) makes [getCanvasEvents] read the
    whole log: the result is what an omitted limit gives, namely every
    entry the reader recognises as an event, oldest first, and never an
    error. *)
Theorem getCanvasEvents_without_positive_limit (limit : JsValue) (b : Backend) :
  isPositiveNumber limit = false ->
  getCanvasEvents JSON_parse limit b
  = (Ok (omap (parseLogEntry JSON_parse) (eventsList b)), b)
  /\ getCanvasEvents JSON_parse limit b = getCanvasEvents JSON_parse JUndefined b.
Proof.
  intros Hlimit.
  assert (Hall : getCanvasEvents JSON_parse JUndefined b
                 = (Ok (omap (parseLogEntry JSON_parse) (eventsList b)), b))
    by apply readAll_run.
  assert (Hsame : getCanvasEvents JSON_parse limit b
                  = getCanvasEvents JSON_parse JUndefined b).
  { destruct limit as [| |flag|l|s|items|fields]; try reflexivity.
    cbn [isPositiveNumber] in Hlimit.
    unfold getCanvasEvents. rewrite Hlimit. reflexivity. }
  split; [rewrite Hsame; exact Hall | exact Hsame].
Qed.

End EventLogReaderProperties.



Lemma getCanvasEvents_without_positive_limit_witness :
  getCanvasEvents sampleParse (JNum (-5)) sampleBackend
  = (Ok [ pixelSetEvent 1 2 (JStr "#ff0000") 16 1700000000001 (Some mcp);
          sampleToolEvent;
          pixelSetEvent 3 4 (JStr "#FFFFFF") 0 1700000000002 None ],
     sampleBackend)
  /\ getCanvasEvents sampleParse (JStr "10") sampleBackend
     = getCanvasEvents sampleParse JUndefined sampleBackend.
Proof.
  split.
  - destruct (getCanvasEvents_without_positive_limit sampleParse (JNum (-5)) sampleBackend)
      as [Hrun _]; [reflexivity|].
    rewrite Hrun. vm_compute. reflexivity.
  - apply (getCanvasEvents_without_positive_limit sampleParse (JStr "10") sampleBackend).
    reflexivity.
Defined.

(** ** The audit entries of the tools *)

(** X1. [logToolUsed] never fails, whatever [JSON.stringify] does with the
    arguments: it appends exactly one entry and touches nothing else (it
    does not even create the canvas).  The entry is the [tool_used] event
    stamped with the tool and the clock, with the text of the arguments, or
    the text ["[unserializable]"] in quotation marks when they cannot be
    serialised; when [JSON.stringify] gives [undefined] for them, the
    stored entry has no [argsJson] property at all.  In every case the
    reader of the log recognises the entry. *)
Theorem logToolUsed_appends_one_entry (JSON_stringify : JsValue -> Stringified)
    (JSON_parse : string -> option JsValue)
    (toolName : ToolName) (args : JsValue) (now : Z) (b : Backend) :
  exists entry,
    logToolUsed JSON_stringify toolName args now b
    = (Ok tt,
       {| canvasKey := canvasKey b;
          eventsList := (eventsList b ++ [entry])%list |})
    /\ (forall text, JSON_stringify args = StringifiedText text ->
                     entry = toolUsedEvent toolName (JStr text) now)
    /\ (JSON_stringify args = StringifyThrows ->
        entry = toolUsedEvent toolName (JStr unserializableText) now)
    /\ (JSON_stringify args = StringifiedUndefined ->
        entry = JObj [ ("type", JStr "tool_used");
                       ("toolName", JStr (toolNameText toolName));
                       ("timestampMs", JNum (inject_Z now)) ])
    /\ getField "type" (match entry with JObj fields => fields | _ => [] end)
       = JStr "tool_used"
    /\ parseLogEntry JSON_parse entry = Some entry.
Proof.
  unfold logToolUsed.
  destruct (JSON_stringify args) as [text| |]; eexists;
    (split; [reflexivity|]);
    (split; [intros text' [=]; subst; reflexivity|]);
    (split; [intros [=]; reflexivity|]);
    (split; [intros [=]; reflexivity|]);
    split; reflexivity.
Qed.

(** ** Failures leave no trace *)

(** X2. An operation that ends with an error, whichever error it is, has
    written nothing of its own: the canvas a reader sees and the event log
    are those before the call, and a backend that already holds a canvas is
    left exactly as it was. *)
Theorem failed_operation_changes_nothing (op : Operation) (b : Backend) (e : Error) :
  operationError op b = Some e ->
  currentCanvas (runOperation op b) = currentCanvas b
  /\ eventsList (runOperation op b) = eventsList b
  /\ (is_Some (canvasKey b) -> runOperation op b = b).
Proof.
  assert (Hinit : currentCanvas (initialised b) = currentCanvas b
                  /\ eventsList (initialised b) = eventsList b
                  /\ (is_Some (canvasKey b) -> initialised b = b)).
  { split; [reflexivity|]. split; [reflexivity | apply initialised_stored]. }
  destruct op as [|x y color source now|updates source now|w h pal];
    cbn [operationError runOperation].
  - rewrite getCanvas_run. discriminate.
  - rewrite setPixel_run. cbv zeta.
    destruct (outOfBounds _ _ _ _); [intros _; exact Hinit|].
    destruct (emptyColor color); [intros _; exact Hinit|].
    destruct (ensureColorInPalette _ color) as [[pal i]|e']; [|intros _; exact Hinit].
    destruct (decodePixelsFromBase64 _ _); [discriminate | intros _; exact Hinit].
  - rewrite setPixels_run. cbv zeta.
    destruct (List.length updates =? 0)%nat; [intros _; auto|].
    destruct (decodePixelsFromBase64 _ _) as [grid|e']; [|intros _; exact Hinit].
    destruct (applyUpdates _ _ _ updates) as [[pal pixels]|e'] eqn:E;
      [|intros _; exact Hinit].
    apply applyUpdates_Ok in E as (_ & Hall & _). cbn [fst snd].
    rewrite (appendPixelEvents_run _ _ _ _ _ Hall). discriminate.
  - rewrite resetCanvas_run. cbv zeta.
    destruct (negb _ || negb _ || _ || _); [intros _; exact Hinit|].
    destruct (maxTypedArrayLength <? _); [intros _; exact Hinit | discriminate].
Qed.

Lemma failed_operation_changes_nothing_witness :
  currentCanvas (runOperation (OpSetPixel 3 4 "   " (Some mcp) 1700000000000) sampleBackend)
  = currentCanvas sampleBackend
  /\ eventsList (runOperation (OpSetPixel 3 4 "   " (Some mcp) 1700000000000) sampleBackend)
     = eventsList sampleBackend
  /\ (is_Some (canvasKey sampleBackend) ->
      runOperation (OpSetPixel 3 4 "   " (Some mcp) 1700000000000) sampleBackend
      = sampleBackend).
Proof.
  apply (failed_operation_changes_nothing
           (OpSetPixel 3 4 "   " (Some mcp) 1700000000000) sampleBackend InvalidColor).
  vm_compute. reflexivity.
Defined.

(** ** Reading back what [setPixel] wrote *)

Section ReadBack.

Lemma decodePixels_Ok (text : string) (n : Z) (grid : list byte) :
  decodePixelsFromBase64 text n = Ok grid ->
  grid = bufferFromBase64 text /\ Z.of_nat (List.length grid) = n.
Proof.
  unfold decodePixelsFromBase64.
  destruct (Z.eqb_spec (Z.of_nat (List.length (bufferFromBase64 text))) n) as [E|E];
    cbn [negb]; [|discriminate].
  intros [= <-]. auto.
Qed.

Lemma indexFor_integer (x y w : Z) :
  isInteger (indexFor (inject_Z x) (inject_Z y) w) = true
  /\ toInteger (indexFor (inject_Z x) (inject_Z y) w) = y * w + x
  /\ Qle_bool 0 (indexFor (inject_Z x) (inject_Z y) w) = (0 <=? y * w + x).
Proof.
  unfold indexFor, isInteger, toInteger, Qle_bool, Qplus, Qmult, inject_Z.
  cbn [Qnum Qden Pos.mul].
  rewrite Z.mod_1_r, Z.div_1_r, !Z.mul_1_r. auto.
Qed.

Lemma typedArraySet_cell (pixels : list byte) (x y w v : Z) :
  0 <= y * w + x ->
  typedArraySet pixels (indexFor (inject_Z x) (inject_Z y) w) v
  = <[cellIndex x y w := toUint8 v]> pixels.
Proof.
  intros Hpos. unfold typedArraySet, cellIndex.
  destruct (indexFor_integer x y w) as (-> & -> & ->).
  rewrite (proj2 (Z.leb_le _ _) Hpos). reflexivity.
Qed.

Lemma inBounds_integer (x y w h : Z) :
  outOfBounds (inject_Z x) (inject_Z y) w h = false ->
  0 <= x < w /\ 0 <= y < h.
Proof.
  intros H. apply outOfBounds_false in H as (Hx0 & Hy0 & Hxw & Hyh).
  change 0%Q with (inject_Z 0) in Hx0, Hy0.
  rewrite <- Zle_Qle in Hx0, Hy0. rewrite <- Zlt_Qlt in Hxw, Hyh. lia.
Qed.

Lemma cellIndex_in_grid (x y w h : Z) :
  0 <= x < w -> 0 <= y < h -> 0 <= y * w + x < w * h.
Proof. intros Hx Hy. nia. Qed.

Lemma toUint8_small (n : Z) :
  0 <= n < 256 -> Byte.to_N (toUint8 n) = Z.to_N n.
Proof.
  intros Hn. unfold toUint8. rewrite Z.mod_small by exact Hn.
  destruct (Byte.of_N (Z.to_N n)) as [byte|] eqn:E.
  - apply Byte.to_of_N, E.
  - apply Byte.of_N_None_iff in E. lia.
Qed.

End ReadBack.

Lemma setPixel_grid (b : Backend) (x y : Z) (color : string)
    (source : option PixelSource) (now : Z) (st : CanvasState) (b' : Backend) :
  setPixel (inject_Z x) (inject_Z y) color source now b = (Ok st, b') ->
  let w := width (meta (currentCanvas b)) in
  let h := height (meta (currentCanvas b)) in
  exists i c,
    getCanvas b' = (Ok st, b')
    /\ width (meta st) = w /\ height (meta st) = h
    /\ Z.of_nat (List.length (gridOf (currentCanvas b))) = w * h
    /\ (cellIndex x y w < List.length (gridOf (currentCanvas b)))%nat
    /\ gridOf st = <[cellIndex x y w := toUint8 (Z.of_nat i)]> (gridOf (currentCanvas b))
    /\ gridOf st !! cellIndex x y w = Some (toUint8 (Z.of_nat i))
    /\ (forall k, k <> cellIndex x y w -> gridOf st !! k = gridOf (currentCanvas b) !! k)
    /\ palette (meta st) !! i = Some c
    /\ normalizeColorString c = normalizeColorString color
    /\ ((List.length (palette (meta st)) <= 256)%nat ->
        Byte.to_N (toUint8 (Z.of_nat i)) = N.of_nat i)
    /\ pixelsBase64 st = encodePixelsToBase64 (gridOf st).
Proof.
  intros Hrun w h.
  pose proof Hrun as Hrun'.
  rewrite setPixel_run in Hrun. cbv zeta in Hrun. fold w h in Hrun.
  destruct (outOfBounds _ _ w h) eqn:Hin; [discriminate|].
  destruct (emptyColor color); [discriminate|].
  destruct (ensureColorInPalette _ color) as [[pal i]|e] eqn:E; [|discriminate].
  destruct (decodePixelsFromBase64 _ _) as [grid|e] eqn:Hgrid; [|discriminate].
  injection Hrun as <- <-.
  apply decodePixels_Ok in Hgrid as [-> Hlen].
  apply inBounds_integer in Hin as [Hx Hy].
  pose proof (cellIndex_in_grid x y w h Hx Hy) as Hcell.
  apply ensureColorInPalette_Ok in E as [_ Hi].
  destruct (indexOfColor_lookup _ _ _ Hi) as (c & Hc & Hnorm).
  pose proof (indexOfColor_lt _ _ _ Hi) as Hlt.
  assert (Hcelllt : (cellIndex x y w < List.length (gridOf (currentCanvas b)))%nat).
  { unfold cellIndex, gridOf. lia. }
  assert (Hgrid' : gridOf
                     {| meta := {| width := w; height := h; palette := pal |};
                        pixelsBase64 :=
                          encodePixelsToBase64
                            (typedArraySet (bufferFromBase64 (pixelsBase64 (currentCanvas b)))
                               (indexFor (inject_Z x) (inject_Z y) w) (Z.of_nat i)) |}
                   = <[cellIndex x y w := toUint8 (Z.of_nat i)]> (gridOf (currentCanvas b))).
  { unfold gridOf at 1. cbn [pixelsBase64]. unfold encodePixelsToBase64.
    rewrite base64_roundtrip. apply typedArraySet_cell. lia. }
  exists i, c. cbn [meta width height palette].
  split; [rewrite getCanvas_run; reflexivity|].
  split; [reflexivity|]. split; [reflexivity|].
  split; [exact Hlen|]. split; [exact Hcelllt|].
  split; [exact Hgrid'|]. rewrite Hgrid'.
  assert (Htext : encodePixelsToBase64
                    (typedArraySet (bufferFromBase64 (pixelsBase64 (currentCanvas b)))
                       (indexFor (inject_Z x) (inject_Z y) w) (Z.of_nat i))
                  = encodePixelsToBase64
                      (<[cellIndex x y w := toUint8 (Z.of_nat i)]> (gridOf (currentCanvas b)))).
  { f_equal. apply typedArraySet_cell. lia. }
  split; [apply list_lookup_insert_eq, Hcelllt|].
  split; [intros k Hk; apply list_lookup_insert_ne; congruence|].
  split; [exact Hc|]. split; [exact Hnorm|].
  split; [intros Hpal; rewrite toUint8_small by lia; lia|].
  cbn [pixelsBase64]. exact Htext.
Qed.


(** X3. After a successful [setPixel] at integer coordinates, the stored
    grid is the previous grid with exactly the cell [y * width + x]
    rewritten: that cell holds the resolved palette index (modulo 256), the
    palette entry at that index has the normal form of the requested colour,
    every other cell and the dimensions are as before, and [getCanvas]
    returns this very state. *)
Theorem setPixel_read_back (b : Backend) (x y : Z) (color : string)
    (source : option PixelSource) (now : Z) (st : CanvasState) (b' : Backend) :
  setPixel (inject_Z x) (inject_Z y) color source now b = (Ok st, b') ->
  let w := width (meta (currentCanvas b)) in
  let h := height (meta (currentCanvas b)) in
  exists i c,
    getCanvas b' = (Ok st, b')
    /\ width (meta st) = w /\ height (meta st) = h
    /\ Z.of_nat (List.length (gridOf (currentCanvas b))) = w * h
    /\ (cellIndex x y w < List.length (gridOf (currentCanvas b)))%nat
    /\ gridOf st = <[cellIndex x y w := toUint8 (Z.of_nat i)]> (gridOf (currentCanvas b))
    /\ gridOf st !! cellIndex x y w = Some (toUint8 (Z.of_nat i))
    /\ (forall k, k <> cellIndex x y w -> gridOf st !! k = gridOf (currentCanvas b) !! k)
    /\ palette (meta st) !! i = Some c
    /\ normalizeColorString c = normalizeColorString color
    /\ ((List.length (palette (meta st)) <= 256)%nat ->
        Byte.to_N (toUint8 (Z.of_nat i)) = N.of_nat i).
Proof.
  intros Hrun w h.
  destruct (setPixel_grid b x y color source now st b' Hrun)
    as (i & c & H1 & H2 & H3 & H4 & H5 & H6 & H7 & H8 & H9 & H10 & H11 & _).
  exists i, c. repeat (split; [assumption|]). assumption.
Qed.

Lemma setPixel_read_back_witness :
  exists st b' i c,
    setPixel 1 1 "#123456" None 1700000000000 emptyBackend = (Ok st, b')
    /\ gridOf st !! 65%nat = Some (toUint8 (Z.of_nat i))
    /\ palette (meta st) !! i = Some c
    /\ normalizeColorString c = "#123456".
Proof.
  pose (r := setPixel (inject_Z 1) (inject_Z 1) "#123456" None 1700000000000 emptyBackend).
  assert (Hrun : r = (Ok (match fst r with Ok s => s | Err _ => initialCanvas end), snd r))
    by (vm_compute; reflexivity).
  destruct (setPixel_read_back emptyBackend 1 1 "#123456" None 1700000000000 _ _ Hrun)
    as (i & c & _ & _ & _ & _ & _ & _ & Hcell & _ & Hc & Hnorm & _).
  eexists _, _, i, c. split; [exact Hrun|].
  split; [exact Hcell|]. split; [exact Hc | exact Hnorm].
Defined.

(** ** A batch and its updates one by one *)

Section BatchSteps.

Variables (w h : Z).

Implicit Types (pal : list string) (grid : list byte) (update : PixelUpdate)
  (updates : list PixelUpdate).

Lemma typedArraySet_length grid k v :
  List.length (typedArraySet grid k v) = List.length grid.
Proof.
  unfold typedArraySet. destruct (isInteger k && Qle_bool 0 k); [|reflexivity].
  apply length_insert.
Qed.

Lemma applyUpdate_length pal grid update pal' grid' :
  applyUpdate w h (pal, grid) update = Ok (pal', grid') ->
  List.length grid' = List.length grid.
Proof.
  intros H. apply applyUpdate_Ok in H as (_ & i & _ & ->).
  apply typedArraySet_length.
Qed.

Lemma applyUpdates_length updates : forall pal grid pal' grid',
  applyUpdates w h (pal, grid) updates = Ok (pal', grid') ->
  List.length grid' = List.length grid.
Proof.
  induction updates as [|u us IH]; intros pal grid pal' grid'; cbn [applyUpdates].
  - intros [= _ <-]. reflexivity.
  - destruct (applyUpdate w h (pal, grid) u) as [[pal1 grid1]|e] eqn:E; [|discriminate].
    intros Hrest. apply IH in Hrest. apply applyUpdate_length in E. congruence.
Qed.

Lemma applyUpdates_valid updates : forall pal grid pal' grid',
  applyUpdates w h (pal, grid) updates = Ok (pal', grid') ->
  Forall (fun u => failsValidation w h u = false) updates.
Proof.
  induction updates as [|u us IH]; intros pal grid pal' grid'; cbn [applyUpdates].
  - constructor.
  - destruct (applyUpdate w h (pal, grid) u) as [[pal1 grid1]|e] eqn:E; [|discriminate].
    intros Hrest. constructor; [|eapply IH, Hrest].
    apply applyUpdate_Ok in E as [E _]. exact E.
Qed.

End BatchSteps.

Section BatchAsSequence.

Variables (source : option PixelSource) (now : Z).

(** One [setPixel] does what one turn of the first loop does, and appends
    the event the second loop will append for that update. *)
Lemma setPixel_as_step (b : Backend) (u : PixelUpdate) (grid : list byte)
    (pal1 : list string) (grid1 : list byte) :
  let current := currentCanvas b in
  let w := width (meta current) in
  let h := height (meta current) in
  decodePixelsFromBase64 (pixelsBase64 current) (w * h) = Ok grid ->
  applyUpdate w h (palette (meta current), grid) u = Ok (pal1, grid1) ->
  exists i,
    indexOfColor pal1 (upd_color u) = Some i
    /\ setPixel (upd_x u) (upd_y u) (upd_color u) source now b
       = (Ok (storedCanvas w h pal1 grid1),
          {| canvasKey := Some (storedCanvas w h pal1 grid1);
             eventsList :=
               (eventsList b
                ++ [pixelSetEvent (upd_x u) (upd_y u) (paletteAt pal1 i) i now source])%list |}).
Proof.
  intros current w h Hgrid Hstep.
  pose proof Hstep as Hstep'.
  apply applyUpdate_Ok in Hstep' as (Hvalid & i & Hens & ->).
  exists i. split; [apply ensureColorInPalette_Ok in Hens as [_ Hi]; exact Hi|].
  rewrite setPixel_run. cbv zeta. fold current w h.
  unfold failsValidation in Hvalid.
  apply orb_false_iff in Hvalid as [Hvalid Hcolor].
  apply orb_false_iff in Hvalid as [_ Hin].
  rewrite Hin, Hcolor, Hens, Hgrid. reflexivity.
Qed.

Lemma setPixelEach_from_stored (updates : list PixelUpdate) :
  forall (w h : Z) (pal : list string) (grid : list byte) (log : list JsValue)
         (pal' : list string) (grid' : list byte),
    Z.of_nat (List.length grid) = w * h ->
    applyUpdates w h (pal, grid) updates = Ok (pal', grid') ->
    setPixelEach updates source now
      {| canvasKey := Some (storedCanvas w h pal grid); eventsList := log |}
    = (Ok tt,
       {| canvasKey := Some (storedCanvas w h pal' grid');
          eventsList := (log ++ (eventOfUpdate pal' source now <$> updates))%list |}).
Proof.
  induction updates as [|u us IH]; intros w h pal grid log pal' grid' Hlen;
    cbn [applyUpdates setPixelEach fmap list_fmap].
  - intros [= <- <-]. rewrite app_nil_r. reflexivity.
  - destruct (applyUpdate w h (pal, grid) u) as [[pal1 grid1]|e] eqn:E; [|discriminate].
    intros Hrest.
    pose (b := {| canvasKey := Some (storedCanvas w h pal grid); eventsList := log |}).
    destruct (setPixel_as_step b u grid pal1 grid1) as (i & Hi & Hrun).
    { cbn. rewrite <- Hlen. apply decodePixels_encodePixels. }
    { exact E. }
    unfold bind. fold b. rewrite Hrun. cbn [currentCanvas canvasKey default meta width height].
    erewrite IH; [|erewrite applyUpdate_length by exact E; exact Hlen | exact Hrest].
    apply applyUpdates_Ok in Hrest as (Hpre & _ & _).
    pose proof (indexOfColor_prefix _ _ _ _ Hpre Hi) as Hi'.
    destruct (indexOfColor_lookup _ _ _ Hi) as (c & Hc & _).
    unfold eventOfUpdate at 2, finalIndex. rewrite Hi'. cbn [default].
    unfold paletteAt. rewrite Hc.
    destruct Hpre as [ext ->]. rewrite (lookup_app_l_Some _ _ _ _ Hc).
    cbn [eventsList b]. rewrite <- app_assoc. reflexivity.
Qed.

End BatchAsSequence.

(** X4. A [setPixels] batch that succeeds leaves the backend exactly as
    the same updates issued one [setPixel] at a time (same source, same
    clock reading) leave it: the same stored canvas and the same log, and
    each of those calls succeeds. *)
Theorem setPixels_as_sequence (b : Backend) (updates : list PixelUpdate)
    (source : option PixelSource) (now : Z) (st : CanvasState) (b' : Backend) :
  setPixels updates source now b = (Ok st, b') ->
  setPixelEach updates source now b = (Ok tt, b').
Proof.
  rewrite setPixels_run.
  destruct updates as [|u us]; [discriminate|].
  cbn [List.length Nat.eqb]. cbv zeta.
  set (w := width (meta (currentCanvas b))).
  set (h := height (meta (currentCanvas b))).
  destruct (decodePixelsFromBase64 _ _) as [grid|e] eqn:Hgrid; [|discriminate].
  destruct (applyUpdates _ _ _ (u :: us)) as [[pal' grid']|e] eqn:Happ; [|discriminate].
  pose proof Happ as Happ'.
  apply applyUpdates_Ok in Happ' as (Hpre & Hall & _).
  cbn [fst snd]. rewrite (appendPixelEvents_run _ _ _ _ _ Hall).
  cbn [canvasKey eventsList]. intros [= <- <-].
  cbn [applyUpdates] in Happ.
  destruct (applyUpdate w h _ u) as [[pal1 grid1]|e] eqn:E; [|discriminate].
  destruct (setPixel_as_step source now b u grid pal1 grid1 Hgrid E) as (i & Hi & Hrun).
  cbn [setPixelEach]. unfold bind. rewrite Hrun. fold w h.
  apply decodePixels_Ok in Hgrid as [_ Hlen].
  erewrite setPixelEach_from_stored;
    [|erewrite applyUpdate_length by exact E; exact Hlen | exact Happ].
  apply applyUpdates_Ok in Happ as (Hpre1 & _ & _).
  pose proof (indexOfColor_prefix _ _ _ _ Hpre1 Hi) as Hi'.
  destruct (indexOfColor_lookup _ _ _ Hi) as (c & Hc & _).
  cbn [fmap list_fmap]. unfold eventOfUpdate at 2, finalIndex. rewrite Hi'. cbn [default].
  unfold paletteAt. rewrite Hc.
  destruct Hpre1 as [ext ->]. rewrite (lookup_app_l_Some _ _ _ _ Hc).
  rewrite <- app_assoc. reflexivity.
Qed.

Lemma setPixels_as_sequence_witness :
  exists b',
    fst (setPixels [ {| upd_x := 0; upd_y := 0; upd_color := "#abc" |};
                     {| upd_x := 5; upd_y := 7; upd_color := "#FFF" |} ]
           (Some mcp) 1700000000000 emptyBackend)
    = Ok (currentCanvas b')
    /\ setPixelEach [ {| upd_x := 0; upd_y := 0; upd_color := "#abc" |};
                      {| upd_x := 5; upd_y := 7; upd_color := "#FFF" |} ]
         (Some mcp) 1700000000000 emptyBackend
       = (Ok tt, b').
Proof.
  pose (batch := [ {| upd_x := 0; upd_y := 0; upd_color := "#abc" |};
                   {| upd_x := 5; upd_y := 7; upd_color := "#FFF" |} ]).
  pose (r := setPixels batch (Some mcp) 1700000000000 emptyBackend).
  assert (Hrun : r = (Ok (currentCanvas (snd r)), snd r)) by (vm_compute; reflexivity).
  exists (snd r). split; [exact (f_equal fst Hrun)|].
  exact (setPixels_as_sequence emptyBackend batch (Some mcp) 1700000000000 _ _ Hrun).
Defined.

(** ** Later updates of a batch win *)

Section IntegerNumbers.

Lemma integer_Qeq (q : Q) : isInteger q = true -> (q == inject_Z (toInteger q))%Q.
Proof.
  intros H. apply isInteger_exact in H.
  unfold Qeq, inject_Z. cbn [Qnum Qden]. lia.
Qed.

Lemma Qeq_integer (q : Q) (z : Z) :
  (q == inject_Z z)%Q -> isInteger q = true /\ toInteger q = z.
Proof.
  unfold Qeq, inject_Z, isInteger, toInteger. cbn [Qnum Qden].
  rewrite Z.mul_1_r. intros ->.
  rewrite Z.mod_mul, Z.div_mul by lia. rewrite Z.eqb_refl. auto.
Qed.

(** The cell of an update that passed the checks of the loop. *)
Lemma valid_update_cell (w h : Z) (u : PixelUpdate) :
  failsValidation w h u = false ->
  exists x y,
    (upd_x u == inject_Z x)%Q /\ (upd_y u == inject_Z y)%Q
    /\ 0 <= x < w /\ 0 <= y < h
    /\ isInteger (indexFor (upd_x u) (upd_y u) w) = true
    /\ toInteger (indexFor (upd_x u) (upd_y u) w) = y * w + x
    /\ Qle_bool 0 (indexFor (upd_x u) (upd_y u) w) = true.
Proof.
  unfold failsValidation. intros H.
  apply orb_false_iff in H as [H _].
  apply orb_false_iff in H as [H Hin].
  apply orb_false_iff in H as [Hx Hy].
  apply negb_false_iff in Hx, Hy.
  apply integer_Qeq in Hx, Hy.
  set (x := toInteger (upd_x u)) in *. set (y := toInteger (upd_y u)) in *.
  apply outOfBounds_false in Hin as (Hx0 & Hy0 & Hxw & Hyh).
  rewrite Hx in Hx0, Hxw. rewrite Hy in Hy0, Hyh.
  change 0%Q with (inject_Z 0) in Hx0, Hy0.
  rewrite <- Zle_Qle in Hx0, Hy0. rewrite <- Zlt_Qlt in Hxw, Hyh.
  assert (Hidx : (indexFor (upd_x u) (upd_y u) w == inject_Z (y * w + x))%Q).
  { unfold indexFor. rewrite Hx, Hy, inject_Z_plus, inject_Z_mult. reflexivity. }
  exists x, y. split; [exact Hx|]. split; [exact Hy|].
  split; [lia|]. split; [lia|].
  destruct (Qeq_integer _ _ Hidx) as [Hint Hval].
  split; [exact Hint|]. split; [exact Hval|].
  apply Qle_bool_iff. rewrite Hidx. change 0%Q with (inject_Z 0).
  rewrite <- Zle_Qle. nia.
Qed.

Lemma valid_update_write (w h : Z) (u : PixelUpdate) (grid : list byte) (v : Z) :
  failsValidation w h u = false ->
  typedArraySet grid (indexFor (upd_x u) (upd_y u) w) v
  = <[updateCell w u := toUint8 v]> grid
  /\ 0 <= Z.of_nat (updateCell w u) < w * h.
Proof.
  intros H. destruct (valid_update_cell w h u H) as (x & y & _ & _ & Hx & Hy & Hint & Hval & Hpos).
  unfold typedArraySet, updateCell. rewrite Hint, Hpos, Hval. cbn [andb].
  split; [reflexivity | nia].
Qed.

End IntegerNumbers.

Section LastWrite.

Variables (w h : Z) (pal : list string).

Lemma writes_length (updates : list PixelUpdate) : forall grid,
  List.length (fold_left (writeUpdate w pal) updates grid) = List.length grid.
Proof.
  induction updates as [|u us IH]; intros grid; cbn [fold_left]; [reflexivity|].
  rewrite IH. apply typedArraySet_length.
Qed.

Lemma writes_elsewhere (updates : list PixelUpdate) (k : nat) : forall grid,
  Forall (fun u => failsValidation w h u = false) updates ->
  Forall (fun u => updateCell w u <> k) updates ->
  fold_left (writeUpdate w pal) updates grid !! k = grid !! k.
Proof.
  induction updates as [|u us IH]; intros grid Hvalid Hother; cbn [fold_left]; [reflexivity|].
  apply Forall_cons in Hvalid as [Hu Hvalid]. apply Forall_cons in Hother as [Hk Hother].
  rewrite IH by assumption. unfold writeUpdate.
  destruct (valid_update_write w h u grid
              (Z.of_nat (finalIndex pal (upd_color u))) Hu) as [-> _].
  apply list_lookup_insert_ne, Hk.
Qed.

End LastWrite.

(** X5. In a [setPixels] batch that succeeds, the last update that
    addresses a cell decides it: if no later update of the batch addresses
    the same cell, the stored grid holds at that cell the index (modulo 256)
    that the update's colour has in the stored palette. *)
Theorem setPixels_last_update_wins (b : Backend) (before : list PixelUpdate)
    (u : PixelUpdate) (after : list PixelUpdate)
    (source : option PixelSource) (now : Z) (st : CanvasState) (b' : Backend) :
  let w := width (meta (currentCanvas b)) in
  setPixels (before ++ u :: after) source now b = (Ok st, b') ->
  Forall (fun v => updateCell w v <> updateCell w u) after ->
  exists i,
    indexOfColor (palette (meta st)) (upd_color u) = Some i
    /\ gridOf st !! updateCell w u = Some (toUint8 (Z.of_nat i)).
Proof.
  intros w Hrun Hafter.
  rewrite setPixels_run in Hrun.
  destruct (List.length (before ++ u :: after) =? 0)%nat; [discriminate|].
  cbv zeta in Hrun. fold w in Hrun.
  set (h := height (meta (currentCanvas b))) in *.
  destruct (decodePixelsFromBase64 _ _) as [grid|e] eqn:Hgrid; [|discriminate].
  destruct (applyUpdates _ _ _ _) as [[pal' grid']|e] eqn:Happ; [|discriminate].
  pose proof (applyUpdates_valid _ _ _ _ _ _ _ Happ) as Hvalid.
  apply applyUpdates_Ok in Happ as (_ & Hall & ->).
  cbn [fst snd] in Hrun. rewrite (appendPixelEvents_run _ _ _ _ _ Hall) in Hrun.
  injection Hrun as <- <-. cbn [meta palette].
  apply Forall_app in Hvalid as [_ Hvalid]. apply Forall_cons in Hvalid as [Hu Hvalid].
  apply Forall_app in Hall as [_ Hall]. apply Forall_cons in Hall as [[i Hi] _].
  exists i. split; [exact Hi|].
  unfold gridOf. cbn [pixelsBase64]. unfold encodePixelsToBase64.
  rewrite base64_roundtrip, fold_left_app. cbn [fold_left].
  rewrite (writes_elsewhere w h) by assumption.
  set (g := fold_left (writeUpdate w pal') before grid).
  unfold writeUpdate, finalIndex. rewrite Hi. change (default 0%nat (Some i)) with i.
  destruct (valid_update_write w h u g (Z.of_nat i) Hu) as [-> Hcell].
  apply list_lookup_insert_eq.
  subst g. rewrite writes_length.
  apply decodePixels_Ok in Hgrid as [_ Hlen]. lia.
Qed.

Lemma setPixels_last_update_wins_witness :
  exists st i,
    fst (setPixels [ {| upd_x := 0; upd_y := 0; upd_color := "#abc" |};
                     {| upd_x := 0; upd_y := 0; upd_color := "#def" |};
                     {| upd_x := 1; upd_y := 0; upd_color := "#abc" |} ]
           None 1700000000000 emptyBackend) = Ok st
    /\ indexOfColor (palette (meta st)) "#def" = Some i
    /\ gridOf st !! 0%nat = Some (toUint8 (Z.of_nat i)).
Proof.
  pose (u1 := {| upd_x := 0; upd_y := 0; upd_color := "#abc" |}).
  pose (u2 := {| upd_x := 0; upd_y := 0; upd_color := "#def" |}).
  pose (u3 := {| upd_x := 1; upd_y := 0; upd_color := "#abc" |}).
  pose (r := setPixels ([u1] ++ u2 :: [u3]) None 1700000000000 emptyBackend).
  assert (Hrun : r = (Ok (currentCanvas (snd r)), snd r)) by (vm_compute; reflexivity).
  destruct (setPixels_last_update_wins emptyBackend [u1] u2 [u3] None 1700000000000
              _ _ Hrun) as (i & Hi & Hcell).
  { repeat constructor. vm_compute. discriminate. }
  exists (currentCanvas (snd r)), i.
  split; [exact (f_equal fst Hrun)|]. split; [exact Hi | exact Hcell].
Defined.

(** ** The invariants of the stored canvas *)

Section Invariant.

Lemma gridOf_storedCanvas (w h : Z) (pal : list string) (grid : list byte) :
  gridOf (storedCanvas w h pal grid) = grid.
Proof. unfold gridOf, storedCanvas. cbn [pixelsBase64]. apply base64_roundtrip. Qed.

Lemma toUint8_le (i : nat) : (N.to_nat (Byte.to_N (toUint8 (Z.of_nat i))) <= i)%nat.
Proof.
  unfold toUint8.
  assert (Hmod : 0 <= Z.of_nat i mod 256 < 256) by (apply Z.mod_pos_bound; lia).
  assert (Hle : Z.of_nat i mod 256 <= Z.of_nat i) by (apply Z.mod_le; lia).
  destruct (Byte.of_N (Z.to_N (Z.of_nat i mod 256))) as [byte|] eqn:E.
  - apply Byte.to_of_N in E. rewrite E. lia.
  - cbn. lia.
Qed.

Lemma typedArraySet_Forall (P : byte -> Prop) (grid : list byte) (k : Q) (v : Z) :
  Forall P grid -> P (toUint8 v) -> Forall P (typedArraySet grid k v).
Proof.
  intros Hgrid Hv. unfold typedArraySet.
  destruct (isInteger k && Qle_bool 0 k); [|exact Hgrid].
  apply Forall_insert; assumption.
Qed.

Lemma writes_Forall (P : byte -> Prop) (w : Z) (pal : list string)
    (updates : list PixelUpdate) : forall grid,
  Forall P grid ->
  Forall (fun u => P (toUint8 (Z.of_nat (finalIndex pal (upd_color u))))) updates ->
  Forall P (fold_left (writeUpdate w pal) updates grid).
Proof.
  induction updates as [|u us IH]; intros grid Hgrid Hall; cbn [fold_left]; [exact Hgrid|].
  apply Forall_cons in Hall as [Hu Hall].
  apply IH; [|exact Hall]. apply typedArraySet_Forall; assumption.
Qed.

Lemma ensureColorInPalette_bound (pal : list string) (color : string)
    (pal' : list string) (i : nat) :
  ensureColorInPalette pal color = Ok (pal', i) ->
  (List.length pal <= 256)%nat -> (List.length pal' <= 256)%nat.
Proof.
  rewrite ensureColorInPalette_cases.
  destruct (indexOfColor pal color); [intros [= <- _]; auto|].
  destruct (Nat.leb_spec 256 (List.length pal)); [discriminate|].
  intros [= <- _] _. rewrite length_app. cbn [List.length]. lia.
Qed.

Lemma applyUpdates_bound (w h : Z) (updates : list PixelUpdate) :
  forall pal grid pal' grid',
    applyUpdates w h (pal, grid) updates = Ok (pal', grid') ->
    (List.length pal <= 256)%nat -> (List.length pal' <= 256)%nat.
Proof.
  induction updates as [|u us IH]; intros pal grid pal' grid'; cbn [applyUpdates].
  - intros [= <- _]. auto.
  - destruct (applyUpdate w h (pal, grid) u) as [[pal1 grid1]|e] eqn:E; [|discriminate].
    intros Hrest Hpal. eapply IH; [exact Hrest|].
    apply applyUpdate_Ok in E as (_ & i & Hens & _).
    eapply ensureColorInPalette_bound; eassumption.
Qed.

Lemma cells_below_longer (pal pal' : list string) (grid : list byte) :
  pal `prefix_of` pal' ->
  Forall (fun cell => (N.to_nat (Byte.to_N cell) < List.length pal)%nat) grid ->
  Forall (fun cell => (N.to_nat (Byte.to_N cell) < List.length pal')%nat) grid.
Proof.
  intros Hpre Hgrid. eapply Forall_impl; [exact Hgrid|]. intros cell Hcell.
  apply prefix_length in Hpre. cbn beta in Hcell. lia.
Qed.

Lemma canvasInvariant_initial : canvasInvariant initialCanvas.
Proof.
  unfold canvasInvariant.
  change initialCanvas with (storedCanvas 64 64 DEFAULT_PALETTE (replicate 4096 x00)).
  rewrite gridOf_storedCanvas. cbn [meta width height palette storedCanvas].
  rewrite length_replicate.
  split; [lia|]. split; [lia|]. split; [reflexivity|]. split.
  - apply Forall_replicate. vm_compute. lia.
  - vm_compute. lia.
Qed.

End Invariant.

Lemma runOperation_keeps_invariant (op : Operation) (b : Backend) :
  keepsPalette op ->
  canvasInvariant (currentCanvas b) ->
  canvasInvariant (currentCanvas (runOperation op b)).
Proof.
  intros Hop Hinv.
  destruct op as [|x y color source now|updates source now|w' h' pal'];
    cbn [runOperation].
  - rewrite getCanvas_run. exact Hinv.
  - rewrite setPixel_run. cbv zeta.
    destruct (outOfBounds _ _ _ _); [exact Hinv|].
    destruct (emptyColor color); [exact Hinv|].
    destruct (ensureColorInPalette _ color) as [[pal i]|e] eqn:E; [|exact Hinv].
    destruct (decodePixelsFromBase64 _ _) as [grid|e] eqn:Hgrid; [|exact Hinv].
    cbn [snd currentCanvas canvasKey default].
    apply decodePixels_Ok in Hgrid as [-> _].
    destruct Hinv as (Hw & Hh & Hlen & Hcells & Hpal).
    fold (gridOf (currentCanvas b)).
    match goal with
    | |- canvasInvariant ?st =>
        change st with (storedCanvas (width (meta (currentCanvas b)))
                          (height (meta (currentCanvas b))) pal
                          (typedArraySet (gridOf (currentCanvas b))
                             (indexFor x y (width (meta (currentCanvas b))))
                             (Z.of_nat i)))
    end.
    unfold canvasInvariant. rewrite gridOf_storedCanvas.
    cbn [storedCanvas meta width height palette].
    split; [exact Hw|]. split; [exact Hh|].
    split; [rewrite typedArraySet_length; exact Hlen|]. split.
    + apply typedArraySet_Forall.
      * eapply cells_below_longer; [eapply ensureColorInPalette_prefix, E | exact Hcells].
      * apply ensureColorInPalette_Ok in E as [_ Hi]. apply indexOfColor_lt in Hi.
        pose proof (toUint8_le i). lia.
    + eapply ensureColorInPalette_bound; eassumption.
  - rewrite setPixels_run. cbv zeta.
    destruct (List.length updates =? 0)%nat; [exact Hinv|].
    destruct (decodePixelsFromBase64 _ _) as [grid|e] eqn:Hgrid; [|exact Hinv].
    destruct (applyUpdates _ _ _ updates) as [[pal grid']|e] eqn:Happ; [|exact Hinv].
    pose proof (applyUpdates_bound _ _ _ _ _ _ _ Happ) as Hbound.
    apply applyUpdates_Ok in Happ as (Hpre & Hall & ->).
    cbn [fst snd]. rewrite (appendPixelEvents_run _ _ _ _ _ Hall).
    cbn [snd currentCanvas canvasKey default].
    apply decodePixels_Ok in Hgrid as [-> _].
    destruct Hinv as (Hw & Hh & Hlen & Hcells & Hpal).
    fold (gridOf (currentCanvas b)).
    match goal with
    | |- canvasInvariant ?st =>
        change st with (storedCanvas (width (meta (currentCanvas b)))
                          (height (meta (currentCanvas b))) pal
                          (fold_left (writeUpdate (width (meta (currentCanvas b))) pal)
                             updates (gridOf (currentCanvas b))))
    end.
    unfold canvasInvariant. rewrite gridOf_storedCanvas.
    cbn [storedCanvas meta width height palette].
    split; [exact Hw|]. split; [exact Hh|].
    split; [rewrite writes_length; exact Hlen|]. split.
    + apply writes_Forall.
      * eapply cells_below_longer; eassumption.
      * eapply Forall_impl; [exact Hall|]. intros u [i Hi].
        unfold finalIndex. rewrite Hi. change (default 0%nat (Some i)) with i.
        apply indexOfColor_lt in Hi. pose proof (toUint8_le i). lia.
    + apply Hbound, Hpal.
  - rewrite resetCanvas_run. cbv zeta.
    set (rw := default (inject_Z (width (meta (currentCanvas b)))) w').
    set (rh := default (inject_Z (height (meta (currentCanvas b)))) h').
    destruct (negb (isInteger rw) || negb (isInteger rh) || Qle_bool rw 0 || Qle_bool rh 0)
      eqn:Hdims; [exact Hinv|].
    apply orb_false_iff in Hdims as [Hdims Hh0].
    apply orb_false_iff in Hdims as [Hdims Hw0].
    apply orb_false_iff in Hdims as [Hwi Hhi].
    apply negb_false_iff in Hwi, Hhi.
    apply Qle_bool_gt in Hw0, Hh0.
    pose proof (toInteger_positive _ Hwi Hw0) as Hw.
    pose proof (toInteger_positive _ Hhi Hh0) as Hh.
    destruct (maxTypedArrayLength <? toInteger rw * toInteger rh); [exact Hinv|].
    cbn [snd currentCanvas canvasKey default].
    match goal with
    | |- canvasInvariant ?st =>
        change st with (storedCanvas (toInteger rw) (toInteger rh)
                          (default (palette (meta (currentCanvas b))) pal')
                          (replicate (Z.to_nat (toInteger rw * toInteger rh)) x00))
    end.
    unfold canvasInvariant. rewrite gridOf_storedCanvas.
    cbn [storedCanvas meta width height palette].
    rewrite length_replicate.
    split; [exact Hw|]. split; [exact Hh|]. split; [nia|].
    destruct Hinv as (Hw1 & Hh1 & Hlen & Hcells & Hpal).
    assert (Hpalette : (0 < List.length (default (palette (meta (currentCanvas b))) pal')
                        <= 256)%nat).
    { destruct pal' as [p|]; cbn [default from_option id] in *.
      - destruct Hop as [Hne Hle]. destruct p; [congruence | cbn [List.length]; cbn [List.length] in Hle; lia].
      - split; [|exact Hpal].
        destruct (gridOf (currentCanvas b)) as [|cell grid]; [cbn [List.length] in Hlen; nia|].
        apply Forall_cons in Hcells as [Hcell _]. lia. }
    split; [|lia].
    apply Forall_replicate. change (N.to_nat (Byte.to_N x00)) with 0%nat. lia.
Qed.

(** X6. The invariants of the data model (positive dimensions, a grid of
    exactly [width * height] cells, every cell an index into the palette,
    at most 256 colours) are kept by every operation, successful or not,
    on every backend whose canvas has them, except by a reset that brings a
    palette which is empty or longer than 256 entries. *)
Theorem canvas_invariant_preserved (op : Operation) (b : Backend) :
  keepsPalette op ->
  canvasInvariant (currentCanvas b) ->
  canvasInvariant (currentCanvas (runOperation op b)).
Proof. apply runOperation_keeps_invariant. Qed.

Lemma canvas_invariant_preserved_witness :
  canvasInvariant
    (currentCanvas (runOperation (OpSetPixel 1 1 "#123456" None 1700000000000) emptyBackend)).
Proof.
  apply (canvas_invariant_preserved (OpSetPixel 1 1 "#123456" None 1700000000000)
           emptyBackend).
  - exact I.
  - exact canvasInvariant_initial.
Defined.

(** X7. Starting from an empty backend, after any history of operations
    none of which is a reset bringing an empty or over-long palette, the
    canvas has the invariants of the data model; in particular its stored
    grid decodes, so that no later call fails with the length-mismatch
    error. *)
Theorem reachable_canvas_invariant (ops : list Operation) :
  Forall keepsPalette ops ->
  let current := currentCanvas (runOperations ops emptyBackend) in
  canvasInvariant current
  /\ decodePixelsFromBase64 (pixelsBase64 current)
       (width (meta current) * height (meta current))
     = Ok (gridOf current).
Proof.
  intros Hops current.
  assert (Hinv : canvasInvariant current).
  { subst current. unfold runOperations.
    assert (Hstart : canvasInvariant (currentCanvas emptyBackend))
      by exact canvasInvariant_initial.
    revert Hstart. generalize emptyBackend.
    induction Hops as [|op ops Hop _ IH]; intros b Hb; cbn [fold_left]; [exact Hb|].
    apply IH, runOperation_keeps_invariant; assumption. }
  split; [exact Hinv|].
  destruct Hinv as (_ & _ & Hlen & _).
  unfold decodePixelsFromBase64. fold (gridOf current).
  rewrite Hlen, Z.eqb_refl. reflexivity.
Qed.

Lemma reachable_canvas_invariant_witness :
  canvasInvariant
    (currentCanvas
       (runOperations
          [ OpSetPixel 1 1 "#123456" None 1700000000000;
            OpResetCanvas (Some 10%Q) (Some 10%Q) None;
            OpSetPixels [ {| upd_x := 9; upd_y := 9; upd_color := "red" |} ]
              (Some mcp) 1700000000001 ]
          emptyBackend)).
Proof.
  apply (reachable_canvas_invariant
           [ OpSetPixel 1 1 "#123456" None 1700000000000;
             OpResetCanvas (Some 10%Q) (Some 10%Q) None;
             OpSetPixels [ {| upd_x := 9; upd_y := 9; upd_color := "red" |} ]
               (Some mcp) 1700000000001 ]).
  repeat constructor.
Defined.

(** ** [resetCanvas] and [getCanvas] *)


(** X9. [getCanvas] never fails and returns the stored state; when no
    state is stored it stores and returns the default canvas (64 by 64,
    the default palette, 4096 zero cells).  Afterwards the state is stored:
    reading again returns the same state and writes nothing; the event log
    is never touched. *)
Theorem getCanvas_lazy_initialisation (b : Backend) :
  exists st b',
    getCanvas b = (Ok st, b')
    /\ canvasKey b' = Some st
    /\ eventsList b' = eventsList b
    /\ getCanvas b' = (Ok st, b')
    /\ (forall s, canvasKey b = Some s -> st = s /\ b' = b)
    /\ (canvasKey b = None ->
        width (meta st) = 64 /\ height (meta st) = 64
        /\ palette (meta st) = DEFAULT_PALETTE
        /\ gridOf st = replicate 4096 x00).
Proof.
  exists (currentCanvas b), (initialised b).
  split; [apply getCanvas_run|]. split; [reflexivity|]. split; [reflexivity|].
  split; [rewrite getCanvas_run; reflexivity|]. split.
  - intros s Hs. split.
    + unfold currentCanvas. rewrite Hs. reflexivity.
    + apply initialised_stored. rewrite Hs. eauto.
  - intros Hnone. unfold currentCanvas. rewrite Hnone. cbn [default from_option id].
    repeat (split; [reflexivity|]).
    apply (gridOf_storedCanvas 64 64 DEFAULT_PALETTE (replicate 4096 x00)).
Qed.

(** ** The palette and the spelling of colours *)

Section Spelling.

Lemma normalizeColorString_toLowerCase (color : string) :
  normalizeColorString (toLowerCase color) = normalizeColorString color.
Proof.
  unfold normalizeColorString.
  rewrite trim_toLowerCase, toLowerCase_idemp. reflexivity.
Qed.

Lemma normalizeColorString_trim (color : string) :
  normalizeColorString (trim color) = normalizeColorString color.
Proof. unfold normalizeColorString. rewrite trim_idemp. reflexivity. Qed.

Lemma ensureColorInPalette_same_normal (pal : list string) (color color' : string) :
  normalizeColorString color' = normalizeColorString color ->
  ensureColorInPalette pal color' = ensureColorInPalette pal color.
Proof.
  intros Heq. rewrite !ensureColorInPalette_cases.
  rewrite (indexOfColor_normal_eq _ _ _ Heq), Heq. reflexivity.
Qed.

End Spelling.

(** X10. The palette does not distinguish spellings of a colour: two
    colour strings with the same normal form get the same answer from
    [ensureColorInPalette] on every palette, and so do a colour, its
    lower-case form, its trimmed form, its normal form, and a three-digit
    hex colour and its six-digit expansion in either letter case. *)
Theorem ensureColorInPalette_spelling (pal : list string) (color : string) :
  (forall color', normalizeColorString color' = normalizeColorString color ->
                  ensureColorInPalette pal color' = ensureColorInPalette pal color)
  /\ ensureColorInPalette pal (toLowerCase color) = ensureColorInPalette pal color
  /\ ensureColorInPalette pal (trim color) = ensureColorInPalette pal color
  /\ ensureColorInPalette pal (normalizeColorString color) = ensureColorInPalette pal color
  /\ (forall r g b' : ascii,
         isHexDigit r = true -> isHexDigit g = true -> isHexDigit b' = true ->
         ensureColorInPalette pal
           (String "#" (String r (String r (String g (String g (String b' (String b' EmptyString)))))))
         = ensureColorInPalette pal
             (String "#" (String r (String g (String b' EmptyString))))).
Proof.
  split; [intros color'; apply ensureColorInPalette_same_normal|].
  split; [apply ensureColorInPalette_same_normal, normalizeColorString_toLowerCase|].
  split; [apply ensureColorInPalette_same_normal, normalizeColorString_trim|].
  split; [apply ensureColorInPalette_same_normal, normalizeColorString_idemp|].
  intros r g b' Hr Hg Hb. apply ensureColorInPalette_same_normal.
  pose proof (isHexDigit_not_space _ Hr) as Wr.
  pose proof (isHexDigit_not_space _ Hg) as Wg.
  pose proof (isHexDigit_not_space _ Hb) as Wb.
  assert (Hlower : forall c, isHexDigit c = true -> isHexDigit (toLowerChar c) = true).
  { intros [[] [] [] [] [] [] [] []] H; first [reflexivity | discriminate H]. }
  unfold normalizeColorString, trim. cbn [trimStart].
  change (isWhiteSpace "#") with false. cbv iota.
  cbn [trimEnd]. rewrite Wb. cbn [toLowerCase shortHexMatch].
  change (toLowerChar "#") with "#"%char. change (Ascii.eqb "#" "#") with true.
  rewrite (Hlower r Hr), (Hlower g Hg), (Hlower b' Hb). reflexivity.
Qed.

(** X11. [ensureColorInPalette] fails only with the palette-full error,
    and exactly when the palette holds no entry with the colour's normal
    form and already has 256 entries or more; otherwise it returns the
    index of the first such entry, or appends the normal form and returns
    the new last index. *)
Theorem ensureColorInPalette_outcome (pal : list string) (color : string) :
  (forall e, ensureColorInPalette pal color = Err e <->
             e = PaletteFull /\ indexOfColor pal color = None
             /\ (256 <= List.length pal)%nat)
  /\ (forall i, indexOfColor pal color = Some i ->
                ensureColorInPalette pal color = Ok (pal, i))
  /\ (indexOfColor pal color = None -> (List.length pal < 256)%nat ->
      ensureColorInPalette pal color
      = Ok ((pal ++ [normalizeColorString color])%list, List.length pal)).
Proof.
  rewrite ensureColorInPalette_cases.
  destruct (indexOfColor pal color) as [j|] eqn:E.
  - split; [|split].
    + intros e. split; [discriminate | intros (_ & [=] & _)].
    + intros i [= <-]. reflexivity.
    + discriminate.
  - destruct (Nat.leb_spec 256 (List.length pal)).
    + split; [|split].
      * intros e. split; [intros [= <-]; auto | intros (-> & _ & _); reflexivity].
      * discriminate.
      * intros _ Hlt. lia.
    + split; [|split].
      * intros e. split; [discriminate | intros (_ & _ & Hge); lia].
      * discriminate.
      * reflexivity.
Qed.

(** ** Writing events and reading them back *)

Section ReadYourWrites.

Variable JSON_parse : string -> option JsValue.

Lemma getCanvasEvents_window (limit : Q) (b : Backend) :
  isInteger limit = true -> (0 < limit)%Q ->
  getCanvasEvents JSON_parse (JNum limit) b
  = (Ok (omap (parseLogEntry JSON_parse)
           (drop (List.length (eventsList b) - Z.to_nat (toInteger limit)) (eventsList b))),
     b).
Proof.
  intros Hint Hpos.
  pose proof (toInteger_positive _ Hint Hpos) as Hn.
  unfold getCanvasEvents.
  rewrite (proj2 (Qltb_lt 0 limit) Hpos).
  unfold bind at 1. unfold redis_llen at 1.
  set (len := Z.of_nat (List.length (eventsList b))).
  destruct (window_start_integer len limit Hint) as [Hsint Hsval].
  change 1%Q with (inject_Z 1). rewrite Qminus_inject_Z.
  unfold bind, redis_lrange, ret.
  rewrite Hsint, Hsval, isInteger_inject_Z, toInteger_inject_Z. cbn [andb].
  subst len. rewrite listRange_tail by exact Hn. reflexivity.
Qed.

Lemma parseLogEntry_pixelSetEvent x y color i now source :
  parseLogEntry JSON_parse (pixelSetEvent x y color i now source)
  = Some (pixelSetEvent x y color i now source).
Proof. reflexivity. Qed.

Lemma omap_parse_events (pal : list string) (source : option PixelSource) (now : Z)
    (updates : list PixelUpdate) :
  omap (parseLogEntry JSON_parse) (eventOfUpdate pal source now <$> updates)
  = eventOfUpdate pal source now <$> updates.
Proof.
  induction updates as [|u us IH]; [reflexivity|].
  cbn [fmap list_fmap omap list_omap]. cbn [fmap list_fmap] in IH.
  unfold eventOfUpdate at 1. rewrite parseLogEntry_pixelSetEvent.
  cbn [omap list_omap] in IH |- *. rewrite IH. reflexivity.
Qed.

Lemma parseLogEntry_sound (raw v : JsValue) :
  parseLogEntry JSON_parse raw = Some v -> isEventObject v.
Proof.
  unfold parseLogEntry.
  destruct (unwrapEncoded JSON_parse 2 raw) as [| |flag|q|s|items|fields];
    cbn [truthy isObjectType negb orb strictEqString];
    rewrite ?orb_true_r; try discriminate.
  destruct (getField "type" fields) as [| |flag|q|s|items|fs] eqn:Htype;
    cbn [strictEqString]; try discriminate.
  destruct (String.eqb_spec s "pixel_set") as [->|_].
  - intros [= <-]. exists fields. auto.
  - destruct (String.eqb_spec s "tool_used") as [->|_]; [|discriminate].
    intros [= <-]. exists fields. auto.
Qed.

Lemma omap_parse_sound (entries : list JsValue) :
  Forall isEventObject (omap (parseLogEntry JSON_parse) entries).
Proof.
  induction entries as [|raw entries IH]; cbn [omap list_omap]; [constructor|].
  destruct (parseLogEntry JSON_parse raw) as [v|] eqn:E; [|exact IH].
  constructor; [eapply parseLogEntry_sound, E | exact IH].
Qed.

End ReadYourWrites.

(** X12. The event of a successful [setPixel] is what the log reader
    returns next: [getCanvasEvents] with limit 1 returns exactly that one
    event (the coordinates, the palette entry and index, the clock reading
    and the source of the call) and changes nothing. *)
Theorem setPixel_event_read_back (JSON_parse : string -> option JsValue)
    (b : Backend) (x y : Q) (color : string) (source : option PixelSource) (now : Z)
    (st : CanvasState) (b' : Backend) :
  setPixel x y color source now b = (Ok st, b') ->
  exists c i,
    palette (meta st) !! i = Some c
    /\ getCanvasEvents JSON_parse (JNum 1) b'
       = (Ok [pixelSetEvent x y (JStr c) i now source], b').
Proof.
  intros Hrun.
  destruct (setPixel_event_color _ _ _ _ _ _ _ _ Hrun) as (c & i & Hlog & Hc & _).
  exists c, i. split; [exact Hc|].
  rewrite getCanvasEvents_window by reflexivity.
  rewrite Hlog, length_app. cbn [List.length].
  change (Z.to_nat (toInteger 1)) with 1%nat.
  replace (List.length (eventsList b) + 1 - 1)%nat with (List.length (eventsList b)) by lia.
  rewrite drop_app_length. reflexivity.
Qed.

Lemma setPixel_event_read_back_witness :
  exists c i,
    getCanvasEvents sampleParse (JNum 1)
      (snd (setPixel 3 4 "Red" (Some api) 1700000000000 sampleBackend))
    = (Ok [pixelSetEvent 3 4 (JStr c) i 1700000000000 (Some api)],
       snd (setPixel 3 4 "Red" (Some api) 1700000000000 sampleBackend)).
Proof.
  pose (r := setPixel 3 4 "Red" (Some api) 1700000000000 sampleBackend).
  assert (Hrun : r = (Ok (currentCanvas (snd r)), snd r)) by (vm_compute; reflexivity).
  destruct (setPixel_event_read_back sampleParse sampleBackend 3 4 "Red" (Some api)
              1700000000000 _ _ Hrun) as (c & i & _ & Hread).
  exists c, i. exact Hread.
Defined.

(** X13. After a [setPixels] batch of [n] updates has succeeded,
    [getCanvasEvents] with limit [n] returns exactly the [n] events of the
    batch, in the order of the updates, each with the index its colour has
    in the stored palette. *)
Theorem setPixels_events_read_back (JSON_parse : string -> option JsValue)
    (b : Backend) (updates : list PixelUpdate) (source : option PixelSource) (now : Z)
    (st : CanvasState) (b' : Backend) :
  setPixels updates source now b = (Ok st, b') ->
  getCanvasEvents JSON_parse (JNum (inject_Z (Z.of_nat (List.length updates)))) b'
  = (Ok (eventOfUpdate (palette (meta st)) source now <$> updates), b').
Proof.
  rewrite setPixels_run.
  destruct (Nat.eqb_spec (List.length updates) 0) as [|Hlen]; [discriminate|].
  cbv zeta.
  destruct (decodePixelsFromBase64 _ _) as [grid|e]; [|discriminate].
  destruct (applyUpdates _ _ _ updates) as [[pal' grid']|e] eqn:Happ; [|discriminate].
  apply applyUpdates_Ok in Happ as (_ & Hall & _).
  cbn [fst snd]. rewrite (appendPixelEvents_run _ _ _ _ _ Hall).
  cbn [canvasKey eventsList]. intros [= <- <-]. cbn [meta palette].
  set (events := eventOfUpdate pal' source now <$> updates).
  assert (Hevents : List.length events = List.length updates)
    by (subst events; apply length_fmap).
  rewrite getCanvasEvents_window.
  - cbn [eventsList]. rewrite toInteger_inject_Z, Nat2Z.id, length_app, Hevents.
    replace (List.length (eventsList b) + List.length updates - List.length updates)%nat
      with (List.length (eventsList b)) by lia.
    rewrite drop_app_length. subst events. rewrite omap_parse_events. reflexivity.
  - apply isInteger_inject_Z.
  - change 0%Q with (inject_Z 0). rewrite <- Zlt_Qlt. lia.
Qed.

Lemma setPixels_events_read_back_witness :
  getCanvasEvents sampleParse (JNum 2)
    (snd (setPixels [ {| upd_x := 0; upd_y := 0; upd_color := "#abc" |};
                      {| upd_x := 1; upd_y := 0; upd_color := "#FFF" |} ]
            None 1700000000000 sampleBackend))
  = (Ok [ pixelSetEvent 0 0 (JStr "#aabbcc") 16 1700000000000 None;
          pixelSetEvent 1 0 (JStr "#FFFFFF") 0 1700000000000 None ],
     snd (setPixels [ {| upd_x := 0; upd_y := 0; upd_color := "#abc" |};
                      {| upd_x := 1; upd_y := 0; upd_color := "#FFF" |} ]
            None 1700000000000 sampleBackend)).
Proof.
  pose (batch := [ {| upd_x := 0; upd_y := 0; upd_color := "#abc" |};
                   {| upd_x := 1; upd_y := 0; upd_color := "#FFF" |} ]).
  pose (r := setPixels batch None 1700000000000 sampleBackend).
  assert (Hrun : r = (Ok (currentCanvas (snd r)), snd r)) by (vm_compute; reflexivity).
  pose proof (setPixels_events_read_back sampleParse sampleBackend batch None
                1700000000000 _ _ Hrun) as Hread.
  etrans; [exact Hread|]. vm_compute. reflexivity.
Defined.

(** X14. The reader of the log accepts an event stored as an object, as
    JSON text, or as JSON text encoded a second time, and returns the
    object in all three cases; an entry that is still a string after two
    rounds of parsing, or a string that does not parse, is dropped. *)
Theorem parseLogEntry_encoding_layers (JSON_parse : string -> option JsValue)
    (fields : list (string * JsValue)) :
  getField "type" fields = JStr "pixel_set"
  \/ getField "type" fields = JStr "tool_used" ->
  parseLogEntry JSON_parse (JObj fields) = Some (JObj fields)
  /\ (forall s1, JSON_parse s1 = Some (JObj fields) ->
                 parseLogEntry JSON_parse (JStr s1) = Some (JObj fields))
  /\ (forall s1 s2, JSON_parse s2 = Some (JStr s1) -> JSON_parse s1 = Some (JObj fields) ->
                    parseLogEntry JSON_parse (JStr s2) = Some (JObj fields))
  /\ (forall s1 s2 s3, JSON_parse s3 = Some (JStr s2) -> JSON_parse s2 = Some (JStr s1) ->
                       parseLogEntry JSON_parse (JStr s3) = None)
  /\ (forall s, JSON_parse s = None -> parseLogEntry JSON_parse (JStr s) = None).
Proof.
  intros Htype.
  assert (Hobj : parseLogEntry JSON_parse (JObj fields) = Some (JObj fields)).
  { unfold parseLogEntry. cbn [unwrapEncoded truthy isObjectType negb orb].
    destruct Htype as [-> | ->]; reflexivity. }
  split; [exact Hobj|]. split; [|split; [|split]].
  - intros s1 H1. unfold parseLogEntry in *. cbn [unwrapEncoded] in *.
    rewrite H1. exact Hobj.
  - intros s1 s2 H2 H1. unfold parseLogEntry in *. cbn [unwrapEncoded] in *.
    rewrite H2, H1. exact Hobj.
  - intros s1 s2 s3 H3 H2. unfold parseLogEntry. cbn [unwrapEncoded].
    rewrite H3, H2. cbn [truthy isObjectType].
    destruct (negb (String.eqb s1 EmptyString)); reflexivity.
  - intros s H. unfold parseLogEntry. cbn [unwrapEncoded]. rewrite H.
    cbn [truthy isObjectType]. destruct (negb (String.eqb s EmptyString)); reflexivity.
Qed.

Lemma parseLogEntry_encoding_layers_witness :
  parseLogEntry sampleParse sampleToolEvent = Some sampleToolEvent
  /\ parseLogEntry sampleParse (JStr "tool-event-text") = Some sampleToolEvent
  /\ parseLogEntry sampleParse (JStr "not json") = None.
Proof.
  destruct (parseLogEntry_encoding_layers sampleParse
              [ ("type", JStr "tool_used"); ("toolName", JStr "get_canvas");
                ("argsJson", JStr "{}"); ("timestampMs", JNum 1700000000000) ])
    as (Hobj & Htext & _ & _ & Hbad).
  - right. reflexivity.
  - split; [exact Hobj|]. split; [apply Htext | apply Hbad]; reflexivity.
Defined.

(** X15. Whatever the limit and whatever the log holds, [getCanvasEvents]
    leaves the backend as it is, and every value it returns is an object
    whose [type] is [pixel_set] or [tool_used]. *)
Theorem getCanvasEvents_returns_events (JSON_parse : string -> option JsValue)
    (limit : JsValue) (b : Backend) (events : list JsValue) (b' : Backend) :
  getCanvasEvents JSON_parse limit b = (Ok events, b') ->
  b' = b /\ Forall isEventObject events.
Proof.
  assert (Hrange : forall start stop k,
             bind (redis_lrange start stop)
               (fun values => ret (omap (parseLogEntry JSON_parse) values)) b
             = (Ok events, b') ->
             k = tt -> b' = b /\ Forall isEventObject events).
  { intros start stop k. unfold bind, redis_lrange, ret.
    destruct (isInteger start && isInteger stop); [|discriminate].
    intros [= <- <-] _. split; [reflexivity | apply omap_parse_sound]. }
  unfold getCanvasEvents.
  destruct limit as [| |flag|l|s|items|fields];
    try (intros H; exact (Hrange _ _ tt H eq_refl)).
  destruct (Qltb 0 l); [|intros H; exact (Hrange _ _ tt H eq_refl)].
  unfold bind at 1. unfold redis_llen at 1.
  intros H. exact (Hrange _ _ tt H eq_refl).
Qed.

Lemma getCanvasEvents_returns_events_witness :
  Forall isEventObject
    [ sampleToolEvent; pixelSetEvent 3 4 (JStr "#FFFFFF") 0 1700000000002 None ].
Proof.
  apply (getCanvasEvents_returns_events sampleParse (JNum 2) sampleBackend _ sampleBackend).
  vm_compute. reflexivity.
Defined.

(** ** The page's validator and the service's events *)

Section Validator.

Lemma isCanvasEvent_pixelSetEvent x y c i now source :
  isCanvasEvent (pixelSetEvent x y (JStr c) i now source) = true.
Proof. destruct source as [[]|]; reflexivity. Qed.

Lemma isCanvasEvent_toolUsedEvent toolName text now :
  isCanvasEvent (toolUsedEvent toolName (JStr text) now) = true.
Proof. destruct toolName; reflexivity. Qed.

Lemma isCanvasEvent_eventOfUpdate pal source now u :
  is_Some (indexOfColor pal (upd_color u)) ->
  isCanvasEvent (eventOfUpdate pal source now u) = true.
Proof.
  intros [i Hi]. unfold eventOfUpdate, finalIndex. rewrite Hi.
  change (default 0%nat (Some i)) with i.
  destruct (indexOfColor_lookup _ _ _ Hi) as (c & Hc & _).
  unfold paletteAt. rewrite Hc. apply isCanvasEvent_pixelSetEvent.
Qed.

End Validator.

(** X16. Every entry the service writes passes the validator of the page:
    the event of a successful [setPixel], each of the events of a
    successful [setPixels] batch (one per update), and the entry of
    [logToolUsed] whenever [JSON.stringify] gives a text or throws. *)
Theorem page_accepts_service_events :
  (forall b x y color source now st b',
      setPixel x y color source now b = (Ok st, b') ->
      exists ev, eventsList b' = (eventsList b ++ [ev])%list /\ isCanvasEvent ev = true)
  /\ (forall b updates source now st b',
         setPixels updates source now b = (Ok st, b') ->
         exists evs,
           eventsList b' = (eventsList b ++ evs)%list
           /\ List.length evs = List.length updates
           /\ Forall (fun ev => isCanvasEvent ev = true) evs)
  /\ (forall JSON_stringify toolName args now b,
         JSON_stringify args <> StringifiedUndefined ->
         exists ev,
           eventsList (snd (logToolUsed JSON_stringify toolName args now b))
           = (eventsList b ++ [ev])%list
           /\ isCanvasEvent ev = true).
Proof.
  split; [|split].
  - intros b x y color source now st b' Hrun.
    destruct (setPixel_event_color _ _ _ _ _ _ _ _ Hrun) as (c & i & Hlog & _).
    eexists. split; [exact Hlog | apply isCanvasEvent_pixelSetEvent].
  - intros b updates source now st b'. rewrite setPixels_run.
    destruct (List.length updates =? 0)%nat; [discriminate|]. cbv zeta.
    destruct (decodePixelsFromBase64 _ _) as [grid|e]; [|discriminate].
    destruct (applyUpdates _ _ _ updates) as [[pal' grid']|e] eqn:Happ; [|discriminate].
    apply applyUpdates_Ok in Happ as (_ & Hall & _).
    cbn [fst snd]. rewrite (appendPixelEvents_run _ _ _ _ _ Hall).
    intros [= <- <-]. cbn [eventsList].
    eexists. split; [reflexivity|]. split; [apply length_fmap|].
    apply Forall_fmap. eapply Forall_impl; [exact Hall|].
    intros u Hu. apply isCanvasEvent_eventOfUpdate, Hu.
  - intros JSON_stringify toolName args now b Hdefined. unfold logToolUsed.
    destruct (JSON_stringify args) as [text| |]; [|congruence|];
      (eexists; split; [reflexivity | exact (isCanvasEvent_toolUsedEvent _ _ _)]).
Qed.

(** X17. The validator of the page is stricter than the reader of the
    log: a value it accepts is returned unchanged by the reader, without
    any parsing. *)
Theorem page_validator_implies_reader (JSON_parse : string -> option JsValue)
    (value : JsValue) :
  isCanvasEvent value = true ->
  parseLogEntry JSON_parse value = Some value /\ isEventObject value.
Proof.
  intros H.
  assert (Hparse : parseLogEntry JSON_parse value = Some value).
  { unfold isCanvasEvent, isRecord in H. unfold parseLogEntry.
    destruct value as [| |flag|q|s|items|fields];
      cbn [truthy isObjectType isArray negb andb] in H;
      rewrite ?andb_false_r in H; cbn [negb] in H; try discriminate H.
    cbn [unwrapEncoded truthy isObjectType negb orb getProperty] in H |- *.
    destruct (strictEqString (getField "type" fields) "pixel_set"); [reflexivity|].
    destruct (strictEqString (getField "type" fields) "tool_used");
      [reflexivity | discriminate H]. }
  split; [exact Hparse | eapply parseLogEntry_sound, Hparse].
Qed.

Lemma page_validator_implies_reader_witness :
  parseLogEntry sampleParse sampleToolEvent = Some sampleToolEvent
  /\ isEventObject sampleToolEvent.
Proof.
  apply (page_validator_implies_reader sampleParse sampleToolEvent). reflexivity.
Defined.

(** ** The page: ages and the tool address *)

Ltac div_lia := Z.div_mod_to_equations; lia.

Ltac solve_unit :=
  first [ exfalso; div_lia | reflexivity | split; [reflexivity | div_lia] | div_lia ].

(** X18. [formatTimeAgo] shows the age of a timestamp in the largest unit
    that is at least one: ["now"] for a timestamp in the future, ["just
    now"] below five seconds, then whole seconds (5 to 59), whole minutes
    (1 to 59), whole hours (1 to 23) and whole days, each rounded down from
    the age in milliseconds. *)
Theorem formatTimeAgo_units (now timestampMs : Z) :
  let age := now - timestampMs in
  (age < 0 -> formatTimeAgo now timestampMs = "now")
  /\ (0 <= age < 5000 -> formatTimeAgo now timestampMs = "just now")
  /\ (5000 <= age < 60000 ->
      formatTimeAgo now timestampMs = numberText (age / 1000) ++ "s ago"
      /\ 5 <= age / 1000 < 60)
  /\ (60000 <= age < 3600000 ->
      formatTimeAgo now timestampMs = numberText (age / 60000) ++ "m ago"
      /\ 1 <= age / 60000 < 60)
  /\ (3600000 <= age < 86400000 ->
      formatTimeAgo now timestampMs = numberText (age / 3600000) ++ "h ago"
      /\ 1 <= age / 3600000 < 24)
  /\ (86400000 <= age ->
      formatTimeAgo now timestampMs = numberText (age / 86400000) ++ "d ago"
      /\ 1 <= age / 86400000).
Proof.
  intros age. unfold formatTimeAgo. fold age. cbv zeta.
  assert (Hmin : age / 1000 / 60 = age / 60000) by (rewrite Z.div_div by lia; reflexivity).
  assert (Hhr : age / 1000 / 60 / 60 = age / 3600000)
    by (rewrite !Z.div_div by lia; reflexivity).
  assert (Hday : age / 1000 / 60 / 60 / 24 = age / 86400000)
    by (rewrite !Z.div_div by lia; reflexivity).
  rewrite Hday, Hhr, Hmin. clear Hday Hhr Hmin.
  destruct (Z.ltb_spec age 0) as [Hneg|Hpos].
  { repeat split; intros; solve_unit. }
  destruct (Z.ltb_spec (age / 1000) 5) as [H5|H5].
  { repeat split; intros; solve_unit. }
  destruct (Z.ltb_spec (age / 1000) 60) as [H60|H60].
  { repeat split; intros; solve_unit. }
  destruct (Z.ltb_spec (age / 60000) 60) as [Hm|Hm].
  { repeat split; intros; solve_unit. }
  destruct (Z.ltb_spec (age / 3600000) 24) as [Hh|Hh].
  { repeat split; intros; solve_unit. }
  repeat split; intros; solve_unit.
Qed.

Section Address.

Lemma append_cons (c : ascii) (r t : string) : String c r ++ t = String c (r ++ t).
Proof. reflexivity. Qed.

Lemma append_not_empty (t : string) (c : ascii) : EmptyString <> t ++ String c EmptyString.
Proof. destruct t; discriminate. Qed.

Lemma stripTrailingSlashes_snoc (text : string) :
  stripTrailingSlashes (text ++ "/") = stripTrailingSlashes text.
Proof.
  induction text as [|c r IH]; [reflexivity|].
  rewrite append_cons. cbn [stripTrailingSlashes]. rewrite IH. reflexivity.
Qed.

Lemma stripTrailingSlashes_no_final_slash (text : string) :
  forall t, stripTrailingSlashes text <> t ++ "/".
Proof.
  induction text as [|c r IH]; intros t; cbn [stripTrailingSlashes].
  - apply append_not_empty.
  - destruct (stripTrailingSlashes r) as [|d r'] eqn:E.
    + destruct (Ascii.eqb_spec c "/") as [->|Hc]; [apply append_not_empty|].
      destruct t as [|c' t']; [intros [= ->]; congruence|].
      rewrite append_cons. intros [= _ H]. exact (append_not_empty _ _ H).
    + destruct t as [|c' t']; [discriminate|].
      rewrite append_cons. intros [= _ H]. exact (IH _ H).
Qed.

Lemma stripTrailingSlashes_split (text : string) :
  exists k, text = stripTrailingSlashes text ++ slashes k.
Proof.
  induction text as [|c r [k IH]]; [exists 0%nat; reflexivity|].
  cbn [stripTrailingSlashes].
  destruct (stripTrailingSlashes r) as [|d r'] eqn:E.
  - destruct (Ascii.eqb_spec c "/") as [->|Hc].
    + exists (S k). cbn [slashes]. change (EmptyString ++ slashes k) with (slashes k) in IH.
      rewrite <- IH. reflexivity.
    + exists k. rewrite append_cons. rewrite <- IH. reflexivity.
  - exists k. rewrite append_cons. rewrite <- IH. reflexivity.
Qed.

End Address.

(** X19. The address [getMcpUrl] shows is the location without its final
    slashes, followed by ["/mcp"]: the part before ["/mcp"] never ends with
    a slash, only final slashes are removed from the location, and a slash
    more at the end of the location does not change the address.  Without a
    [window] the address is ["/mcp"]. *)
Theorem getMcpUrl_final_slashes (location : string) :
  getMcpUrl None = "/mcp"
  /\ (exists base k,
         getMcpUrl (Some location) = base ++ "/mcp"
         /\ location = base ++ slashes k
         /\ forall t, base <> t ++ "/")
  /\ getMcpUrl (Some (location ++ "/")) = getMcpUrl (Some location).
Proof.
  split; [reflexivity|]. split.
  - destruct (stripTrailingSlashes_split location) as [k Hk].
    exists (stripTrailingSlashes location), k.
    split; [reflexivity|]. split; [exact Hk|].
    apply stripTrailingSlashes_no_final_slash.
  - unfold getMcpUrl. rewrite stripTrailingSlashes_snoc. reflexivity.
Qed.

(** ** The tools: audit first, then act *)

Section ToolProperties.

Variable JSON_stringify : JsValue -> Stringified.

Lemma logToolUsed_run toolName args now b :
  exists argsJson,
    logToolUsed JSON_stringify toolName args now b
    = (Ok tt,
       {| canvasKey := canvasKey b;
          eventsList :=
            (eventsList b
             ++ [stringifiedEvent (toolUsedEvent toolName argsJson now)])%list |}).
Proof.
  unfold logToolUsed. destruct (JSON_stringify args); eexists; reflexivity.
Qed.

(** The stored entry of a tool call is recognised by the reader of the
    log, with or without its [argsJson] property. *)
Lemma parseLogEntry_toolUsedEvent (JSON_parse : string -> option JsValue)
    toolName argsJson now :
  parseLogEntry JSON_parse (stringifiedEvent (toolUsedEvent toolName argsJson now))
  = Some (stringifiedEvent (toolUsedEvent toolName argsJson now)).
Proof. destruct argsJson; reflexivity. Qed.

Lemma setPixel_Err_backend x y color source now b e b' :
  setPixel x y color source now b = (Err e, b') -> b' = initialised b.
Proof.
  rewrite setPixel_run. cbv zeta.
  destruct (outOfBounds _ _ _ _); [intros [= _ <-]; reflexivity|].
  destruct (emptyColor color); [intros [= _ <-]; reflexivity|].
  destruct (ensureColorInPalette _ color) as [[pal i]|e']; [|intros [= _ <-]; reflexivity].
  destruct (decodePixelsFromBase64 _ _); [discriminate | intros [= _ <-]; reflexivity].
Qed.

Lemma setPixels_Err_backend updates source now b e b' :
  setPixels updates source now b = (Err e, b') -> b' = initialised b \/ b' = b.
Proof.
  rewrite setPixels_run. cbv zeta.
  destruct (List.length updates =? 0)%nat; [intros [= _ <-]; auto|].
  destruct (decodePixelsFromBase64 _ _) as [grid|e']; [|intros [= _ <-]; auto].
  destruct (applyUpdates _ _ _ updates) as [[pal pixels]|e'] eqn:E; [|intros [= _ <-]; auto].
  apply applyUpdates_Ok in E as (_ & Hall & _). cbn [fst snd].
  rewrite (appendPixelEvents_run _ _ _ _ _ Hall). discriminate.
Qed.

Lemma setPixels_Ok_log updates source now b st b' :
  setPixels updates source now b = (Ok st, b') ->
  canvasKey b' = Some st
  /\ eventsList b'
     = (eventsList b ++ (eventOfUpdate (palette (meta st)) source now <$> updates))%list.
Proof.
  rewrite setPixels_run.
  destruct (List.length updates =? 0)%nat; [discriminate|]. cbv zeta.
  destruct (decodePixelsFromBase64 _ _) as [grid|e]; [|discriminate].
  destruct (applyUpdates _ _ _ updates) as [[pal' grid']|e] eqn:Happ; [|discriminate].
  apply applyUpdates_Ok in Happ as (_ & Hall & _).
  cbn [fst snd]. rewrite (appendPixelEvents_run _ _ _ _ _ Hall).
  intros [= <- <-]. split; reflexivity.
Qed.

End ToolProperties.

(** X20. The [set_pixel] and [set_pixels] tools record the call before
    they act: the log first grows by the [tool_used] entry of the call, and
    that entry stays when the operation fails, in which case nothing else
    is appended and the canvas is as before.  When the operation succeeds
    the entry is followed by the [pixel_set] events of the call (one, or one
    per update), all with source [mcp], and the returned state is stored. *)
Theorem pixel_tools_audit_then_act (JSON_stringify : JsValue -> Stringified)
    (b : Backend) (logTime now : Z) :
  (forall x y color r b',
      setPixelTool JSON_stringify x y color logTime now b = (r, b') ->
      exists argsJson,
        let entry := stringifiedEvent (toolUsedEvent set_pixel argsJson logTime) in
        match r with
        | Ok st =>
            canvasKey b' = Some st
            /\ exists c i,
                 eventsList b'
                 = (eventsList b ++ [entry; pixelSetEvent x y (JStr c) i now (Some mcp)])%list
        | Err _ =>
            eventsList b' = (eventsList b ++ [entry])%list
            /\ currentCanvas b' = currentCanvas b
        end)
  /\ (forall updates r b',
         setPixelsTool JSON_stringify updates logTime now b = (r, b') ->
         exists argsJson,
           let entry := stringifiedEvent (toolUsedEvent set_pixels argsJson logTime) in
           match r with
           | Ok st =>
               canvasKey b' = Some st
               /\ eventsList b'
                  = (eventsList b
                     ++ entry :: (eventOfUpdate (palette (meta st)) (Some mcp) now
                                  <$> updates))%list
           | Err _ =>
               eventsList b' = (eventsList b ++ [entry])%list
               /\ currentCanvas b' = currentCanvas b
           end).
Proof.
  split.
  - intros x y color r b'. unfold setPixelTool, bind.
    destruct (logToolUsed_run JSON_stringify set_pixel
                (JObj [ ("x", JNum x); ("y", JNum y); ("color", JStr color) ]) logTime b)
      as [argsJson ->].
    set (b1 := {| canvasKey := canvasKey b;
                  eventsList :=
                    (eventsList b
                     ++ [stringifiedEvent (toolUsedEvent set_pixel argsJson logTime)])%list |}).
    intros Hrun. exists argsJson. cbv zeta.
    destruct r as [st|e].
    + destruct (setPixel_event_color _ _ _ _ _ _ _ _ Hrun) as (c & i & Hlog & _).
      split.
      * rewrite setPixel_run in Hrun. cbv zeta in Hrun.
        destruct (outOfBounds _ _ _ _); [discriminate|].
        destruct (emptyColor color); [discriminate|].
        destruct (ensureColorInPalette _ color) as [[pal j]|e]; [|discriminate].
        destruct (decodePixelsFromBase64 _ _); [|discriminate].
        injection Hrun as <- <-. reflexivity.
      * exists c, i. rewrite Hlog. subst b1. cbn [eventsList].
        rewrite <- app_assoc. reflexivity.
    + apply setPixel_Err_backend in Hrun as ->. split; reflexivity.
  - intros updates r b'. unfold setPixelsTool, bind.
    destruct (logToolUsed_run JSON_stringify set_pixels
                (JObj [ ("updates", JArr (updateObject <$> updates)) ]) logTime b)
      as [argsJson ->].
    set (b1 := {| canvasKey := canvasKey b;
                  eventsList :=
                    (eventsList b
                     ++ [stringifiedEvent (toolUsedEvent set_pixels argsJson logTime)])%list |}).
    intros Hrun. exists argsJson. cbv zeta.
    destruct r as [st|e].
    + apply setPixels_Ok_log in Hrun as [Hkey Hlog].
      split; [exact Hkey|]. rewrite Hlog. subst b1. cbn [eventsList].
      rewrite <- app_assoc. reflexivity.
    + apply setPixels_Err_backend in Hrun as [-> | ->]; split; reflexivity.
Qed.

(** X21. The [get_events] tool lists its own call: for a limit allowed by
    its schema (omitted, or a positive integer) it never fails, appends the
    [tool_used] entry of the call, and the list it returns ends with that
    entry, preceded by the events the log held before (the most recent
    [limit - 1] entries of it when a limit is given). *)
Theorem getEventsTool_lists_own_call (JSON_stringify : JsValue -> Stringified)
    (JSON_parse : string -> option JsValue) (limit : JsValue) (logTime : Z) (b : Backend) :
  limitInSchema limit ->
  exists argsJson earlier,
    let entry := stringifiedEvent (toolUsedEvent get_events argsJson logTime) in
    getEventsTool JSON_stringify JSON_parse limit logTime b
    = (Ok (earlier ++ [entry])%list,
       {| canvasKey := canvasKey b; eventsList := (eventsList b ++ [entry])%list |})
    /\ (limit = JUndefined ->
        earlier = omap (parseLogEntry JSON_parse) (eventsList b))
    /\ (forall n, limit = JNum (inject_Z n) ->
                  earlier
                  = omap (parseLogEntry JSON_parse)
                      (drop (List.length (eventsList b) - (Z.to_nat n - 1)) (eventsList b))).
Proof.
  intros Hschema. unfold getEventsTool, bind.
  destruct (logToolUsed_run JSON_stringify get_events (JObj [ ("limit", limit) ]) logTime b)
    as [argsJson ->].
  set (entry := stringifiedEvent (toolUsedEvent get_events argsJson logTime)).
  set (b1 := {| canvasKey := canvasKey b; eventsList := (eventsList b ++ [entry])%list |}).
  assert (Hentry : omap (parseLogEntry JSON_parse) [entry] = [entry]).
  { cbn [omap list_omap]. subst entry. rewrite parseLogEntry_toolUsedEvent. reflexivity. }
  exists argsJson.
  destruct Hschema as [-> | (n & Hn & ->)].
  - exists (omap (parseLogEntry JSON_parse) (eventsList b)). cbv zeta.
    split; [|split; [reflexivity | discriminate]].
    change (getCanvasEvents JSON_parse JUndefined b1)
      with (bind (redis_lrange 0 (-1))
              (fun all => ret (omap (parseLogEntry JSON_parse) all)) b1).
    rewrite readAll_run. subst b1. cbn [eventsList].
    rewrite omap_app, Hentry. reflexivity.
  - exists (omap (parseLogEntry JSON_parse)
              (drop (List.length (eventsList b) - (Z.to_nat n - 1)) (eventsList b))).
    cbv zeta. split; [|split; [discriminate|]].
    + rewrite getCanvasEvents_window;
        [|apply isInteger_inject_Z
         |change 0%Q with (inject_Z 0); rewrite <- Zlt_Qlt; exact Hn].
      rewrite toInteger_inject_Z. subst b1. cbn [eventsList].
      rewrite length_app. cbn [List.length].
      replace (List.length (eventsList b) + 1 - Z.to_nat n)%nat
        with (List.length (eventsList b) - (Z.to_nat n - 1))%nat by lia.
      rewrite drop_app_le by lia. rewrite omap_app, Hentry. reflexivity.
    + intros m [= <-]. reflexivity.
Qed.

Lemma getEventsTool_lists_own_call_witness :
  exists argsJson earlier,
    getEventsTool (fun _ => StringifyThrows) sampleParse (JNum 2) 1700000000005
      sampleBackend
    = (Ok (earlier
           ++ [stringifiedEvent (toolUsedEvent get_events argsJson 1700000000005)])%list,
       {| canvasKey := canvasKey sampleBackend;
          eventsList :=
            (eventsList sampleBackend
             ++ [stringifiedEvent
                   (toolUsedEvent get_events argsJson 1700000000005)])%list |})
    /\ earlier = [pixelSetEvent 3 4 (JStr "#FFFFFF") 0 1700000000002 None].
Proof.
  destruct (getEventsTool_lists_own_call (fun _ => StringifyThrows) sampleParse
              (JNum 2) 1700000000005 sampleBackend)
    as (argsJson & earlier & Hrun & _ & Hearlier).
  - right. exists 2. split; [lia | reflexivity].
  - exists argsJson, earlier. split; [exact Hrun|].
    rewrite (Hearlier 2 eq_refl). vm_compute. reflexivity.
Defined.

(** ** Listing events over HTTP and from the script *)

Section ListingProperties.

Variable finiteNumber : string -> option Q.
Variable JSON_parse : string -> option JsValue.

Lemma getCanvasEvents_all (limit : JsValue) (b : Backend) :
  isPositiveNumber limit = false ->
  getCanvasEvents JSON_parse limit b
  = (Ok (omap (parseLogEntry JSON_parse) (eventsList b)), b).
Proof.
  intros Hlimit. rewrite <- readAll_run.
  destruct limit as [| |flag|l|s|items|fields]; try reflexivity.
  cbn [isPositiveNumber] in Hlimit. unfold getCanvasEvents. rewrite Hlimit. reflexivity.
Qed.

(** X22. [GET /api/canvas/events] returns every event of the log when
    the [limit] parameter is absent, empty, not a finite number, or a
    number that is not positive, and the most recent [n] entries' events
    when it is a positive integer [n]; it never changes the backend. *)
Theorem eventsRoute_limit (limitParam : option string) (b : Backend) :
  (limitParam = None \/ limitParam = Some EmptyString
   \/ (exists text, limitParam = Some text /\ finiteNumber text = None)
   \/ (exists text q, limitParam = Some text /\ finiteNumber text = Some q /\ (q <= 0)%Q) ->
   eventsRoute finiteNumber JSON_parse limitParam b
   = (Ok (omap (parseLogEntry JSON_parse) (eventsList b)), b))
  /\ (forall text q,
         limitParam = Some text -> text <> EmptyString ->
         finiteNumber text = Some q -> isInteger q = true -> (0 < q)%Q ->
         eventsRoute finiteNumber JSON_parse limitParam b
         = (Ok (omap (parseLogEntry JSON_parse)
                  (drop (List.length (eventsList b) - Z.to_nat (toInteger q))
                     (eventsList b))),
            b)).
Proof.
  unfold eventsRoute. split.
  - intros [-> | [-> | [(text & -> & Hnum) | (text & q & -> & Hnum & Hq)]]].
    + apply getCanvasEvents_all. reflexivity.
    + apply getCanvasEvents_all. reflexivity.
    + destruct (String.eqb text EmptyString); [|rewrite Hnum];
        apply getCanvasEvents_all; reflexivity.
    + destruct (String.eqb text EmptyString); [apply getCanvasEvents_all; reflexivity|].
      rewrite Hnum. apply getCanvasEvents_all. cbn [isPositiveNumber].
      apply Qltb_ge, Hq.
  - intros text q -> Htext Hnum Hint Hpos.
    destruct (String.eqb_spec text EmptyString) as [|_]; [congruence|].
    rewrite Hnum. apply getCanvasEvents_window; assumption.
Qed.

(** X23. The script that prints events never reads without a bound: with
    an argument that is missing, not a finite number or not positive it
    lists the events among the most recent 100 entries, and with a positive
    integer [n] those among the most recent [n]. *)
Theorem getEventsScript_limit (arg : option Q) (b : Backend) :
  (arg = None \/ (exists q, arg = Some q /\ (q <= 0)%Q) ->
   getEventsScript JSON_parse arg b
   = (Ok (omap (parseLogEntry JSON_parse)
            (drop (List.length (eventsList b) - 100) (eventsList b))),
      b))
  /\ (forall q, arg = Some q -> isInteger q = true -> (0 < q)%Q ->
                getEventsScript JSON_parse arg b
                = (Ok (omap (parseLogEntry JSON_parse)
                         (drop (List.length (eventsList b) - Z.to_nat (toInteger q))
                            (eventsList b))),
                   b)).
Proof.
  unfold getEventsScript. split.
  - intros [-> | (q & -> & Hq)].
    + apply (getCanvasEvents_window JSON_parse 100 b); reflexivity.
    + rewrite (proj2 (Qltb_ge 0 q) Hq).
      apply (getCanvasEvents_window JSON_parse 100 b); reflexivity.
  - intros q -> Hint Hpos. rewrite (proj2 (Qltb_lt 0 q) Hpos).
    apply getCanvasEvents_window; assumption.
Qed.

End ListingProperties.

(** ** The page decodes what the service encodes *)

Section PageDecoding.

Ltac split_byte x E :=
  destruct (byteBits x) as [[[[[[[? ?] ?] ?] ?] ?] ?] ?] eqn:E.

Ltac each_sextet s :=
  destruct s as [[[[[b5 b4] b3] b2] b1] b0]; destruct b5, b4, b3, b2, b1, b0.

Lemma standardSextet_base64Char (s : sextet) : standardSextet (base64Char s) = Some s.
Proof. each_sextet s; reflexivity. Qed.

Lemma base64Char_not_whitespace (s : sextet) : isAsciiWhitespace (base64Char s) = false.
Proof. each_sextet s; reflexivity. Qed.

Lemma base64Char_not_equals (s : sextet) : Ascii.eqb (base64Char s) "=" = false.
Proof. each_sextet s; reflexivity. Qed.

Lemma string_length_append (s t : string) :
  String.length (s ++ t) = (String.length s + String.length t)%nat.
Proof.
  induction s as [|c s IH]; [reflexivity|].
  change (String c s ++ t) with (String c (s ++ t)).
  cbn [String.length]. rewrite IH. reflexivity.
Qed.

Lemma string_append_assoc (s t u : string) : (s ++ t) ++ u = s ++ (t ++ u).
Proof.
  induction s as [|c s IH]; [reflexivity|].
  change ((String c s ++ t) ++ u) with (String c ((s ++ t) ++ u)).
  change (String c s ++ (t ++ u)) with (String c (s ++ (t ++ u))).
  rewrite IH. reflexivity.
Qed.

Lemma sextetText_length (values : list sextet) :
  String.length (sextetText values) = List.length values.
Proof. induction values as [|v vs IH]; cbn; [reflexivity | rewrite IH; reflexivity]. Qed.

Lemma standardSextets_sextetText (values : list sextet) :
  standardSextets (sextetText values) = Some values.
Proof.
  induction values as [|v vs IH]; [reflexivity|].
  cbn [sextetText standardSextets]. rewrite standardSextet_base64Char, IH. reflexivity.
Qed.

Lemma removeWhitespace_sextetText (values : list sextet) (tail : string) :
  removeWhitespace (sextetText values ++ tail) = sextetText values ++ removeWhitespace tail.
Proof.
  induction values as [|v vs IH]; [reflexivity|].
  cbn [sextetText].
  change (String (base64Char v) (sextetText vs) ++ tail)
    with (String (base64Char v) (sextetText vs ++ tail)).
  cbn [removeWhitespace]. rewrite base64Char_not_whitespace, IH. reflexivity.
Qed.

Lemma removeFinalEquals_sextetText (values : list sextet) :
  removeFinalEquals (sextetText values) = sextetText values.
Proof.
  induction values as [|v vs IH]; [reflexivity|].
  cbn [sextetText removeFinalEquals].
  destruct (sextetText vs) as [|c rest] eqn:E.
  - rewrite base64Char_not_equals. reflexivity.
  - rewrite IH. reflexivity.
Qed.

Lemma removeFinalEquals_snoc (s : string) : removeFinalEquals (s ++ "=") = s.
Proof.
  induction s as [|c s IH]; [reflexivity|].
  change (String c s ++ "=") with (String c (s ++ "=")).
  cbn [removeFinalEquals].
  destruct (s ++ "=") as [|d rest] eqn:E.
  - destruct s; discriminate E.
  - rewrite IH. reflexivity.
Qed.

Lemma mod4_rest (k r : nat) : (r < 4)%nat -> ((4 * k + r) mod 4 = r)%nat.
Proof.
  intros Hr. rewrite Nat.add_comm, Nat.mul_comm, Nat.Div0.mod_add.
  apply Nat.mod_small, Hr.
Qed.

Lemma sextets3_decode (x y z : byte) (rest : list sextet) :
  sextetsToBytes (sextets3 x y z ++ rest) = x :: y :: z :: sextetsToBytes rest.
Proof.
  unfold sextets3. split_byte x Ex. split_byte y Ey. split_byte z Ez.
  cbn [app sextetsToBytes decodeByte1 decodeByte2 decodeByte3].
  rewrite <- Ex, <- Ey, <- Ez, !bitsByte_byteBits. reflexivity.
Qed.

Lemma sextets2_decode (x y : byte) : sextetsToBytes (sextets2 x y) = [x; y].
Proof.
  unfold sextets2. split_byte x Ex. split_byte y Ey.
  cbn [sextetsToBytes decodeByte1 decodeByte2].
  rewrite <- Ex, <- Ey, !bitsByte_byteBits. reflexivity.
Qed.

Lemma sextets1_decode (x : byte) : sextetsToBytes (sextets1 x) = [x].
Proof.
  unfold sextets1. split_byte x Ex.
  cbn [sextetsToBytes decodeByte1].
  rewrite <- Ex, !bitsByte_byteBits. reflexivity.
Qed.

Lemma sextets3_text (x y z : byte) (rest : list sextet) (tail : string) :
  encodeGroup3 x y z ++ (sextetText rest ++ tail)
  = sextetText (sextets3 x y z ++ rest) ++ tail.
Proof.
  unfold encodeGroup3, sextets3. split_byte x Ex. split_byte y Ey. split_byte z Ez.
  reflexivity.
Qed.

Lemma sextets3_length (x y z : byte) : List.length (sextets3 x y z) = 4%nat.
Proof.
  unfold sextets3. split_byte x Ex. split_byte y Ey. split_byte z Ez. reflexivity.
Qed.

Lemma encodedShape_by3 (bs : list byte) :
  encodedShape bs
  /\ (forall x, encodedShape (x :: bs))
  /\ (forall x y, encodedShape (x :: y :: bs)).
Proof.
  induction bs as [|z bs (IH0 & IH1 & IH2)].
  - split; [|split].
    + split; [reflexivity|]. split; [reflexivity|]. exists 0%nat. auto.
    + intros x. split; [|split; [apply sextets1_decode|]].
      * cbn [bufferToBase64 bytesToSextets paddingOf].
        unfold encodeGroup1, sextets1. split_byte x Ex. reflexivity.
      * exists 0%nat. right; right. split; [|reflexivity].
        cbn [bytesToSextets]. unfold sextets1. split_byte x Ex. reflexivity.
    + intros x y. split; [|split; [apply sextets2_decode|]].
      * cbn [bufferToBase64 bytesToSextets paddingOf].
        unfold encodeGroup2, sextets2. split_byte x Ex. split_byte y Ey. reflexivity.
      * exists 0%nat. right; left. split; [|reflexivity].
        cbn [bytesToSextets]. unfold sextets2. split_byte x Ex. split_byte y Ey. reflexivity.
  - split; [apply IH1|]. split; [intros x; apply IH2|].
    intros x y. destruct IH0 as (Htext & Hbytes & k & Hshape).
    split; [|split].
    + change (bufferToBase64 (x :: y :: z :: bs))
        with (encodeGroup3 x y z ++ bufferToBase64 bs).
      rewrite Htext. apply sextets3_text.
    + change (bytesToSextets (x :: y :: z :: bs))
        with (sextets3 x y z ++ bytesToSextets bs)%list.
      rewrite sextets3_decode, Hbytes. reflexivity.
    + exists (S k).
      change (bytesToSextets (x :: y :: z :: bs))
        with (sextets3 x y z ++ bytesToSextets bs)%list.
      change (paddingOf (x :: y :: z :: bs)) with (paddingOf bs).
      rewrite length_app, sextets3_length.
      destruct Hshape as [[Hlen Hpad]|[[Hlen Hpad]|[Hlen Hpad]]]; rewrite Hlen, Hpad;
        [left | right; left | right; right]; split; (lia || reflexivity).
Qed.

Lemma atob_bufferToBase64 (bs : list byte) : atob (bufferToBase64 bs) = Some bs.
Proof.
  destruct (encodedShape_by3 bs) as [(Htext & Hbytes & k & Hshape) _].
  set (values := bytesToSextets bs) in *.
  assert (Hlast : standardSextets (sextetText values) = Some values
                  /\ removeFinalEquals (sextetText values) = sextetText values).
  { split; [apply standardSextets_sextetText | apply removeFinalEquals_sextetText]. }
  destruct Hlast as [Hstd Hkeep].
  unfold atob. rewrite Htext, removeWhitespace_sextetText.
  destruct Hshape as [[Hlen Hpad]|[[Hlen Hpad]|[Hlen Hpad]]]; rewrite Hpad;
    match goal with
    | |- context [removeWhitespace ?pad] =>
        let kept := eval vm_compute in (removeWhitespace pad) in
        change (removeWhitespace pad) with kept
    end;
    rewrite string_length_append, sextetText_length, Hlen.
  - change (String.length EmptyString) with 0%nat.
    change (sextetText values ++ EmptyString)%string with (sextetText values ++ "")%string.
    replace (4 * k + 0)%nat with (4 * k + 0)%nat by reflexivity.
    rewrite (mod4_rest k 0) by lia. cbn [Nat.eqb].
    assert (Hnil : sextetText values ++ "" = sextetText values).
    { clear. induction (sextetText values) as [|c s IH]; [reflexivity|].
      change (String c s ++ "") with (String c (s ++ "")). rewrite IH. reflexivity. }
    rewrite Hnil, !Hkeep, sextetText_length, Hlen.
    replace (4 * k)%nat with (4 * k + 0)%nat by lia.
    rewrite (mod4_rest k 0) by lia. cbn [Nat.eqb].
    rewrite Hstd, Hbytes. reflexivity.
  - change (String.length "=") with 1%nat.
    replace (4 * k + 3 + 1)%nat with (4 * S k + 0)%nat by lia.
    rewrite (mod4_rest (S k) 0) by lia. cbn [Nat.eqb].
    rewrite removeFinalEquals_snoc, Hkeep, sextetText_length, Hlen.
    rewrite (mod4_rest k 3) by lia. cbn [Nat.eqb].
    rewrite Hstd, Hbytes. reflexivity.
  - change (String.length "==") with 2%nat.
    replace (4 * k + 2 + 2)%nat with (4 * S k + 0)%nat by lia.
    rewrite (mod4_rest (S k) 0) by lia. cbn [Nat.eqb].
    change "==" with ("=" ++ "=").
    rewrite <- string_append_assoc, !removeFinalEquals_snoc, sextetText_length, Hlen.
    rewrite (mod4_rest k 2) by lia. cbn [Nat.eqb].
    rewrite Hstd, Hbytes. reflexivity.
Qed.

End PageDecoding.

(** X24. The page decodes what the service encodes: [atob] followed by
    the character codes gives back every grid from its encoding, and after
    every successful [setPixel], [setPixels] or [resetCanvas] the page's
    decoding of the stored text is the grid of the stored state.  Where
    there is no [window] the page decodes to an empty array. *)
Theorem page_decodes_service_encoding :
  (forall grid : list byte,
      pageDecodePixels true (encodePixelsToBase64 grid) = Some grid)
  /\ (forall text, pageDecodePixels false text = Some [])
  /\ (forall op b,
         op <> OpGetCanvas -> operationError op b = None ->
         pageDecodePixels true (pixelsBase64 (currentCanvas (runOperation op b)))
         = Some (gridOf (currentCanvas (runOperation op b)))).
Proof.
  assert (Hround : forall grid, pageDecodePixels true (encodePixelsToBase64 grid) = Some grid)
    by (intros grid; apply atob_bufferToBase64).
  assert (Hstored : forall w h pal grid,
             pageDecodePixels true (pixelsBase64 (storedCanvas w h pal grid))
             = Some (gridOf (storedCanvas w h pal grid))).
  { intros w h pal grid. rewrite gridOf_storedCanvas. apply Hround. }
  split; [exact Hround|]. split; [reflexivity|].
  intros op b Hop.
  destruct op as [|x y color source now|updates source now|w' h' pal'];
    [congruence| | |]; cbn [operationError runOperation].
  - rewrite setPixel_run. cbv zeta.
    destruct (outOfBounds _ _ _ _); [discriminate|].
    destruct (emptyColor color); [discriminate|].
    destruct (ensureColorInPalette _ color) as [[pal i]|e]; [|discriminate].
    destruct (decodePixelsFromBase64 _ _) as [grid|e]; [|discriminate].
    intros _. apply Hstored.
  - rewrite setPixels_run. cbv zeta.
    destruct (List.length updates =? 0)%nat; [discriminate|].
    destruct (decodePixelsFromBase64 _ _) as [grid|e]; [|discriminate].
    destruct (applyUpdates _ _ _ updates) as [[pal grid']|e] eqn:E; [|discriminate].
    apply applyUpdates_Ok in E as (_ & Hall & _). cbn [fst snd].
    rewrite (appendPixelEvents_run _ _ _ _ _ Hall). intros _. apply Hstored.
  - rewrite resetCanvas_run. cbv zeta.
    destruct (negb _ || negb _ || _ || _); [discriminate|].
    destruct (maxTypedArrayLength <? _); [discriminate|].
    intros _. apply Hstored.
Qed.

(** X25. The page paints what was set: after a successful [setPixel] at
    integer coordinates, on a palette of at most 256 colours, the fill
    style of that cell in the page's drawing loop is the palette entry of
    the requested colour (a string with the same normal form). *)
Theorem page_paints_set_pixel (b : Backend) (x y : Z) (color : string)
    (source : option PixelSource) (now : Z) (st : CanvasState) (b' : Backend) :
  setPixel (inject_Z x) (inject_Z y) color source now b = (Ok st, b') ->
  (List.length (palette (meta st)) <= 256)%nat ->
  exists pixels,
    pageDecodePixels true (pixelsBase64 st) = Some pixels
    /\ In (paintedColor st pixels x y) (palette (meta st))
    /\ normalizeColorString (paintedColor st pixels x y) = normalizeColorString color.
Proof.
  intros Hrun Hpal.
  destruct (setPixel_grid b x y color source now st b' Hrun)
    as (i & c & _ & Hw & _ & Hlen & Hcell & _ & Hread & _ & Hc & Hnorm & Hsmall & Htext).
  exists (gridOf st).
  split; [rewrite Htext; apply atob_bufferToBase64|].
  assert (Hpaint : paintedColor st (gridOf st) x y = c).
  { unfold paintedColor. rewrite Hw.
    unfold cellIndex in Hcell, Hread.
    assert (Hidx : 0 <= y * width (meta (currentCanvas b)) + x).
    { clear -Hrun.
      rewrite setPixel_run in Hrun. cbv zeta in Hrun.
      destruct (outOfBounds _ _ _ _) eqn:Hin; [discriminate|].
      apply inBounds_integer in Hin. nia. }
    rewrite (proj2 (Z.ltb_ge _ _) Hidx). rewrite Hread.
    rewrite (Hsmall Hpal), Nnat.Nat2N.id, Hc. reflexivity. }
  rewrite Hpaint. split; [|exact Hnorm].
  apply list_elem_of_In. eapply list_elem_of_lookup_2, Hc.
Qed.

Lemma page_paints_set_pixel_witness :
  exists st pixels,
    fst (setPixel 2 3 " #F00 " (Some mcp) 1700000000000 emptyBackend) = Ok st
    /\ pageDecodePixels true (pixelsBase64 st) = Some pixels
    /\ paintedColor st pixels 2 3 = "#ff0000".
Proof.
  pose (r := setPixel (inject_Z 2) (inject_Z 3) " #F00 " (Some mcp) 1700000000000
               emptyBackend).
  assert (Hrun : r = (Ok (currentCanvas (snd r)), snd r)) by (vm_compute; reflexivity).
  destruct (page_paints_set_pixel emptyBackend 2 3 " #F00 " (Some mcp) 1700000000000
              _ _ Hrun) as (pixels & Hdecode & _ & _).
  - vm_compute. lia.
  - exists (currentCanvas (snd r)), pixels.
    split; [exact (f_equal fst Hrun)|]. split; [exact Hdecode|].
    assert (Hpixels : Some pixels = Some (gridOf (currentCanvas (snd r)))).
    { rewrite <- Hdecode. vm_compute. reflexivity. }
    injection Hpixels as ->. vm_compute. reflexivity.
Defined.

(** ** Cells, sizes and blank colours *)

(** X26. [indexFor] is row-major and collision-free: for integer
    coordinates inside a [width] by [height] grid the index is
    [y * width + x], it lies inside the grid, and two coordinate pairs with
    the same index are the same pair. *)
Theorem indexFor_row_major (w h x y x' y' : Z) :
  0 <= x < w -> 0 <= y < h -> 0 <= x' < w -> 0 <= y' < h ->
  isInteger (indexFor (inject_Z x) (inject_Z y) w) = true
  /\ toInteger (indexFor (inject_Z x) (inject_Z y) w) = y * w + x
  /\ 0 <= y * w + x < w * h
  /\ ((indexFor (inject_Z x) (inject_Z y) w == indexFor (inject_Z x') (inject_Z y') w)%Q ->
      x = x' /\ y = y').
Proof.
  intros Hx Hy Hx' Hy'.
  destruct (indexFor_integer x y w) as (Hint & Hval & _).
  destruct (indexFor_integer x' y' w) as (Hint' & Hval' & _).
  split; [exact Hint|]. split; [exact Hval|]. split; [nia|].
  intros Heq.
  assert (Hsame : y * w + x = y' * w + x').
  { apply integer_Qeq in Hint, Hint'. rewrite Hval in Hint. rewrite Hval' in Hint'.
    rewrite Hint, Hint' in Heq. unfold Qeq, inject_Z in Heq. cbn [Qnum Qden] in Heq. lia. }
  assert (Hy_eq : y = y') by nia.
  subst y'. split; [lia | reflexivity].
Qed.

Lemma indexFor_row_major_witness :
  isInteger (indexFor (inject_Z 3) (inject_Z 2) 64) = true
  /\ toInteger (indexFor (inject_Z 3) (inject_Z 2) 64) = 2 * 64 + 3
  /\ 0 <= 2 * 64 + 3 < 64 * 64
  /\ ((indexFor (inject_Z 3) (inject_Z 2) 64 == indexFor (inject_Z 3) (inject_Z 2) 64)%Q ->
      3 = 3 /\ 2 = 2).
Proof. apply (indexFor_row_major 64 64 3 2 3 2); lia. Defined.

Section EncodedLength.

Lemma encoded_length_by3 (bs : list byte) :
  let size (l : list byte) := String.length (bufferToBase64 l) = (4 * ((List.length l + 2) / 3))%nat in
  size bs /\ (forall x, size (x :: bs)) /\ (forall x y, size (x :: y :: bs)).
Proof.
  cbv zeta.
  induction bs as [|z bs (IH0 & IH1 & IH2)].
  - split; [reflexivity|]. split.
    + intros x. cbn [bufferToBase64]. unfold encodeGroup1.
      destruct (byteBits x) as [[[[[[[? ?] ?] ?] ?] ?] ?] ?]. reflexivity.
    + intros x y. cbn [bufferToBase64]. unfold encodeGroup2.
      destruct (byteBits x) as [[[[[[[? ?] ?] ?] ?] ?] ?] ?].
      destruct (byteBits y) as [[[[[[[? ?] ?] ?] ?] ?] ?] ?]. reflexivity.
  - split; [apply IH1|]. split; [intros x; apply IH2|].
    intros x y.
    change (bufferToBase64 (x :: y :: z :: bs))
      with (encodeGroup3 x y z ++ bufferToBase64 bs).
    rewrite string_length_append, IH0.
    assert (Hgroup : String.length (encodeGroup3 x y z) = 4%nat).
    { unfold encodeGroup3.
      destruct (byteBits x) as [[[[[[[? ?] ?] ?] ?] ?] ?] ?].
      destruct (byteBits y) as [[[[[[[? ?] ?] ?] ?] ?] ?] ?].
      destruct (byteBits z) as [[[[[[[? ?] ?] ?] ?] ?] ?] ?]. reflexivity. }
    rewrite Hgroup. cbn [List.length].
    replace (S (S (S (List.length bs))) + 2)%nat with (List.length bs + 2 + 1 * 3)%nat by lia.
    rewrite Nat.div_add by lia. lia.
Qed.

End EncodedLength.

(** X27. The stored text of a grid of [n] cells has exactly
    [4 * ceil(n / 3)] characters. *)
Theorem encodePixelsToBase64_length (grid : list byte) :
  String.length (encodePixelsToBase64 grid) = (4 * ((List.length grid + 2) / 3))%nat.
Proof. apply (encoded_length_by3 grid). Qed.

Section BlankColour.

Lemma trimStart_blank (s : string) : allWhiteSpace s = true -> trimStart s = EmptyString.
Proof.
  induction s as [|c s IH]; cbn [allWhiteSpace trimStart]; [reflexivity|].
  intros H. apply andb_true_iff in H as [-> H]. apply IH, H.
Qed.

Lemma trimEnd_empty (s : string) : trimEnd s = EmptyString -> allWhiteSpace s = true.
Proof.
  induction s as [|c s IH]; cbn [allWhiteSpace trimEnd]; [reflexivity|].
  destruct (trimEnd s) as [|d r]; [|discriminate].
  destruct (isWhiteSpace c); [|discriminate].
  intros _. apply IH. reflexivity.
Qed.

Lemma trimStart_allWhiteSpace (s : string) :
  allWhiteSpace (trimStart s) = true -> allWhiteSpace s = true.
Proof.
  induction s as [|c s IH]; cbn [allWhiteSpace trimStart]; [reflexivity|].
  destruct (isWhiteSpace c) eqn:E; cbn [allWhiteSpace andb].
  - exact IH.
  - rewrite E. discriminate.
Qed.

Lemma emptyColor_blank (color : string) :
  emptyColor color = true <-> allWhiteSpace color = true.
Proof.
  unfold emptyColor, trim. split.
  - intros H. apply Nat.eqb_eq in H.
    apply trimStart_allWhiteSpace, trimEnd_empty.
    destruct (trimEnd (trimStart color)); [reflexivity | discriminate H].
  - intros H. rewrite (trimStart_blank _ H). reflexivity.
Qed.

End BlankColour.

(** X28. [setPixel] fails with the invalid-colour error exactly when the
    coordinates are inside the grid and the colour is empty or made of
    white space only; the palette is not consulted and nothing is
    written. *)
Theorem setPixel_invalid_color (b : Backend) (x y : Q) (color : string)
    (source : option PixelSource) (now : Z) :
  fst (setPixel x y color source now b) = Err InvalidColor
  <-> outOfBounds x y (width (meta (currentCanvas b))) (height (meta (currentCanvas b)))
      = false
      /\ allWhiteSpace color = true.
Proof.
  rewrite <- emptyColor_blank, setPixel_run. cbv zeta.
  destruct (outOfBounds _ _ _ _); [split; [discriminate | intros [[=] _]]|].
  destruct (emptyColor color); [split; auto|].
  split; [|intros [_ [=]]].
  destruct (ensureColorInPalette _ color) as [[pal i]|e] eqn:E.
  - unfold decodePixelsFromBase64. destruct (negb _); discriminate.
  - apply ensureColorInPalette_error in E as [-> _]. discriminate.
Qed.

(** ** The [get_canvas] tool and the normal form of colours *)

(** X29. The [get_canvas] tool never fails: it appends the [tool_used]
    entry of the call and nothing else to the log, and returns the canvas,
    which is stored afterwards (the default canvas on a fresh backend, the
    stored one otherwise). *)
Theorem getCanvasTool_outcome (JSON_stringify : JsValue -> Stringified)
    (showUI : bool) (logTime : Z) (b : Backend) :
  exists argsJson,
    getCanvasTool JSON_stringify showUI logTime b
    = (Ok (currentCanvas b),
       {| canvasKey := Some (currentCanvas b);
          eventsList :=
            (eventsList b
             ++ [stringifiedEvent (toolUsedEvent get_canvas argsJson logTime)])%list |}).
Proof.
  unfold getCanvasTool, bind.
  destruct (logToolUsed_run JSON_stringify get_canvas (JObj [ ("showUI", JBool showUI) ])
              logTime b) as [argsJson ->].
  exists argsJson. rewrite getCanvas_run. reflexivity.
Qed.

Section NormalForm.

Lemma normalizeColorString_fixed (color : string) :
  toLowerCase (trim (normalizeColorString color)) = normalizeColorString color.
Proof.
  unfold normalizeColorString.
  destruct (trimmedLower_intro color) as [Ht Hl].
  set (trimmed := toLowerCase (trim color)) in *.
  destruct (shortHexMatch trimmed) as [[[r g] b]|] eqn:E.
  - unfold shortHexMatch in E.
    destruct trimmed as [|h [|r' [|g' [|b' [|? ?]]]]]; try discriminate E.
    destruct (Ascii.eqb h "#") eqn:Hh; [|discriminate E].
    destruct (isHexDigit r') eqn:Hr; [|discriminate E].
    destruct (isHexDigit g') eqn:Hg; [|discriminate E].
    destruct (isHexDigit b') eqn:Hb; [|discriminate E].
    cbn in E. injection E as -> -> ->.
    apply (shortHex_expansion_fixed h r g b Hh Hr Hg Hb Hl).
  - rewrite Ht. exact Hl.
Qed.

End NormalForm.

(** X30. [normalizeColorString] yields a normal form: normalising it
    again changes nothing, and it has no white space at either end and no
    upper-case letter (trimming it or lower-casing it changes nothing). *)
Theorem normalizeColorString_normal_form (color : string) :
  normalizeColorString (normalizeColorString color) = normalizeColorString color
  /\ trim (normalizeColorString color) = normalizeColorString color
  /\ toLowerCase (normalizeColorString color) = normalizeColorString color.
Proof.
  pose proof (normalizeColorString_fixed color) as Hfix.
  set (n := normalizeColorString color) in *.
  split; [apply normalizeColorString_idemp|]. split.
  - rewrite <- Hfix at 1. rewrite trim_toLowerCase, trim_idemp. exact Hfix.
  - rewrite <- Hfix at 1. rewrite toLowerCase_idemp. exact Hfix.
Qed.
